(** * pyteomics.mzml: the binary-array normaliser, the trailer index and
      the indexed reader, embedded and verified.

    The development follows [pyteomics/mzml.py] function by function.

    - Python values are an inductive type; a float or an array element is
      its IEEE-754 bit pattern, so that arrays are compared bit for bit.
    - A dictionary is an association list in insertion order, the order in
      which Python iterates it.
    - A call returns [Ok v] or [Raise e], [e] being the exception class;
      [try_except] is the [try ... except] statement.
    - The interpreter is CPython 3: dictionaries keep the order of
      insertion, text ([str]) and bytes are different types, [open(name)]
      gives a text stream.
    - Texts and file contents are strings of 8-bit characters, a character
      of a text being the code point of the same number; byte buffers are
      lists of bytes.
    - Integers are unbounded; the limit that the interpreter can be
      configured to put on the number of digits [int] converts is taken to
      be off.
    - [base64.b64decode] is written out after CPython's [a2b_base64],
      [np.frombuffer] reads items in the byte order of the machine, and
      zlib is a parameter of the decoder ([Runtime]).
    - File objects carry their position, whether they are closed and
      whether they are text or binary streams; the functions of the trailer
      index log every file operation they make.  What the operating system
      and the locale decide is a parameter ([Platform]).
    - lxml and the base class [pyteomics.xml.XML] are not part of the file
      under study: they enter as the interfaces [XMLBase] and
      [XMLInherited].

    The first part holds the definitions, the second the facts: the
    statements about the decoder, the normaliser, the trailer index and
    the reader, each with the lemmas it rests on, and at the end the reader
    run on concrete files. *)

From Stdlib Require Import ZArith List String Ascii Bool Lia Strings.Byte.
From Stdlib Require Import Sorting.Sorted Sorting.Permutation DecimalString.
From Stdlib Require Import DecimalNat.
Import ListNotations.

Set Implicit Arguments.
Set Warnings "-register-all".
Local Open Scope string_scope.
Local Open Scope list_scope.
Local Open Scope Z_scope.

(* ================================================================== *)
(** ** Python: exceptions, results, values *)
(* ================================================================== *)

Module Py.

(** The exception classes that the code under study can meet.
    [UserError] stands for a class defined outside the standard library. *)
Inductive exn : Set :=
| KeyError
| ValueError
| TypeError
| AttributeError
| UnboundLocalError
| IOError
| OverflowError
| UnicodeEncodeError
| BinasciiError
| ZlibError
| XMLSyntaxError
| UserError (name : string).

Definition exn_eqb (a b : exn) : bool :=
  match a, b with
  | KeyError, KeyError | ValueError, ValueError | TypeError, TypeError
  | AttributeError, AttributeError | UnboundLocalError, UnboundLocalError
  | IOError, IOError | OverflowError, OverflowError
  | UnicodeEncodeError, UnicodeEncodeError | BinasciiError, BinasciiError
  | ZlibError, ZlibError | XMLSyntaxError, XMLSyntaxError => true
  | UserError n, UserError m => String.eqb n m
  | _, _ => false
  end.

(** A call either returns or raises. *)
Inductive result (A : Type) : Type :=
| Ok (a : A)
| Raise (e : exn).

Arguments Ok {A} a.
Arguments Raise {A} e.

Definition bind {A B : Type} (m : result A) (k : A -> result B) : result B :=
  match m with
  | Ok a => k a
  | Raise e => Raise e
  end.

(** [try: body / except (E1, ..., En): handler]. *)
Definition try_except {A : Type} (body : result A) (caught : list exn)
    (handler : result A) : result A :=
  match body with
  | Ok a => Ok a
  | Raise e => if existsb (exn_eqb e) caught then handler else Raise e
  end.

Definition is_ok {A : Type} (m : result A) : bool :=
  match m with Ok _ => true | Raise _ => false end.

(** numpy type codes used by the module: ['f'] and ['d']. *)
Inductive dtype : Set := F32 | F64.

Definition itemsize (dt : dtype) : nat :=
  match dt with F32 => 4%nat | F64 => 8%nat end.

(** Python values.  A float is its IEEE-754 binary64 bit pattern; an
    array is its type code and the bit patterns of its elements. *)
Inductive value : Type :=
| VNone
| VStr (s : string)
| VInt (z : Z)
| VFloat (bits : Z)
| VList (l : list value)
| VDict (d : list (string * value))
| VArray (dt : dtype) (elems : list Z).

End Py.
Export Py.

Declare Scope py_scope.
Delimit Scope py_scope with py.
Notation "x <- m ;; k" := (bind m (fun x => k))
  (at level 61, m at next level, right associativity) : py_scope.
Notation "' p <- m ;; k" := (bind m (fun p => k))
  (at level 61, p pattern, m at next level, right associativity) : py_scope.
Local Open Scope py_scope.

(* ================================================================== *)
(** ** Ordered dictionaries *)
(* ================================================================== *)

Module Dict.

Section Ordered.
Variables K V : Type.
Variable keqb : K -> K -> bool.

Definition t : Type := list (K * V).

  (** [d.get(k)] *)
Fixpoint get (k : K) (d : t) : option V :=
    match d with
    | [] => None
    | (k', v) :: d' => if keqb k k' then Some v else get k d'
    end.

  (** [k in d] *)
Definition has (k : K) (d : t) : bool :=
    match get k d with Some _ => true | None => false end.

  (** [del d[k]] on a present key, [d.pop(k, None)] in general *)
Definition del (k : K) (d : t) : t :=
    filter (fun kv => negb (keqb k (fst kv))) d.

  (** [d[k] = v]: a present key keeps its place, a new key goes last *)
Fixpoint set (k : K) (v : V) (d : t) : t :=
    match d with
    | [] => [(k, v)]
    | (k', v') :: d' =>
        if keqb k k' then (k, v) :: d' else (k', v') :: set k v d'
    end.

  (** [d.update(d2)] *)
Definition update (d d2 : t) : t :=
    fold_left (fun acc kv => set (fst kv) (snd kv) acc) d2 d.

Definition keys (d : t) : list K := map fst d.
End Ordered.

End Dict.

Definition dict : Type := Dict.t string value.
Definition dget : string -> dict -> option value := Dict.get String.eqb.
Definition dhas : string -> dict -> bool := Dict.has String.eqb.
Definition ddel : string -> dict -> dict := Dict.del String.eqb.
Definition dset : string -> value -> dict -> dict := Dict.set String.eqb.
Definition dupdate : dict -> dict -> dict := Dict.update String.eqb.

(* ================================================================== *)
(** ** Python built-ins used by the module *)
(* ================================================================== *)

Module Builtins.

(** [s.endswith(suffix)] on strings *)
Fixpoint ends_with (suffix s : string) : bool :=
  String.eqb s suffix ||
  match s with
  | EmptyString => false
  | String _ s' => ends_with suffix s'
  end.

(** [t in s] on strings: [t] occurs in [s] *)
Fixpoint occurs_in (t s : string) : bool :=
  prefix t s ||
  match s with
  | EmptyString => false
  | String _ s' => occurs_in t s'
  end.

Definition is_str (t : string) (v : value) : bool :=
  match v with VStr s => String.eqb s t | _ => false end.

(** IEEE-754: a pattern of [width] bits is zero (of either sign) when
    everything below the sign bit is clear. *)
Definition float_is_zero (width : Z) (bits : Z) : bool :=
  bits mod 2 ^ (width - 1) =? 0.

Definition float_width (dt : dtype) : Z :=
  match dt with F32 => 32 | F64 => 64 end.

(** [bool(v)], as [if v:] and [not v] evaluate it.  An array of more
    than one element has no truth value. *)
Definition truthy (v : value) : result bool :=
  match v with
  | VNone => Ok false
  | VStr s => Ok (negb (String.eqb s ""))
  | VInt z => Ok (negb (z =? 0))
  | VFloat bits => Ok (negb (float_is_zero 64 bits))
  | VList l => Ok (match l with [] => false | _ => true end)
  | VDict d => Ok (match d with [] => false | _ => true end)
  | VArray _ [] => Ok false
  | VArray dt [x] => Ok (negb (float_is_zero (float_width dt) x))
  | VArray _ _ => Raise ValueError
  end.

(** [t in c] for a string [t].  Entries of a list that are not strings
    compare unequal to [t]. *)
Definition py_contains (t : string) (c : value) : result bool :=
  match c with
  | VStr s => Ok (occurs_in t s)
  | VList l => Ok (existsb (is_str t) l)
  | VDict d => Ok (Dict.has String.eqb t d)
  | VArray _ _ => Ok false
  | VNone | VInt _ | VFloat _ => Raise TypeError
  end.

Fixpoint remove_first (t : string) (l : list value) : list value :=
  match l with
  | [] => []
  | v :: l' => if is_str t v then l' else v :: remove_first t l'
  end.

(** [c.remove(t)]: only lists have the method; a list without [t]
    raises [ValueError].  The result is the list after the call. *)
Definition py_remove (t : string) (c : value) : result value :=
  match c with
  | VList l =>
      if existsb (is_str t) l then Ok (VList (remove_first t l))
      else Raise ValueError
  | _ => Raise AttributeError
  end.

(** [v.endswith(suffix)]: a string method *)
Definition py_endswith (suffix : string) (v : value) : result bool :=
  match v with
  | VStr s => Ok (ends_with suffix s)
  | _ => Raise AttributeError
  end.

(** Truncation of a float towards zero, from its bit pattern with
    [ebits] exponent bits and [mbits] mantissa bits: [int(x)].
    Infinities raise [OverflowError], NaNs [ValueError]. *)
Definition float_trunc (ebits mbits : Z) (bits : Z) : result Z :=
  let m := bits mod 2 ^ mbits in
  let e := (bits / 2 ^ mbits) mod 2 ^ ebits in
  let neg := Z.odd (bits / 2 ^ (mbits + ebits)) in
  let bias := 2 ^ (ebits - 1) - 1 in
  if e =? 2 ^ ebits - 1 then
    if m =? 0 then Raise OverflowError else Raise ValueError
  else
    let mag :=
      if e =? 0 then 0
      else
        let sig := 2 ^ mbits + m in
        let sh := e - bias - mbits in
        if 0 <=? sh then sig * 2 ^ sh else sig / 2 ^ (- sh) in
    Ok (if neg then - mag else mag).

Definition is_space (c : ascii) : bool :=
  let n := nat_of_ascii c in
  (n =? 32)%nat || ((9 <=? n)%nat && (n <=? 13)%nat).

Definition is_digit (c : ascii) : bool :=
  let n := nat_of_ascii c in (48 <=? n)%nat && (n <=? 57)%nat.

Definition digit_val (c : ascii) : Z := Z.of_nat (nat_of_ascii c) - 48.

Fixpoint lstrip (s : string) : string :=
  match s with
  | String c s' => if is_space c then lstrip s' else s
  | EmptyString => s
  end.

(** the digits of [s] read in base ten, after [acc]; [None] when some
    character is not a digit *)
Fixpoint digits_value (acc : Z) (s : string) : option Z :=
  match s with
  | EmptyString => Some acc
  | String c s' =>
      if is_digit c then digits_value (10 * acc + digit_val c) s' else None
  end.

(** one or more digits, then only white space *)
Fixpoint digits_then_space (acc : Z) (seen : bool) (s : string) : option Z :=
  match s with
  | EmptyString => if seen then Some acc else None
  | String c s' =>
      if is_digit c then digits_then_space (10 * acc + digit_val c) true s'
      else if seen && is_space c && String.eqb (lstrip s') "" then Some acc
      else None
  end.

(** [int(s)] on a string: optional white space, an optional sign, decimal
    digits, optional white space *)
Definition int_of_string (s : string) : result Z :=
  let body := lstrip s in
  let '(neg, rest) :=
    match body with
    | String "-"%char r => (true, r)
    | String "+"%char r => (false, r)
    | _ => (false, body)
    end in
  match digits_then_space 0 false rest with
  | Some z => Ok (if neg then - z else z)
  | None => Raise ValueError
  end.

(** [int(v)] *)
Definition py_int (v : value) : result value :=
  match v with
  | VInt z => Ok (VInt z)
  | VFloat bits => z <- float_trunc 11 52 bits ;; Ok (VInt z)
  | VStr s => z <- int_of_string s ;; Ok (VInt z)
  | VArray F32 [x] => z <- float_trunc 8 23 x ;; Ok (VInt z)
  | VArray F64 [x] => z <- float_trunc 11 52 x ;; Ok (VInt z)
  | VNone | VList _ | VDict _ | VArray _ _ => Raise TypeError
  end.

(** [for x in v]: the items the loop visits.  A mapping gives its keys,
    a string its characters, an array its elements, each as an array
    scalar of the same type. *)
Definition py_iter (v : value) : result (list value) :=
  match v with
  | VList l => Ok l
  | VDict d => Ok (map (fun kv => VStr (fst kv)) d)
  | VStr s =>
      Ok (map (fun c => VStr (String c EmptyString)) (list_ascii_of_string s))
  | VArray dt elems => Ok (map (fun x => VArray dt [x]) elems)
  | VNone | VInt _ | VFloat _ => Raise TypeError
  end.

(** [info.update(v)] for a [v] that is no mapping: [v] is iterated and
    every item must be a sequence of two elements, a key and a value.  A
    list of two, a string of two characters and a mapping of two keys are
    such sequences.  Keys that are not strings have no place in the
    dictionaries modelled here and are refused. *)
Fixpoint update_pairs (info : dict) (l : list value) : result dict :=
  match l with
  | [] => Ok info
  | VList [VStr k; v] :: l' => update_pairs (dset k v info) l'
  | VStr (String a (String b EmptyString)) :: l' =>
      update_pairs
        (dset (String a EmptyString) (VStr (String b EmptyString)) info) l'
  | VDict [(k1, _); (k2, _)] :: l' => update_pairs (dset k1 (VStr k2) info) l'
  | VList [_; _] :: _ | VArray _ [_; _] :: _ => Raise TypeError
  | VNone :: _ | VInt _ :: _ | VFloat _ :: _ => Raise TypeError
  | _ :: _ => Raise ValueError
  end.

(** [info.update(v)]: a mapping is merged, a list or a string is read
    as a sequence of pairs; the elements of an array are no sequences *)
Definition py_update (info : dict) (v : value) : result dict :=
  match v with
  | VDict d => Ok (dupdate info d)
  | VList _ | VStr _ => items <- py_iter v ;; update_pairs info items
  | VArray _ [] => Ok info
  | VArray _ _ | VNone | VInt _ | VFloat _ => Raise TypeError
  end.

End Builtins.
Export Builtins.

(* ================================================================== *)
(** ** Bytes, base64 and numpy buffers *)
(* ================================================================== *)

Module Bytes.

Definition b2z (b : byte) : Z := Z.of_N (Byte.to_N b).

Definition z2b (z : Z) : byte :=
  match Byte.of_N (Z.to_N (z mod 256)) with
  | Some b => b
  | None => x00
  end.

Definition code (c : ascii) : Z := Z.of_N (N_of_ascii c).

(** [s.encode('ascii')]: characters above 127 cannot be encoded *)
Fixpoint encode_ascii (s : string) : result (list Z) :=
  match s with
  | EmptyString => Ok []
  | String c s' =>
      if code c <? 128 then (r <- encode_ascii s' ;; Ok (code c :: r))
      else Raise UnicodeEncodeError
  end.

Definition py_encode_ascii (v : value) : result (list Z) :=
  match v with
  | VStr s => encode_ascii s
  | _ => Raise AttributeError
  end.

End Bytes.
Export Bytes.

Module Base64.

Definition alphabet : string :=
  "ABCDEFGHIJKLMNOPQRSTUVWXYZabcdefghijklmnopqrstuvwxyz0123456789+/".

(** the character of a six-bit value *)
Definition b2a (n : Z) : ascii :=
  nth (Z.to_nat n) (list_ascii_of_string alphabet) "="%char.

(** the six-bit value of an alphabet character *)
Definition a2b (c : Z) : option Z :=
  if (65 <=? c) && (c <=? 90) then Some (c - 65)
  else if (97 <=? c) && (c <=? 122) then Some (c - 71)
  else if (48 <=? c) && (c <=? 57) then Some (c + 4)
  else if c =? 43 then Some 62
  else if c =? 47 then Some 63
  else None.

Definition pad : ascii := "="%char.

(** [base64.b64encode]: three bytes give four characters; one or two
    left-over bytes are padded with ["="]. *)
Fixpoint b64encode (bs : list byte) : string :=
  match bs with
  | [] => EmptyString
  | [a] =>
      String (b2a (Z.shiftr (b2z a) 2))
     (String (b2a (Z.shiftl (Z.land (b2z a) 3) 4))
     (String pad (String pad EmptyString)))
  | [a; b] =>
      String (b2a (Z.shiftr (b2z a) 2))
     (String (b2a (Z.lor (Z.shiftl (Z.land (b2z a) 3) 4) (Z.shiftr (b2z b) 4)))
     (String (b2a (Z.shiftl (Z.land (b2z b) 15) 2))
     (String pad EmptyString)))
  | a :: b :: c :: rest =>
      String (b2a (Z.shiftr (b2z a) 2))
     (String (b2a (Z.lor (Z.shiftl (Z.land (b2z a) 3) 4) (Z.shiftr (b2z b) 4)))
     (String (b2a (Z.lor (Z.shiftl (Z.land (b2z b) 15) 2) (Z.shiftr (b2z c) 6)))
     (String (b2a (Z.land (b2z c) 63))
     (b64encode rest))))
  end.

(** [binascii.a2b_base64] without strict mode, which is what
    [base64.b64decode] calls: characters outside the alphabet are skipped,
    a complete pad sequence ends the input, and input that stops inside a
    quad raises [binascii.Error].  [quad_pos] counts the characters of the
    current quad, [leftchar] holds the bits not yet written. *)
Fixpoint a2b_base64 (data : list Z) (quad_pos leftchar pads : Z)
    : result (list byte) :=
  match data with
  | [] => if quad_pos =? 0 then Ok [] else Raise BinasciiError
  | ch :: rest =>
      if ch =? 61 then
        if (2 <=? quad_pos) && (4 <=? quad_pos + (pads + 1)) then Ok []
        else a2b_base64 rest quad_pos leftchar
               (if 2 <=? quad_pos then pads + 1 else pads)
      else
        match a2b ch with
        | None => a2b_base64 rest quad_pos leftchar pads
        | Some v =>
            if quad_pos =? 0 then a2b_base64 rest 1 v 0
            else if quad_pos =? 1 then
              r <- a2b_base64 rest 2 (Z.land v 15) 0 ;;
              Ok (z2b (Z.lor (Z.shiftl leftchar 2) (Z.shiftr v 4)) :: r)
            else if quad_pos =? 2 then
              r <- a2b_base64 rest 3 (Z.land v 3) 0 ;;
              Ok (z2b (Z.lor (Z.shiftl leftchar 4) (Z.shiftr v 2)) :: r)
            else
              r <- a2b_base64 rest 0 0 0 ;;
              Ok (z2b (Z.lor (Z.shiftl leftchar 6) v) :: r)
        end
  end.

Definition b64decode (data : list Z) : result (list byte) :=
  a2b_base64 data 0 0 0.


(** the four six-bit values of three bytes *)
Definition sextet1 (a : Z) : Z := Z.shiftr a 2.
Definition sextet2 (a b : Z) : Z := Z.lor (Z.shiftl (Z.land a 3) 4) (Z.shiftr b 4).
Definition sextet3 (b c : Z) : Z := Z.lor (Z.shiftl (Z.land b 15) 2) (Z.shiftr c 6).
Definition sextet4 (c : Z) : Z := Z.land c 63.

(** the character codes of a text *)
Definition codes (s : string) : list Z := map code (list_ascii_of_string s).

(** every six-bit value is sent to a character of the alphabet that the
    decoder maps back to it, that is not the pad and that is ASCII *)
Definition alphabet_ok (n : Z) : bool :=
  match a2b (code (b2a n)) with
  | Some m => (m =? n) && negb (code (b2a n) =? 61) && (code (b2a n) <? 128)
  | None => false
  end.

End Base64.
Export Base64.

Module Numpy.

(** the byte order numpy's plain type codes stand for: the machine's *)
Inductive byteorder : Set := LittleEndian | BigEndian.

(** value of a byte string read least significant byte first *)
Fixpoint le_value (bs : list byte) : Z :=
  match bs with
  | [] => 0
  | b :: r => b2z b + 256 * le_value r
  end.

Definition word_value (order : byteorder) (bs : list byte) : Z :=
  match order with
  | LittleEndian => le_value bs
  | BigEndian => le_value (rev bs)
  end.

(** [n] bytes of [z], least significant first *)
Fixpoint le_bytes (n : nat) (z : Z) : list byte :=
  match n with
  | O => []
  | S n' => z2b z :: le_bytes n' (z / 256)
  end.

(** consecutive groups of [n] bytes *)
Fixpoint chunks (fuel n : nat) (bs : list byte) : list (list byte) :=
  match fuel, bs with
  | O, _ | _, [] => []
  | S fuel', _ => firstn n bs :: chunks fuel' n (skipn n bs)
  end.

(** [np.frombuffer(buf, dtype=dt)]: the buffer read as consecutive items
    of the type's width in the byte order [order]; a buffer whose size is
    not a multiple of the item size is refused. *)
Definition frombuffer (order : byteorder) (buf : list byte) (dt : dtype)
    : result value :=
  if (Nat.modulo (List.length buf) (itemsize dt) =? 0)%nat then
    Ok (VArray dt
          (map (word_value order) (chunks (List.length buf) (itemsize dt) buf)))
  else Raise ValueError.

(** [np.array([], dtype=dt)] *)
Definition empty_array (dt : dtype) : value := VArray dt [].

(** the little-endian byte image of an array, as a writer of mzML files
    produces it *)
Definition tobytes_le (dt : dtype) (elems : list Z) : list byte :=
  flat_map (le_bytes (itemsize dt)) elems.

End Numpy.
Export Numpy.

(* ================================================================== *)
(** ** The decoder *)
(* ================================================================== *)

(** What the interpreter and its libraries fix from outside the module:
    the byte order behind numpy's native type codes, and zlib. *)
Class Runtime : Type := {
  native_order : byteorder;
  zlib_decompress : list byte -> result (list byte)
}.

(** [_decode_base64_data_array(source, dtype, is_compressed)] *)
Definition _decode_base64_data_array {R : Runtime} (source : value)
    (dtype : dtype) (is_compressed : bool) : result value :=
  ascii_source <- py_encode_ascii source ;;
  decoded_source <- b64decode ascii_source ;;
  decoded_source <-
    (if is_compressed then zlib_decompress decoded_source
     else Ok decoded_source) ;;
  frombuffer native_order decoded_source dtype.

(* ================================================================== *)
(** ** The normaliser: [MzML._get_info_smart] after [_get_info] *)
(* ================================================================== *)

Module Normalizer.

(** [types = {'32-bit float': 'f', '64-bit float': 'd'}] *)
Definition types : list (string * dtype) :=
  [("32-bit float", F32); ("64-bit float", F64)].

(** [for t, code in types.items(): if t in info: dtype = code;
    del info[t]; break] -- [None] when the loop runs to its [else]. *)
Fixpoint type_from_keys (ts : list (string * dtype)) (info : dict)
    : option (dtype * dict) :=
  match ts with
  | [] => None
  | (t, code) :: ts' =>
      if dhas t info then Some (code, ddel t info)
      else type_from_keys ts' info
  end.

(** [for t, code in types.items(): if t in info['name']: dtype = code;
    info['name'].remove(t); break].  The local [dtype] stays unbound
    ([None]) when no tag is met. *)
Fixpoint type_from_name (ts : list (string * dtype)) (info : dict)
    (name : value) : result (option dtype * dict) :=
  match ts with
  | [] => Ok (None, info)
  | (t, code) :: ts' =>
      found <- py_contains t name ;;
      if found then
        name' <- py_remove t name ;;
        Ok (Some code, dset "name" name' info)
      else type_from_name ts' info name
  end.

Definition determine_dtype (info : dict) : result (option dtype * dict) :=
  match type_from_keys types info with
  | Some (code, info') => Ok (Some code, info')
  | None =>
      match dget "name" info with
      | Some name => type_from_name types info name
      | None => Ok (None, info)
      end
  end.

(** the [compressed = True ... else: compressed = False ...] block *)
Definition determine_compression (info : dict) : result (bool * dict) :=
  if dhas "zlib compression" info then
    Ok (true, ddel "zlib compression" info)
  else
    in_name <-
      match dget "name" info with
      | Some name => py_contains "zlib compression" name
      | None => Ok false
      end ;;
    if in_name then
      match dget "name" info with
      | Some name =>
          name' <- py_remove "zlib compression" name ;;
          Ok (true, dset "name" name' info)
      | None => Raise KeyError
      end
    else
      let info := ddel "no compression" info in
      info <-
        try_except
          match dget "name" info with
          | None => Raise KeyError
          | Some name =>
              name' <- py_remove "no compression" name ;;
              nonempty <- truthy name' ;;
              if negb nonempty then Ok (ddel "name" info)
              else Ok (dset "name" name' info)
          end
          [KeyError; TypeError]
          (Ok info) ;;
      Ok (false, info).

(** reading a local variable that may never have been assigned *)
Definition read_local {A : Type} (x : option A) : result A :=
  match x with
  | Some a => Ok a
  | None => Raise UnboundLocalError
  end.

(** [if b: array = _decode_base64_data_array(b, dtype, compressed)
    else: array = np.array([], dtype=dtype)] *)
Definition decode_binary {R : Runtime} (b : value) (dtype : option dtype)
    (compressed : bool) : result value :=
  nonempty <- truthy b ;;
  if nonempty then
    dt <- read_local dtype ;;
    _decode_base64_data_array b dt compressed
  else
    dt <- read_local dtype ;;
    Ok (empty_array dt).

(** [for k in info: if k.endswith(' array') and not info[k]: ... break]:
    the first key that ends in [" array"] and has a false value *)
Fixpoint array_key (items : dict) : result (option string) :=
  match items with
  | [] => Ok None
  | (k, v) :: rest =>
      if ends_with " array" k then
        nonempty <- truthy v ;;
        if negb nonempty then Ok (Some k) else array_key rest
      else array_key rest
  end.

(** [for val in knames: if val.endswith(' array'): ... break] *)
Fixpoint array_name (knames : list value) : result (option string) :=
  match knames with
  | [] => Ok None
  | val :: rest =>
      match val with
      | VStr s => if ends_with " array" s then Ok (Some s) else array_name rest
      | _ => Raise AttributeError
      end
  end.

(** where the decoded array goes: the [for k in info ... else ...] block *)
Definition place_array (info : dict) (array : value) : result dict :=
  k <- array_key info ;;
  match k with
  | Some k => Ok [(k, array)]
  | None =>
      match dget "name" info with
      | Some (VList knames) =>
          val <- array_name knames ;;
          match val with
          | Some val => Ok [(val, array)]
          | None => Ok (dset "binary" array info)
          end
      | _ => Ok (dset "binary" array info)
      end
  end.

(** the body of [if 'binary' in info:] *)
Definition decode_step {R : Runtime} (info : dict) : result dict :=
  '(dtype, info) <- determine_dtype info ;;
  '(compressed, info) <- determine_compression info ;;
  match dget "binary" info with
  | None => Raise KeyError
  | Some b =>
      let info := ddel "binary" info in
      array <- decode_binary b dtype compressed ;;
      place_array info array
  end.

Fixpoint update_all (info : dict) (arrays : list value) : result dict :=
  match arrays with
  | [] => Ok info
  | array :: rest => info' <- py_update info array ;; update_all info' rest
  end.

(** [if 'binaryDataArray' in info: for array in
    info.pop('binaryDataArray'): info.update(array)] *)
Definition flatten_arrays (info : dict) : result dict :=
  match dget "binaryDataArray" info with
  | Some arrays =>
      let info := ddel "binaryDataArray" info in
      items <- py_iter arrays ;;
      update_all info items
  | None => Ok info
  end.

Definition intkeys : list string := ["ms level"].

(** [for k in intkeys: if k in info: info[k] = int(info[k])] *)
Fixpoint coerce_ints (ks : list string) (info : dict) : result dict :=
  match ks with
  | [] => Ok info
  | k :: ks' =>
      match dget k info with
      | Some v => i <- py_int v ;; coerce_ints ks' (dset k i info)
      | None => coerce_ints ks' info
      end
  end.

(** [_get_info_smart] from the line [if 'binary' in info:] to its
    [return info]: the normaliser proper, on the mapping that
    [_get_info] produced. *)
Definition normalize {R : Runtime} (info : dict) : result dict :=
  info <- (if dhas "binary" info then decode_step info else Ok info) ;;
  info <- flatten_arrays info ;;
  coerce_ints intkeys info.

(** an exception class of Python itself or of its libraries *)
Definition builtin (e : exn) : bool :=
  match e with UserError _ => false | _ => true end.

(** an entry that the key loop stops at, and one that it walks past *)
Definition placeholder (kv : string * value) : Prop :=
  ends_with " array" (fst kv) = true /\ truthy (snd kv) = Ok false.

Definition passed (kv : string * value) : Prop :=
  ends_with " array" (fst kv) = false \/ truthy (snd kv) = Ok true.

(** an entry of the name list that the name loop walks past *)
Definition plain_name (v : value) : Prop :=
  exists s, v = VStr s /\ ends_with " array" s = false.

(** a mapping that names no element type, at the top or in its name list *)
Definition untyped (info : dict) : Prop :=
  dhas "32-bit float" info = false /\ dhas "64-bit float" info = false /\
  forall l, dget "name" info = Some (VList l) ->
    existsb (is_str "32-bit float") l = false /\
    existsb (is_str "64-bit float") l = false.

(** the names under which a type and a compression state are tagged *)
Definition type_tag (dt : dtype) : string :=
  match dt with F32 => "32-bit float" | F64 => "64-bit float" end.

Definition compression_tag (compressed : bool) : string :=
  if compressed then "zlib compression" else "no compression".

End Normalizer.
Export Normalizer.

(* ================================================================== *)
(** ** Files *)
(* ================================================================== *)

Module IO.

(** The two kinds of stream that [open] gives: [open(name)] is a text
    stream, which decodes what it reads, and the source of the reader is a
    binary one. *)
Inductive mode : Set := TextMode | BinaryMode.

(** A file object on a regular file: its name, the bytes it reads, the
    stream position in bytes, whether it has been closed, its kind, and
    what [open(name)] would find under the name now: the bytes of the file,
    or the error with which [open] refuses (a file that is gone or may not
    be read, a name that is no path). *)
Record file : Type := {
  name : string;
  data : string;
  pos : Z;
  closed : bool;
  opened_as : mode;
  on_disk : result string
}.

(** What [read_from_start] may be given: a path under which [open] finds
    a file, a file object, or a path that [open] refuses with an error. *)
Inductive source : Type :=
| Path (name : string) (data : string)
| FileObj (f : file)
| NoFile (name : string) (e : exn).

(** What a stream hands out: text from a text stream, bytes from a binary
    one. *)
Inductive chars : Type :=
| PyStr (s : string)
| PyBytes (s : string).

(** The calls made on file objects, in the order they happen. *)
Inductive op : Set :=
| Open (name : string)
| Seek (offset whence : Z)
| Read (n : Z)
| ReadLines
| Close.

(** Computations that may raise and that log their file operations. *)
Definition io (A : Type) : Type := list op -> result A * list op.

Definition ret {A : Type} (a : A) : io A := fun log => (Ok a, log).

Definition throw {A : Type} (e : exn) : io A := fun log => (Raise e, log).

Definition iobind {A B : Type} (m : io A) (k : A -> io B) : io B :=
  fun log =>
    match m log with
    | (Ok a, log') => k a log'
    | (Raise e, log') => (Raise e, log')
    end.

Definition emit (o : op) : io unit := fun log => (Ok tt, log ++ [o]).

Definition run {A : Type} (m : io A) : result A * list op := m [].

Definition size (f : file) : Z := Z.of_nat (String.length (data f)).

Definition with_pos (f : file) (p : Z) : file :=
  {| name := name f; data := data f; pos := p; closed := closed f;
     opened_as := opened_as f; on_disk := on_disk f |}.

(** What the operating system and the locale fix from outside.
    [IOError] stands for [OSError] and its subclasses, among them
    [io.UnsupportedOperation]. *)
Class Platform : Type := {
  (** the first offset that the file system refuses to seek to; an offset
      from [2^63] on does not fit the offset type *)
  seek_limit : Z;
  seek_limit_fits : 0 < seek_limit <= 2 ^ 63;
  (** the codec of the locale, with which a text stream decodes the bytes
      it reads: the text, or the error of the codec *)
  decode : string -> result string;
  (** [f.read(n)] on a text stream *)
  text_read : file -> Z -> result (string * file);
  (** [f.seek(cookie)] on a text stream with a number from [2^64] on, which
      the stream takes for a position together with a state of the decoder:
      the position at which the stream then stands, or the error; the
      documentation leaves the outcome open *)
  cookie_seek : file -> Z -> result Z
}.

End IO.
Export IO.

Declare Scope io_scope.
Delimit Scope io_scope with io.
Notation "x <- m ;; k" := (iobind m (fun x => k))
  (at level 61, m at next level, right associativity) : io_scope.
Notation "' p <- m ;; k" := (iobind m (fun p => k))
  (at level 61, p pattern, m at next level, right associativity) : io_scope.
Notation "m ;;; k" := (iobind m (fun _ => k))
  (at level 61, right associativity) : io_scope.

Module FileOps.

Definition lift {A : Type} (r : result A) : io A := fun log => (r, log).

(** the source of a reader opened on the file [nm]: a binary stream at the
    start of the bytes *)
Definition opened (nm bytes : string) : file :=
  {| name := nm; data := bytes; pos := 0; closed := false;
     opened_as := BinaryMode; on_disk := Ok bytes |}.

(** what [open(nm)] returns for a file of these bytes: a text stream *)
Definition opened_text (nm bytes : string) : file :=
  {| name := nm; data := bytes; pos := 0; closed := false;
     opened_as := TextMode; on_disk := Ok bytes |}.

Section OnPlatform.
Context {P : Platform}.

(** [f.seek(offset, whence)], [whence] being 0 (from the start) or 2
    (from the end), the two values that the module uses.  A closed file
    refuses every call (ValueError).  A text stream refuses a seek relative
    to the end unless the offset is 0, and a negative position; a binary
    stream refuses a number that does not fit the offset type (ValueError)
    and leaves a position before the start of the file to the operating
    system, which refuses it.  Either stream passes a position on to the
    file system, which refuses those from [seek_limit] on. *)
Definition seek_file (f : file) (offset whence : Z) : result file :=
  if closed f then Raise ValueError
  else
    match opened_as f with
    | TextMode =>
        if whence =? 2 then
          if offset =? 0 then Ok (with_pos f (size f)) else Raise IOError
        else if offset <? 0 then Raise ValueError
        else if offset <? seek_limit then Ok (with_pos f offset)
        else if offset <? 2 ^ 64 then Raise IOError
        else bind (cookie_seek f offset) (fun p => Ok (with_pos f p))
    | BinaryMode =>
        if (offset <? - 2 ^ 63) || (2 ^ 63 <=? offset) then Raise ValueError
        else
          let target := if whence =? 2 then size f + offset else offset in
          if (target <? 0) || (seek_limit <=? target) then Raise IOError
          else Ok (with_pos f target)
    end.

Fixpoint drop (n : nat) (s : string) : string :=
  match n, s with
  | O, _ => s
  | S n', String _ s' => drop n' s'
  | S _, EmptyString => EmptyString
  end.

Fixpoint take (n : nat) (s : string) : string :=
  match n, s with
  | S n', String c s' => String c (take n' s')
  | _, _ => EmptyString
  end.

(** the bytes from the stream position to the end of the file *)
Definition remaining (f : file) : string := drop (Z.to_nat (pos f)) (data f).

(** the stream once everything up to the end of the file has been read *)
Definition at_end (f : file) : file := with_pos f (Z.max (pos f) (size f)).

(** [f.read(n)] for [n] that is not negative: bytes from a binary stream,
    text from a text stream *)
Definition read_file (f : file) (n : Z) : result (chars * file) :=
  if closed f then Raise ValueError
  else
    match opened_as f with
    | BinaryMode =>
        Ok (PyBytes (take (Z.to_nat n) (remaining f)),
            with_pos f (Z.max (pos f) (Z.min (size f) (pos f + n))))
    | TextMode => '(text, f') <- text_read f n ;; Ok (PyStr text, f')
    end.

Definition newline : ascii := ascii_of_nat 10.

Definition carriage_return : ascii := ascii_of_nat 13.

(** the lines of a text, each with its line end *)
Fixpoint split_lines (s : string) : list string :=
  match s with
  | EmptyString => []
  | String c s' =>
      if Ascii.eqb c newline then String c EmptyString :: split_lines s'
      else
        match split_lines s' with
        | [] => [String c EmptyString]
        | l :: ls => String c l :: ls
        end
  end.

(** the line ends of a text stream: a carriage return, with the line feed
    that follows it if one does, is read as a line feed *)
Fixpoint universal (s : string) : string :=
  match s with
  | EmptyString => EmptyString
  | String c s' =>
      if Ascii.eqb c carriage_return then
        match s' with
        | String c' s'' =>
            if Ascii.eqb c' newline then String newline (universal s'')
            else String newline (universal s')
        | EmptyString => String newline EmptyString
        end
      else String c (universal s')
  end.

(** the lines that [for line in f] delivers, all of one type *)
Inductive lines : Type :=
| StrLines (l : list string)
| BytesLines (l : list string).

(** [for line in f] run to the end of the file.  A binary stream cuts its
    bytes at line feeds; a text stream decodes them first, and an error of
    the codec ends the loop with that error. *)
Definition lines_file (f : file) : result (lines * file) :=
  if closed f then Raise ValueError
  else
    match opened_as f with
    | BinaryMode => Ok (BytesLines (split_lines (remaining f)), at_end f)
    | TextMode =>
        text <- decode (remaining f) ;;
        Ok (StrLines (split_lines (universal text)), at_end f)
    end.

Definition close_file (f : file) : file :=
  {| name := name f; data := data f; pos := pos f; closed := true;
     opened_as := opened_as f; on_disk := on_disk f |}.

(** [open(name)], [found] being what is under the name *)
Definition open_file (nm : string) (found : result string) : io file :=
  (emit (Open nm) ;;;
   lift (bind found (fun bytes => Ok (opened_text nm bytes))))%io.

(** [f.seek(offset, whence)] *)
Definition seek (f : file) (offset whence : Z) : io file :=
  (emit (Seek offset whence) ;;; lift (seek_file f offset whence))%io.

(** [f.read(n)] *)
Definition read (f : file) (n : Z) : io (chars * file) :=
  (emit (Read n) ;;; lift (read_file f n))%io.

(** [for line in f]: every line from the stream position on *)
Definition readlines (f : file) : io (lines * file) :=
  (emit ReadLines ;;; lift (lines_file f))%io.

(** [f.close()] *)
Definition close (f : file) : io file :=
  (emit Close ;;; ret (close_file f))%io.

End OnPlatform.

End FileOps.
Export FileOps.

(* ================================================================== *)
(** ** The three patterns of the trailer, as matchers *)
(* ================================================================== *)

Module Patterns.

(** The patterns are text patterns, matched on text.  Among the
    characters modelled, [\d] is an ASCII digit; [\S] is anything but white
    space, which for a text pattern is the six ASCII white-space characters,
    the four separators 28 to 31, the next-line character 133 and the
    no-break space 160. *)

Definition re_space (c : ascii) : bool :=
  let n := nat_of_ascii c in
  (n =? 32)%nat || ((9 <=? n)%nat && (n <=? 13)%nat)
  || ((28 <=? n)%nat && (n <=? 31)%nat) || (n =? 133)%nat || (n =? 160)%nat.

(** [s] without the prefix [p], when [s] starts with [p] *)
Fixpoint strip_prefix (p s : string) : option string :=
  match p, s with
  | EmptyString, _ => Some s
  | String a p', String b s' =>
      if Ascii.eqb a b then strip_prefix p' s' else None
  | String _ _, EmptyString => None
  end.

(** the longest prefix of characters satisfying [ok], and what follows *)
Fixpoint span (ok : ascii -> bool) (s : string) : string * string :=
  match s with
  | EmptyString => (EmptyString, EmptyString)
  | String c s' =>
      if ok c then let '(run, rest) := span ok s' in (String c run, rest)
      else (EmptyString, s)
  end.

(** the decimal value of a string of digits: [int(...)] on a [\d+] group *)
Definition int_of_digits (ds : string) : Z :=
  match digits_value 0 ds with
  | Some z => z
  | None => 0
  end.

(** [<indexListOffset>(\d+)</indexListOffset>] at the start of [s]: the
    group as a number and the length of the match *)
Definition match_index_list_offset (s : string) : option (Z * nat) :=
  match strip_prefix "<indexListOffset>" s with
  | None => None
  | Some s1 =>
      let '(ds, s2) := span is_digit s1 in
      match ds, strip_prefix "</indexListOffset>" s2 with
      | String _ _, Some _ => Some (int_of_digits ds, (35 + String.length ds)%nat)
      | _, _ => None
      end
  end.

(** [re.findall] of that pattern: all matches from left to right, none
    overlapping another.  [skip] counts the characters still covered by
    the last match. *)
Fixpoint findall_from (skip : nat) (s : string) : list Z :=
  match s with
  | EmptyString => []
  | String _ s' =>
      match skip with
      | S k => findall_from k s'
      | O =>
          match match_index_list_offset s with
          | Some (z, len) => z :: findall_from (Nat.pred len) s'
          | None => findall_from O s'
          end
      end
  end.

Definition findall_index_list_offset (text : string) : list Z :=
  findall_from O text.

(** the longest non-empty prefix of [r] that is followed by [stop]: a
    greedy [+] group backtracking to the last place where the rest of the
    pattern fits *)
Fixpoint greedy_before (stop r : string) : option string :=
  match r with
  | EmptyString => None
  | String c r' =>
      match greedy_before stop r' with
      | Some p => Some (String c p)
      | None => if prefix stop r' then Some (String c EmptyString) else None
      end
  end.

(** the double quote character, and the two characters that close an
    attribute and its tag *)
Definition dquote : ascii := ascii_of_nat 34.

Definition quote_gt : string := String dquote ">".

(** the pattern [<index name=Q(\S+)Q>] at the start of [s], Q being the
    double quote *)
Definition match_index_name (s : string) : option string :=
  match strip_prefix (String.append "<index name=" (String dquote EmptyString)) s with
  | None => None
  | Some s1 =>
      let '(run, _) := span (fun c => negb (re_space c)) s1 in
      greedy_before quote_gt run
  end.

(** [name_pattern.search(line)]: the leftmost match *)
Fixpoint search_index_name (line : string) : option string :=
  match match_index_name line with
  | Some g => Some g
  | None =>
      match line with
      | EmptyString => None
      | String _ line' => search_index_name line'
      end
  end.

Definition not_quote (c : ascii) : bool := negb (Ascii.eqb c dquote).

(** the pattern [<offset idRef=Q([^Q]+)Q>(\d+)</offset>] at the start of
    [s] *)
Definition match_offset (s : string) : option (string * Z) :=
  match strip_prefix (String.append "<offset idRef=" (String dquote EmptyString)) s with
  | None => None
  | Some s1 =>
      let '(id_ref, s2) := span not_quote s1 in
      match id_ref, strip_prefix quote_gt s2 with
      | String _ _, Some s3 =>
          let '(ds, s4) := span is_digit s3 in
          match ds, strip_prefix "</offset>" s4 with
          | String _ _, Some _ => Some (id_ref, int_of_digits ds)
          | _, _ => None
          end
      | _, _ => None
      end
  end.

(** [offset_pattern.search(line)] *)
Fixpoint search_offset (line : string) : option (string * Z) :=
  match match_offset line with
  | Some g => Some g
  | None =>
      match line with
      | EmptyString => None
      | String _ line' => search_offset line'
      end
  end.

(** [end_pattern.search(line)] *)
Definition search_end (line : string) : bool := occurs_in "</index>" line.

End Patterns.
Export Patterns.

(* ================================================================== *)
(** ** The trailer index: [find_index_list_offset], [find_index_list] *)
(* ================================================================== *)

Module Trailer.

(** id to byte offset, and index name to such a table.  A block closed
    before any name was met is stored under [None]. *)
Definition offsets_t : Type := Dict.t string Z.
Definition index_t : Type := Dict.t (option string) offsets_t.

Definition name_eqb (a b : option string) : bool :=
  match a, b with
  | Some x, Some y => String.eqb x y
  | None, None => true
  | _, _ => false
  end.

(** the caller's [obj] once the file that [read_from_start] returned for
    it has become [f]: an open file object was returned itself, so it is
    [f]; otherwise [obj] is untouched *)
Definition alias (obj : source) (f : file) : source :=
  match obj with
  | FileObj f0 => if closed f0 then obj else FileObj f
  | Path _ _ | NoFile _ _ => obj
  end.

(** [re.findall(r"<indexListOffset>(\d+)</indexListOffset>", text)] with
    [int] mapped over the result: a text pattern refuses bytes *)
Definition re_findall_index_list_offset (text : chars) : result (list Z) :=
  match text with
  | PyStr s => Ok (findall_index_list_offset s)
  | PyBytes _ => Raise TypeError
  end.

(** the body of [for line in f:] run over all lines *)
Fixpoint scan_lines (lines : list string) (index_list : index_t)
    (index_offsets : offsets_t) (index_name : option string) : index_t :=
  match lines with
  | [] => index_list
  | line :: rest =>
      match search_index_name line with
      | Some nm => scan_lines rest index_list index_offsets (Some nm)
      | None =>
          match search_offset line with
          | Some (id_ref, offset) =>
              scan_lines rest index_list
                (Dict.set String.eqb id_ref offset index_offsets) index_name
          | None =>
              if search_end line then
                scan_lines rest
                  (Dict.set name_eqb index_name index_offsets index_list)
                  [] index_name
              else scan_lines rest index_list index_offsets index_name
          end
      end
  end.

(** the loop over the lines of a stream: the first search of the first
    line refuses bytes; a stream without a line left is never searched *)
Definition scan_stream (ls : lines) (index_list : index_t)
    : result index_t :=
  match ls with
  | StrLines l => Ok (scan_lines l index_list [] None)
  | BytesLines [] => Ok index_list
  | BytesLines (_ :: _) => Raise TypeError
  end.

Section OnPlatform.
Context {P : Platform}.

(** [read_from_start(obj)]: a closed file object is opened again by
    name, an open one is rewound and returned itself, a path is opened.
    What is opened here is a text stream, and [open] may refuse. *)
Definition read_from_start (obj : source) : io file :=
  match obj with
  | FileObj f =>
      (f' <- (if closed f then open_file (name f) (on_disk f) else ret f) ;;
       seek f' 0 0)%io
  | Path nm bytes => open_file nm (Ok bytes)
  | NoFile nm e => open_file nm (Raise e)
  end.

(** [find_index_list_offset(file_obj)], returning with the offsets the
    state in which it leaves [file_obj] *)
Definition find_index_list_offset (file_obj : source)
    : io (list Z * source) :=
  (f <- read_from_start file_obj ;;
   f <- seek f (-1024) 2 ;;
   '(text, f) <- read f 1024 ;;
   index_offsets <- lift (re_findall_index_list_offset text) ;;
   f <- close f ;;
   ret (index_offsets, alias file_obj f))%io.

(** [for offset in offsets:] of [find_index_list] *)
Fixpoint index_loop (file_obj : source) (offsets : list Z)
    (index_list : index_t) : io (index_t * source) :=
  match offsets with
  | [] => ret (index_list, file_obj)
  | offset :: rest =>
      if offset <? 1024 then index_loop file_obj rest index_list
      else
        (f <- read_from_start file_obj ;;
         f <- seek f offset 0 ;;
         '(lines, f) <- readlines f ;;
         index_list <- lift (scan_stream lines index_list) ;;
         index_loop (alias file_obj f) rest index_list)%io
  end.

(** [find_index_list(file_obj)] *)
Definition find_index_list (file_obj : source) : io (index_t * source) :=
  ('(offsets, file_obj) <- find_index_list_offset file_obj ;;
   index_loop file_obj offsets [])%io.

End OnPlatform.


(** a source that [read_from_start] has to open and that [open] accepts:
    a path with a file under it, or a closed file object whose name still
    leads to a file *)
Definition to_open (obj : source) : Prop :=
  match obj with
  | FileObj f => closed f = true /\ exists bytes, on_disk f = Ok bytes
  | Path _ _ => True
  | NoFile _ _ => False
  end.

(** the bytes that the stream returned for a source reads *)
Definition bytes_of (obj : source) : string :=
  match obj with
  | FileObj f =>
      if closed f then
        match on_disk f with Ok bytes => bytes | Raise _ => EmptyString end
      else data f
  | Path _ bytes => bytes
  | NoFile _ _ => EmptyString
  end.

(** the file operations of [read_from_start] on a source to open *)
Definition opening (obj : source) : list op :=
  match obj with
  | FileObj f => [Open (name f); Seek 0 0]
  | Path nm _ | NoFile nm _ => [Open nm]
  end.

(** one pass of the loop body over a text stream whose bytes, from the
    offset on, the codec gives back as they are *)
Definition visit (obj : source) (index_list : index_t) (o : Z) : index_t :=
  scan_lines (split_lines (universal (drop (Z.to_nat o) (bytes_of obj))))
    index_list [] None.

End Trailer.
Export Trailer.

(* ================================================================== *)
(** ** The indexed reader: [IndexedMzML] *)
(* ================================================================== *)

Module Reader.

(** the two kinds of event asked of [etree.iterparse] *)
Inductive event : Set := start | end_.

(** lxml and the helpers of [pyteomics.xml] that the module builds on
    and that are not part of it. *)
Class XMLBase : Type := {
  (** lxml elements *)
  Element : Type;
  (** [elem.attrib.get(key)] *)
  attrib_get : Element -> string -> option string;
  (** [xml._local_name(element)], also asked of [None] *)
  _local_name : option Element -> result string;
  (** [XML._get_info(element, recursive=...)] *)
  _get_info : option Element -> bool -> result dict;
  (** [etree.iterparse(source, events=('start', 'end'),
      remove_comments=True)] run on the bytes left in the stream: the
      events it delivers and, when the parser fails, the error that ends
      them *)
  iterparse : string -> list (event * Element) * option exn;
  (** [XML.__init__]: the file object kept in [_source] *)
  xml_init : source -> result file;
  (** [XML.reset()] *)
  reset : file -> result file
}.

(** The methods of the base class [XML] that [IndexedMzML] falls back
    on. *)
Class XMLInherited : Type := {
  (** [XML.get_by_id(elem_id)], the method [IndexedMzML] overrides *)
  super_get_by_id : file -> string -> result dict;
  (** [XML.iterfind(path)]: the records it yields and, when it fails, the
      error that ends them *)
  iterfind : file -> string -> list dict * option exn
}.

Section WithBase.
Context {X : XMLBase} {R : Runtime} {I : XMLInherited} {P : Platform}.

(** [MzML._get_info_smart(element, recursive=rec)] *)
Definition _get_info_smart (element : option Element) (rec : option bool)
    : result dict :=
  name <- _local_name element ;;
  info <-
    (if String.eqb name "indexedmzML" || String.eqb name "mzML" then
       _get_info element (match rec with Some r => r | None => false end)
     else
       _get_info element (match rec with Some r => r | None => true end)) ;;
  normalize info.

Record IndexedMzML : Type := {
  _source : file;
  _offset_index : option index_t
}.

(** [elem.attrib.get("id") == elem_id] *)
Definition has_id (elem : Element) (elem_id : string) : bool :=
  match attrib_get elem "id" with
  | Some i => String.eqb i elem_id
  | None => false
  end.

(** an event that does not end the scan for [elem_id] *)
Definition passes_by (elem_id : string) (ev : event * Element) : Prop :=
  match ev with
  | (start, _) => True
  | (end_, elem) => has_id elem elem_id = false
  end.

(** The loop of [_find_by_id_no_reset] over the events: the element whose
    end event carries the id, if one comes, and the elements on which
    [clear()] was called on the way.  Only elements that end before the
    first start event with the id are cleared, so none of them lies inside
    the element returned. *)
Fixpoint scan_events (events : list (event * Element)) (elem_id : string)
    (found : bool) : option Element * list Element :=
  match events with
  | [] => (None, [])
  | (start, elem) :: rest =>
      scan_events rest elem_id (found || has_id elem elem_id)
  | (end_, elem) :: rest =>
      if has_id elem elem_id then (Some elem, [])
      else
        let '(r, cleared) := scan_events rest elem_id found in
        (r, if found then cleared else elem :: cleared)
  end.

(** [_find_by_id_no_reset(elem_id)]: parse on from where the stream
    stands; [None] when the events run out *)
Definition _find_by_id_no_reset (src : file) (elem_id : string)
    : result (option Element) :=
  if closed src then Raise ValueError
  else
    let '(events, failure) := iterparse (remaining src) in
    match fst (scan_events events elem_id false), failure with
    | Some elem, _ => Ok (Some elem)
    | None, Some e => Raise e
    | None, None => Ok None
    end.

(** [d[k]] *)
Definition getitem {K V : Type} (keqb : K -> K -> bool) (d : Dict.t K V)
    (k : K) : result V :=
  match Dict.get keqb k d with
  | Some v => Ok v
  | None => Raise KeyError
  end.

(** [self._offset_index['spectrum']] *)
Definition spectrum_index (self : IndexedMzML) : result offsets_t :=
  match _offset_index self with
  | None => Raise TypeError
  | Some index_list => getitem name_eqb index_list (Some "spectrum")
  end.

(** the [try] block of [get_by_id] *)
Definition indexed_get_by_id (self : IndexedMzML) (elem_id : string)
    : result dict :=
  index <- spectrum_index self ;;
  offset <- getitem String.eqb index elem_id ;;
  src <- seek_file (_source self) offset 0 ;;
  elem <- _find_by_id_no_reset src elem_id ;;
  _get_info_smart elem (Some true).

(** [IndexedMzML.get_by_id(elem_id)] *)
Definition get_by_id (self : IndexedMzML) (elem_id : string) : result dict :=
  try_except (indexed_get_by_id self elem_id) [KeyError]
    (super_get_by_id (_source self) elem_id).

(** [IndexedMzML.__getitem__] *)
Definition __getitem__ (self : IndexedMzML) (elem_id : string)
    : result dict :=
  get_by_id self elem_id.

(** [sorted(index, key=lambda x: x[1])]: Python's sort is stable *)
Fixpoint insert_by_offset (x : string * Z) (l : list (string * Z))
    : list (string * Z) :=
  match l with
  | [] => [x]
  | y :: l' =>
      if snd x <=? snd y then x :: y :: l' else y :: insert_by_offset x l'
  end.

Definition sorted_by_offset (items : list (string * Z)) : list (string * Z) :=
  fold_right insert_by_offset [] items.

(** [for scan_id, offset in items: yield self.get_by_id(scan_id)]: what
    is yielded, and the exception that stops the loop if one is raised *)
Fixpoint yield_items (self : IndexedMzML) (items : list (string * Z))
    : list dict * option exn :=
  match items with
  | [] => ([], None)
  | (scan_id, _) :: rest =>
      match get_by_id self scan_id with
      | Ok d => let '(ds, e) := yield_items self rest in (d :: ds, e)
      | Raise e => ([], Some e)
      end
  end.

(** [IndexedMzML.__iter__]: the generator run to its end *)
Definition __iter__ (self : IndexedMzML) : list dict * option exn :=
  match spectrum_index self with
  | Ok index =>
      let items := sorted_by_offset index in
      match yield_items self items with
      | (ds, Some KeyError) =>
          let '(scans, e) := iterfind (_source self) "spectrum" in
          (ds ++ scans, e)
      | r => r
      end
  | Raise KeyError => iterfind (_source self) "spectrum"
  | Raise e => ([], Some e)
  end.



(** the records of a list of entries, when every lookup succeeds *)
Fixpoint lookups (self : IndexedMzML) (items : list (string * Z))
    : result (list dict) :=
  match items with
  | [] => Ok []
  | (scan_id, _) :: rest =>
      d <- get_by_id self scan_id ;;
      ds <- lookups self rest ;;
      Ok (d :: ds)
  end.

(** the file object behind a source after [find_index_list] *)
Definition file_of (obj : source) (default : file) : file :=
  match obj with
  | FileObj f => f
  | Path _ _ | NoFile _ _ => default
  end.

(** [IndexedMzML._build_index()] *)
Definition _build_index (self : IndexedMzML) : io IndexedMzML :=
  ('(index_list, obj) <- find_index_list (FileObj (_source self)) ;;
   ret {| _source := file_of obj (_source self);
          _offset_index := Some index_list |})%io.

(** [IndexedMzML.__init__(source)]: the base constructor, then
    [self._offset_index = None; self.reset(); self._build_index();
    self.reset()] *)
Definition __init__ (args : source) : io IndexedMzML :=
  (src <- lift (xml_init args) ;;
   src <- lift (reset src) ;;
   self <- _build_index {| _source := src; _offset_index := None |} ;;
   src <- lift (reset (_source self)) ;;
   ret {| _source := src; _offset_index := _offset_index self |})%io.

(** Modelled from the spec: [XML.get_by_id] is defined in
    [pyteomics/xml.py], which is not among the sources.  The docstring of
    [_find_by_id_no_reset] calls that method an almost exact copy of it
    that does reset the reader's position before parsing; the spec has the
    fallback return the normalised record, as the indexed path does, and
    report an id found nowhere as a [NotFound] lookup failure. *)
Definition linear_get_by_id (src : file) (elem_id : string) : result dict :=
  src <- reset src ;;
  elem <- _find_by_id_no_reset src elem_id ;;
  match elem with
  | Some _ => _get_info_smart elem (Some true)
  | None => Raise (UserError "NotFound")
  end.

End WithBase.

End Reader.
Export Reader.

(* ================================================================== *)
(** ** A runtime to compute with *)
(* ================================================================== *)

Module Stored.

(** zlib's checksum *)
Fixpoint adler32_from (a b : Z) (bs : list byte) : Z :=
  match bs with
  | [] => b * 65536 + a
  | x :: r =>
      let a' := (a + b2z x) mod 65521 in
      adler32_from a' ((b + a') mod 65521) r
  end.

Definition adler32 (bs : list byte) : Z := adler32_from 1 0 bs.

(** [n] bytes of [z], most significant first *)
Definition be_bytes (n : nat) (z : Z) : list byte := rev (le_bytes n z).

(** [zlib.compress(bs, 0)] for at most 65535 bytes: the two header bytes,
    one final stored block (its length and the complement of its length,
    then the bytes as they are) and the checksum *)
Definition compress0 (bs : list byte) : list byte :=
  let len := Z.of_nat (List.length bs) in
  [z2b 120; z2b 1; z2b 1]
  ++ le_bytes 2 len ++ le_bytes 2 (65535 - len)
  ++ bs ++ be_bytes 4 (adler32 bs).

(** the stored blocks of a deflate stream, up to the final one; what
    follows the final block is returned with the data *)
Fixpoint stored_blocks (fuel : nat) (bs : list byte)
    : result (list byte * list byte) :=
  match fuel, bs with
  | S fuel', hd :: l0 :: l1 :: n0 :: n1 :: rest =>
      let len := le_value [l0; l1] in
      if negb (Z.land (b2z hd) 6 =? 0) then Raise ZlibError
      else if negb (le_value [n0; n1] =? 65535 - len) then Raise ZlibError
      else if (List.length rest <? Z.to_nat len)%nat then Raise ZlibError
      else
        let block := firstn (Z.to_nat len) rest in
        let after := skipn (Z.to_nat len) rest in
        if Z.odd (b2z hd) then Ok (block, after)
        else
          '(more, tail) <- stored_blocks fuel' after ;;
          Ok (block ++ more, tail)
  | _, _ => Raise ZlibError
  end.

(** [zlib.decompress] restricted to streams made of stored blocks: the
    header is checked, the blocks are copied, the checksum is compared.
    A block that is not a stored one is refused.  An empty input is not a
    stream. *)
Definition decompress_stored (bs : list byte) : result (list byte) :=
  match bs with
  | cmf :: flg :: body =>
      if negb (Z.land (b2z cmf) 15 =? 8) then Raise ZlibError
      else if negb ((b2z cmf * 256 + b2z flg) mod 31 =? 0) then Raise ZlibError
      else if Z.testbit (b2z flg) 5 then Raise ZlibError
      else
        '(out, tail) <- stored_blocks (List.length body) body ;;
        if (List.length tail =? 4)%nat
           && (le_value (rev tail) =? adler32 out)
        then Ok out else Raise ZlibError
  | _ => Raise ZlibError
  end.

End Stored.

(** A little-endian machine whose zlib reads stored blocks. *)
Definition little_endian_host : Runtime :=
  {| native_order := LittleEndian;
     zlib_decompress := Stored.decompress_stored |}.

(** A big-endian machine with the same zlib. *)
Definition big_endian_host : Runtime :=
  {| native_order := BigEndian;
     zlib_decompress := Stored.decompress_stored |}.

(** A platform to compute with: a file system that takes every offset that
    fits the offset type, and the Latin-1 codec, under which every byte is
    the character of the same number.  A seek of a text stream to a number
    from [2^64] on, which nothing below makes, is refused here. *)
Definition latin1_platform : Platform :=
  {| seek_limit := 2 ^ 63;
     seek_limit_fits := ltac:(split; [reflexivity | discriminate]);
     decode := fun bytes => Ok bytes;
     text_read := fun f n =>
       Ok (take (Z.to_nat n) (remaining f),
           with_pos f (Z.max (pos f) (Z.min (size f) (pos f + n))));
     cookie_seek := fun _ _ => Raise IOError |}.

(* ================================================================== *)
(** ** A small XML reader to compute with *)
(* ================================================================== *)

(** The reader is run on concrete files below.  For that lxml and the
    base class are given a small instance: a tokenizer for tags with
    attributes, text, comments and declarations, an event builder that
    fails as an XML parser does (input that ends inside an element, a close
    tag that does not match, content after the root, an empty document), a
    flat conversion of an element to a mapping, and a reset that opens the
    file again. *)
Module MiniXML.

Inductive elem : Type :=
| Node (tag : string) (attrib : list (string * string)) (text : string)
       (children : list elem).

Definition tag_of (e : elem) : string := let 'Node t _ _ _ := e in t.
Definition attrib_of (e : elem) : list (string * string) :=
  let 'Node _ a _ _ := e in a.
Definition children_of (e : elem) : list elem := let 'Node _ _ _ c := e in c.

Inductive token : Type :=
| TOpen (tag : string) (attrs : list (string * string))
| TEmpty (tag : string) (attrs : list (string * string))
| TClose (tag : string)
| TText (s : string).

(** the text before the first occurrence of [stop], and the text after it *)
Fixpoint split_at (stop s : string) : option (string * string) :=
  match strip_prefix stop s with
  | Some rest => Some (EmptyString, rest)
  | None =>
      match s with
      | EmptyString => None
      | String c s' =>
          match split_at stop s' with
          | Some (a, b) => Some (String c a, b)
          | None => None
          end
      end
  end.

Definition eq_quote : string := String "="%char (String dquote EmptyString).
Definition one_quote : string := String dquote EmptyString.

(** [key=Qvalue Q ...] *)
Fixpoint parse_attrs (fuel : nat) (s : string) : option (list (string * string)) :=
  match fuel with
  | O => None
  | S fuel' =>
      match lstrip s with
      | EmptyString => Some []
      | body =>
          match split_at eq_quote body with
          | None => None
          | Some (k, rest) =>
              match split_at one_quote rest with
              | None => None
              | Some (v, rest') =>
                  match parse_attrs fuel' rest' with
                  | Some more => Some ((k, v) :: more)
                  | None => None
                  end
              end
          end
      end
  end.

Definition not_space (c : ascii) : bool := negb (is_space c).
Definition not_lt (c : ascii) : bool := negb (Ascii.eqb c "<"%char).

(** what stands between [<] and [>] *)
Definition parse_tag (body : string) : option token :=
  match body with
  | String "/"%char nm => Some (TClose (fst (span not_space nm)))
  | _ =>
      let empty := ends_with "/" body in
      let body := if empty then take (String.length body - 1) body else body in
      let '(nm, rest) := span not_space body in
      match parse_attrs (S (String.length rest)) rest with
      | Some attrs => Some (if empty then TEmpty nm attrs else TOpen nm attrs)
      | None => None
      end
  end.

(** the tokens of a text, and whether all of it could be read *)
Fixpoint lex (fuel : nat) (s : string) : list token * bool :=
  match fuel with
  | O => ([], true)
  | S fuel' =>
      match s with
      | EmptyString => ([], true)
      | String "<"%char s1 =>
          if prefix "?" s1 then
            match split_at "?>" s1 with
            | Some (_, rest) => lex fuel' rest
            | None => ([], false)
            end
          else if prefix "!--" s1 then
            match split_at "-->" s1 with
            | Some (_, rest) => lex fuel' rest
            | None => ([], false)
            end
          else
            match split_at ">" s1 with
            | None => ([], false)
            | Some (body, rest) =>
                match parse_tag body with
                | Some t => let '(ts, ok) := lex fuel' rest in (t :: ts, ok)
                | None => ([], false)
                end
            end
      | _ =>
          let '(text, rest) := span not_lt s in
          let '(ts, ok) := lex fuel' rest in (TText text :: ts, ok)
      end
  end.

(** an element still open: its tag, attributes, leading text and the
    children closed so far, last first *)
Record frame : Type := {
  ftag : string;
  fattrs : list (string * string);
  ftext : string;
  fkids : list elem
}.

Definition add_child (e : elem) (stack : list frame) : list frame :=
  match stack with
  | [] => []
  | f :: st =>
      {| ftag := ftag f; fattrs := fattrs f; ftext := ftext f;
         fkids := e :: fkids f |} :: st
  end.

Definition add_text (t : string) (stack : list frame) : list frame :=
  match stack with
  | [] => []
  | f :: st =>
      match fkids f with
      | [] => {| ftag := ftag f; fattrs := fattrs f;
                 ftext := String.append (ftext f) t; fkids := [] |} :: st
      | _ => stack
      end
  end.

(** the events of a token sequence.  [rooted] says that the root element
    has been opened. *)
Fixpoint build (toks : list token) (ok : bool) (stack : list frame)
    (rooted : bool) : list (event * elem) * option exn :=
  match toks with
  | [] =>
      match stack with
      | [] => ([], if ok && rooted then None else Some XMLSyntaxError)
      | _ => ([], Some XMLSyntaxError)
      end
  | TText t :: rest =>
      match stack with
      | [] =>
          if String.eqb (lstrip t) EmptyString then build rest ok stack rooted
          else ([], Some XMLSyntaxError)
      | _ => build rest ok (add_text t stack) rooted
      end
  | TOpen tg attrs :: rest =>
      match stack, rooted with
      | [], true => ([], Some XMLSyntaxError)
      | _, _ =>
          let f := {| ftag := tg; fattrs := attrs; ftext := EmptyString;
                      fkids := [] |} in
          let '(evs, err) := build rest ok (f :: stack) true in
          ((start, Node tg attrs EmptyString []) :: evs, err)
      end
  | TEmpty tg attrs :: rest =>
      match stack, rooted with
      | [], true => ([], Some XMLSyntaxError)
      | _, _ =>
          let e := Node tg attrs EmptyString [] in
          let '(evs, err) := build rest ok (add_child e stack) true in
          ((start, e) :: (end_, e) :: evs, err)
      end
  | TClose tg :: rest =>
      match stack with
      | [] => ([], Some XMLSyntaxError)
      | f :: st =>
          if String.eqb tg (ftag f) then
            let e := Node (ftag f) (fattrs f) (ftext f) (rev (fkids f)) in
            let '(evs, err) := build rest ok (add_child e st) rooted in
            ((end_, e) :: evs, err)
          else ([], Some XMLSyntaxError)
      end
  end.

Definition parse_events (s : string) : list (event * elem) * option exn :=
  let '(toks, ok) := lex (S (String.length s)) s in
  build toks ok [] false.

Fixpoint assoc (k : string) (l : list (string * string)) : option string :=
  match l with
  | [] => None
  | (k', v) :: l' => if String.eqb k k' then Some v else assoc k l'
  end.

(** one entry per [cvParam] child that has a name and a value *)
Fixpoint params (kids : list elem) : dict :=
  match kids with
  | [] => []
  | Node tg attrs _ _ :: rest =>
      match String.eqb tg "cvParam", assoc "name" attrs, assoc "value" attrs with
      | true, Some nm, Some v => dset nm (VStr v) (params rest)
      | _, _, _ => params rest
      end
  end.

(** the attributes of the element and, when [recursive], its valued
    [cvParam] children, as a flat mapping *)
Definition flat_info (e : option elem) (recursive : bool) : result dict :=
  match e with
  | None => Raise AttributeError
  | Some (Node _ attrs _ kids) =>
      Ok (map (fun kv => (fst kv, VStr (snd kv))) attrs
          ++ (if recursive then params kids else []))
  end.

Definition local_name (e : option elem) : result string :=
  match e with
  | None => Raise AttributeError
  | Some e => Ok (tag_of e)
  end.

Definition init (args : source) : result file :=
  match args with
  | Path nm bytes => Ok (opened nm bytes)
  | FileObj f => Ok f
  | NoFile _ e => Raise e
  end.

Definition reopen (f : file) : result file := Ok (opened (name f) (data f)).

Definition base : XMLBase :=
  {| Element := elem;
     attrib_get := fun e k => assoc k (attrib_of e);
     _local_name := local_name;
     _get_info := flat_info;
     iterparse := parse_events;
     xml_init := init;
     reset := reopen |}.

(** the records of the elements named [path], in document order, up to
    the first that cannot be converted or to the parser's failure *)
Fixpoint records {R : Runtime} (events : list (event * elem))
    (failure : option exn) (path : string) : list dict * option exn :=
  match events with
  | [] => ([], failure)
  | (start, _) :: rest => records rest failure path
  | (end_, e) :: rest =>
      if String.eqb (tag_of e) path then
        match @_get_info_smart base R (Some e) None with
        | Ok d => let '(ds, err) := records rest failure path in (d :: ds, err)
        | Raise x => ([], Some x)
        end
      else records rest failure path
  end.

Definition find_all {R : Runtime} (f : file) (path : string)
    : list dict * option exn :=
  let '(events, failure) := parse_events (data f) in
  records events failure path.

(** the base class scanning from the start of the file *)
Definition inherited {R : Runtime} : XMLInherited :=
  {| super_get_by_id := @linear_get_by_id base R;
     iterfind := find_all |}.

(** the same reader with a converter that misses an entry of its tables
    on every element, and a base class that answers every lookup with a
    mark of its own *)
Definition missing_entry : XMLBase :=
  {| Element := elem;
     attrib_get := fun e k => assoc k (attrib_of e);
     _local_name := local_name;
     _get_info := fun _ _ => Raise KeyError;
     iterparse := parse_events;
     xml_init := init;
     reset := reopen |}.

Definition marked : XMLInherited :=
  {| super_get_by_id := fun _ _ => Ok [("found by", VStr "linear scan")];
     iterfind := fun _ _ => ([], None) |}.

End MiniXML.

(* ================================================================== *)
(** ** Concrete files *)
(* ================================================================== *)

(** An indexed file of two spectra.  The spectrum with id scan=2 comes
    first in the document, the index lists scan=1 first, and a comment
    pushes the spectra beyond the first 1024 bytes. *)
Module Fixture.

(** single quotes in the texts below stand for double quotes *)
Definition q (s : string) : string :=
  string_of_list_ascii
    (map (fun c => if Ascii.eqb c "'"%char then dquote else c)
       (list_ascii_of_string s)).

Definition line (s : string) : string := String.append (q s) (String newline EmptyString).

Fixpoint spaces (n : nat) : string :=
  match n with O => EmptyString | S n' => String " "%char (spaces n') end.

Definition decimal (n : nat) : string := NilEmpty.string_of_uint (Nat.to_uint n).

Definition cat (parts : list string) : string := fold_right String.append EmptyString parts.

Definition head : string :=
  cat [line "<?xml version='1.0' encoding='utf-8'?>";
       line "<indexedmzML>";
       line "<mzML id='demo'>";
       "<!--"; spaces 1024; line "-->";
       line "<spectrumList count='2'>"].

Definition spectrum_a : string :=
  line "<spectrum index='0' id='scan=2'><cvParam name='ms level' value='1'/></spectrum>".

Definition spectrum_b : string :=
  line "<spectrum index='1' id='scan=1'><cvParam name='ms level' value='2'/></spectrum>".

Definition body : string :=
  cat [head; spectrum_a; spectrum_b; line "</spectrumList>"; line "</mzML>"].

Definition offset_a : nat := String.length head.
Definition offset_b : nat := (offset_a + String.length spectrum_a)%nat.
Definition offset_index : nat := String.length body.

(** the file whose index records [o1] for scan=1 and [o2] for scan=2 and
    whose trailer records [ol] for the index *)
Definition mzml (o1 o2 ol : nat) : string :=
  cat [body;
       line "<indexList count='1'>";
       line "<index name='spectrum'>";
       "<offset idRef="; MiniXML.one_quote; "scan=1"; MiniXML.one_quote; ">"; decimal o1; line "</offset>";
       "<offset idRef="; MiniXML.one_quote; "scan=2"; MiniXML.one_quote; ">"; decimal o2; line "</offset>";
       line "</index>";
       line "</indexList>";
       "<indexListOffset>"; decimal ol; line "</indexListOffset>";
       line "</indexedmzML>"].

(** the index as a writer would produce it *)
Definition good : string := mzml offset_b offset_a offset_index.

(** the same file with an offset for scan=1 that lies beyond its end *)
Definition stale : string := mzml 5000 offset_a offset_index.

(** the same file with the offset of the other spectrum for scan=1 *)
Definition crossed : string := mzml offset_a offset_a offset_index.

(** readers on the two files that hold the index the file lists, the
    element of scan=1 and the records of the two spectra *)
Definition spectrum_table : offsets_t := [("scan=1", 1207); ("scan=2", 1127)].

Definition reader_of (nm bytes : string) (table : offsets_t) : IndexedMzML :=
  {| _source := opened nm bytes;
     _offset_index := Some [(Some "spectrum", table)] |}.

Definition good_reader : IndexedMzML := reader_of "good.mzML" good spectrum_table.

Definition stale_reader : IndexedMzML :=
  reader_of "stale.mzML" stale [("scan=1", 5000); ("scan=2", 1127)].

Definition scan1 : @Element MiniXML.base :=
  MiniXML.Node "spectrum" [("index", "1"); ("id", "scan=1")] EmptyString
    [MiniXML.Node "cvParam" [("name", "ms level"); ("value", "2")]
       EmptyString []].

Definition record1 : dict :=
  [("index", VStr "1"); ("id", VStr "scan=1"); ("ms level", VInt 2)].

Definition record2 : dict :=
  [("index", VStr "0"); ("id", VStr "scan=2"); ("ms level", VInt 1)].

End Fixture.

(* ================================================================== *)
(** ** The index as writers lay it out *)
(* ================================================================== *)

(** The statements about the trailer index are made on index lists in the
    usual layout: one line for the opening tag of an index, one line for
    each offset, one line for the closing tag, each indented by blanks. *)
Module Layout.

(** every character of [s] satisfies [ok] *)
Fixpoint all_chars (ok : ascii -> bool) (s : string) : bool :=
  match s with
  | EmptyString => true
  | String c s' => ok c && all_chars ok s'
  end.

(** the number of double quotes in [s] *)
Fixpoint quotes (s : string) : nat :=
  match s with
  | EmptyString => O
  | String c s' => ((if Ascii.eqb c dquote then 1 else 0) + quotes s')%nat
  end.

Definition not_newline (c : ascii) : bool := negb (Ascii.eqb c newline).

Definition not_space (c : ascii) : bool := negb (re_space c).

(** a character of an id: anything but the quote and the line end *)
Definition id_char (c : ascii) : bool := not_quote c && not_newline c.

Definition nonempty (s : string) : bool :=
  match s with EmptyString => false | String _ _ => true end.

(** the name of an index: not empty, no white space *)
Definition index_name_ok (nm : string) : bool :=
  nonempty nm && all_chars not_space nm.

(** the id of an entry: not empty, neither quote nor line end *)
Definition id_ok (id : string) : bool :=
  nonempty id && all_chars id_char id.

Definition eol : string := String newline EmptyString.

Definition name_line (indent : nat) (nm : string) : string :=
  String.append (Fixture.spaces indent)
    (String.append (String.append "<index name=" (String dquote EmptyString))
       (String.append nm (String.append quote_gt eol))).

Definition offset_line (indent : nat) (entry : string * nat) : string :=
  String.append (Fixture.spaces indent)
    (String.append (String.append "<offset idRef=" (String dquote EmptyString))
       (String.append (fst entry)
          (String.append quote_gt
             (String.append (Fixture.decimal (snd entry))
                (String.append "</offset>" eol))))).

Definition end_line (indent : nat) : string :=
  String.append (Fixture.spaces indent) (String.append "</index>" eol).

(** an index: its name and its entries, ids with offsets *)
Definition block : Type := (string * list (string * nat))%type.

(** the lines of an index whose tags are indented by [indent] blanks and
    whose entries by [inner] *)
Definition index_block (indent inner : nat) (b : block) : list string :=
  name_line indent (fst b)
  :: map (offset_line inner) (snd b) ++ [end_line indent].

Definition index_lines (indent inner : nat) (blocks : list block)
    : list string :=
  flat_map (index_block indent inner) blocks.

(** no string occurs twice *)
Fixpoint distinct (l : list string) : bool :=
  match l with
  | [] => true
  | x :: r => negb (existsb (String.eqb x) r) && distinct r
  end.

Definition block_ok (b : block) : bool :=
  index_name_ok (fst b)
  && forallb (fun entry => id_ok (fst entry)) (snd b)
  && distinct (map fst (snd b)).

Definition blocks_ok (blocks : list block) : bool :=
  forallb block_ok blocks && distinct (map fst blocks).

(** the tables that the lines of an index list stand for *)
Definition table_of (entries : list (string * nat)) : offsets_t :=
  map (fun entry => (fst entry, Z.of_nat (snd entry))) entries.

Definition index_of (blocks : list block) : index_t :=
  map (fun b => (Some (fst b), table_of (snd b))) blocks.

(** a line that none of the three patterns matches *)
Definition inert (l : string) : bool :=
  match search_index_name l, search_offset l with
  | None, None => negb (search_end l)
  | _, _ => false
  end.

(** a line with its line end, and no line end before it *)
Fixpoint terminated (l : string) : bool :=
  match l with
  | EmptyString => false
  | String c EmptyString => Ascii.eqb c newline
  | String c l' => not_newline c && terminated l'
  end.

(** the opening of the two tags, up to the quote *)
Definition name_open : string :=
  String.append "<index name=" (String dquote EmptyString).

Definition offset_open : string :=
  String.append "<offset idRef=" (String dquote EmptyString).

(** what a line of an entry and the lines of an index add *)
Definition add_entry (acc : offsets_t) (entry : string * nat) : offsets_t :=
  Dict.set String.eqb (fst entry) (Z.of_nat (snd entry)) acc.

Definition add_block (acc : index_t) (b : block) : index_t :=
  Dict.set name_eqb (Some (fst b)) (table_of (snd b)) acc.

(** the index list of the files above *)
Definition spectrum_blocks : list block :=
  [("spectrum", [("scan=1", 1207%nat); ("scan=2", 1127%nat)])].

(** the calls that open a file, and those that close one *)
Definition is_open (o : op) : bool :=
  match o with Open _ => true | _ => false end.

Definition is_close (o : op) : bool :=
  match o with Close => true | _ => false end.

End Layout.

(** A little-endian machine on which zlib refuses every input. *)
Definition without_zlib : Runtime :=
  {| native_order := LittleEndian;
     zlib_decompress := fun _ => Raise ZlibError |}.

(* ================================================================== *)
(** * Facts *)
(* ================================================================== *)

(* ------------------------------------------------------------------ *)
(** ** Bytes and base64 *)
(* ------------------------------------------------------------------ *)

Module BytesFacts.

Lemma b2z_range (b : byte) : 0 <= b2z b < 256.
Proof.
  unfold b2z. pose proof (Byte.to_N_bounded b) as H.
  split; [apply N2Z.is_nonneg|]. 
  change 256 with (Z.of_N 256). apply N2Z.inj_lt. lia.
Qed.

Lemma z2b_b2z (b : byte) : z2b (b2z b) = b.
Proof.
  unfold z2b. pose proof (b2z_range b) as H.
  rewrite Z.mod_small by lia. unfold b2z. rewrite N2Z.id.
  now rewrite Byte.of_to_N.
Qed.

Lemma b2z_z2b (z : Z) : 0 <= z < 256 -> b2z (z2b z) = z.
Proof.
  intros H. unfold z2b. rewrite Z.mod_small by lia.
  destruct (Byte.of_N (Z.to_N z)) as [b|] eqn:E.
  - apply Byte.to_of_N in E. unfold b2z. rewrite E. lia.
  - exfalso. apply Byte.of_N_None_iff in E. lia.
Qed.

End BytesFacts.

Module Base64Facts.
Import BytesFacts.

Lemma land_shiftl_low (hi lo k : Z) :
  0 <= k -> 0 <= lo < 2 ^ k -> Z.land (hi * 2 ^ k) lo = 0.
Proof.
  intros Hk Hlo. apply Z.bits_inj'. intros n Hn.
  rewrite Z.land_spec, Z.bits_0.
  destruct (Z.lt_ge_cases n k) as [Hlt|Hge].
  - now rewrite Z.mul_pow2_bits_low by lia.
  - rewrite <- (Z.mod_small lo (2 ^ k)) by lia.
    rewrite (Z.mod_pow2_bits_high lo k n) by lia. apply andb_false_r.
Qed.

Lemma lor_shiftl (hi lo k : Z) :
  0 <= k -> 0 <= lo < 2 ^ k -> Z.lor (Z.shiftl hi k) lo = hi * 2 ^ k + lo.
Proof.
  intros Hk Hlo. rewrite Z.shiftl_mul_pow2 by lia.
  pose proof (land_shiftl_low hi Hk Hlo) as H0.
  rewrite <- Z.lxor_lor by exact H0.
  symmetry. now apply Z.add_nocarry_lxor.
Qed.

Lemma land_mask (x k : Z) : 0 <= k -> Z.land x (2 ^ k - 1) = x mod 2 ^ k.
Proof.
  intros Hk. rewrite <- Z.land_ones by lia. f_equal.
  rewrite Z.ones_equiv. lia.
Qed.

Lemma sextet1_eq a : sextet1 a = a / 4.
Proof. unfold sextet1. now rewrite Z.shiftr_div_pow2 by lia. Qed.

Lemma sextet2_eq a b : 0 <= b < 256 -> sextet2 a b = (a mod 4) * 16 + b / 16.
Proof.
  intros Hb. unfold sextet2. rewrite Z.shiftr_div_pow2 by lia.
  change 3 with (2 ^ 2 - 1). rewrite land_mask by lia.
  rewrite lor_shiftl; [reflexivity | lia |].
  change (2 ^ 4) with 16. 
  split; [apply Z.div_pos; lia | apply Z.div_lt_upper_bound; lia].
Qed.

Lemma sextet3_eq b c : 0 <= c < 256 -> sextet3 b c = (b mod 16) * 4 + c / 64.
Proof.
  intros Hc. unfold sextet3. rewrite Z.shiftr_div_pow2 by lia.
  change 15 with (2 ^ 4 - 1). rewrite land_mask by lia.
  rewrite lor_shiftl; [reflexivity | lia |].
  change (2 ^ 6) with 64. change (2 ^ 2) with 4.
  split; [apply Z.div_pos; lia | apply Z.div_lt_upper_bound; lia].
Qed.

Lemma sextet4_eq c : sextet4 c = c mod 64.
Proof. unfold sextet4. change 63 with (2 ^ 6 - 1). now rewrite land_mask by lia. Qed.

(** the bytes the decoder writes *)
Lemma join1 a b : 0 <= a < 256 -> 0 <= b < 256 ->
  Z.lor (Z.shiftl (sextet1 a) 2) (Z.shiftr (sextet2 a b) 4) = a.
Proof.
  intros Ha Hb. rewrite sextet1_eq, sextet2_eq by lia.
  rewrite Z.shiftr_div_pow2 by lia. change (2 ^ 4) with 16.
  assert (E : ((a mod 4) * 16 + b / 16) / 16 = a mod 4).
  { pose proof (Z.mod_pos_bound a 4). 
    assert (0 <= b / 16 < 16) by (split; [apply Z.div_pos; lia | apply Z.div_lt_upper_bound; lia]).
    symmetry. apply Z.div_unique with (r := b / 16); lia. }
  rewrite E. rewrite lor_shiftl; change (2 ^ 2) with 4.
  - pose proof (Z.div_mod a 4). lia.
  - lia.
  - apply Z.mod_pos_bound. lia.
Qed.

Ltac divmod := Z.div_mod_to_equations; lia.

Lemma join2 a b c : 0 <= a < 256 -> 0 <= b < 256 -> 0 <= c < 256 ->
  Z.lor (Z.shiftl (Z.land (sextet2 a b) 15) 4) (Z.shiftr (sextet3 b c) 2) = b.
Proof.
  intros Ha Hb Hc. rewrite sextet2_eq, sextet3_eq by lia.
  rewrite Z.shiftr_div_pow2 by lia. change 15 with (2 ^ 4 - 1).
  rewrite land_mask by lia. rewrite lor_shiftl by (try lia; divmod).
  change (2 ^ 4) with 16. change (2 ^ 2) with 4. divmod.
Qed.

Lemma join3 b c : 0 <= b < 256 -> 0 <= c < 256 ->
  Z.lor (Z.shiftl (Z.land (sextet3 b c) 3) 6) (sextet4 c) = c.
Proof.
  intros Hb Hc. rewrite sextet3_eq, sextet4_eq by lia.
  change 3 with (2 ^ 2 - 1).
  rewrite land_mask by lia. rewrite lor_shiftl by (try lia; divmod).
  change (2 ^ 6) with 64. change (2 ^ 2) with 4. divmod.
Qed.

Lemma sextet1_range a : 0 <= a < 256 -> 0 <= sextet1 a < 64.
Proof. intros. rewrite sextet1_eq. divmod. Qed.

Lemma sextet2_range a b : 0 <= b < 256 -> 0 <= sextet2 a b < 64.
Proof. intros. rewrite sextet2_eq by lia. divmod. Qed.

Lemma sextet3_range b c : 0 <= c < 256 -> 0 <= sextet3 b c < 64.
Proof. intros. rewrite sextet3_eq by lia. divmod. Qed.

Lemma sextet4_range c : 0 <= sextet4 c < 64.
Proof. rewrite sextet4_eq. divmod. Qed.

Lemma sextet2_last a : Z.shiftl (Z.land a 3) 4 = sextet2 a 0.
Proof. unfold sextet2. now rewrite Z.shiftr_0_l, Z.lor_0_r. Qed.

Lemma sextet3_last b : Z.shiftl (Z.land b 15) 2 = sextet3 b 0.
Proof. unfold sextet3. now rewrite Z.shiftr_0_l, Z.lor_0_r. Qed.

Lemma alphabet_ok_all n : 0 <= n < 64 -> alphabet_ok n = true.
Proof.
  intros H.
  assert (A : forallb alphabet_ok (map Z.of_nat (seq 0 64)) = true) by (vm_compute; reflexivity).
  rewrite forallb_forall in A. apply A.
  apply in_map_iff. exists (Z.to_nat n). split; [lia|].
  apply in_seq. lia.
Qed.

Lemma a2b_b2a n : 0 <= n < 64 -> a2b (code (b2a n)) = Some n.
Proof.
  intros H. pose proof (alphabet_ok_all H) as A. unfold alphabet_ok in A.
  destruct (a2b (code (b2a n))) as [m|]; [|discriminate].
  apply andb_prop in A as [A _]. apply andb_prop in A as [A _].
  apply Z.eqb_eq in A. now subst.
Qed.

Lemma b2a_not_pad n : 0 <= n < 64 -> (code (b2a n) =? 61) = false.
Proof.
  intros H. pose proof (alphabet_ok_all H) as A. unfold alphabet_ok in A.
  destruct (a2b (code (b2a n))) as [m|]; [|discriminate].
  apply andb_prop in A as [A _]. apply andb_prop in A as [_ A].
  now apply negb_true_iff in A.
Qed.

Lemma b2a_ascii n : 0 <= n < 64 -> (code (b2a n) <? 128) = true.
Proof.
  intros H. pose proof (alphabet_ok_all H) as A. unfold alphabet_ok in A.
  destruct (a2b (code (b2a n))) as [m|]; [|discriminate].
  now apply andb_prop in A as [_ A].
Qed.

Lemma decode_quad v1 v2 v3 v4 rest lc p :
  0 <= v1 < 64 -> 0 <= v2 < 64 -> 0 <= v3 < 64 -> 0 <= v4 < 64 ->
  a2b_base64 (code (b2a v1) :: code (b2a v2) :: code (b2a v3)
              :: code (b2a v4) :: rest) 0 lc p
  = (r <- a2b_base64 rest 0 0 0 ;;
     Ok (z2b (Z.lor (Z.shiftl v1 2) (Z.shiftr v2 4))
         :: z2b (Z.lor (Z.shiftl (Z.land v2 15) 4) (Z.shiftr v3 2))
         :: z2b (Z.lor (Z.shiftl (Z.land v3 3) 6) v4) :: r)).
Proof.
  intros H1 H2 H3 H4. cbn [a2b_base64].
  rewrite !b2a_not_pad, !a2b_b2a by assumption. cbn [Z.eqb].
  destruct (a2b_base64 rest 0 0 0); reflexivity.
Qed.

Lemma decode_pair_padded v1 v2 rest lc p :
  0 <= v1 < 64 -> 0 <= v2 < 64 ->
  a2b_base64 (code (b2a v1) :: code (b2a v2) :: 61 :: 61 :: rest) 0 lc p
  = Ok [z2b (Z.lor (Z.shiftl v1 2) (Z.shiftr v2 4))].
Proof.
  intros H1 H2. cbn [a2b_base64].
  rewrite !b2a_not_pad, !a2b_b2a by assumption. reflexivity.
Qed.

Lemma decode_triple_padded v1 v2 v3 rest lc p :
  0 <= v1 < 64 -> 0 <= v2 < 64 -> 0 <= v3 < 64 ->
  a2b_base64 (code (b2a v1) :: code (b2a v2) :: code (b2a v3) :: 61 :: rest)
    0 lc p
  = Ok [z2b (Z.lor (Z.shiftl v1 2) (Z.shiftr v2 4));
        z2b (Z.lor (Z.shiftl (Z.land v2 15) 4) (Z.shiftr v3 2))].
Proof.
  intros H1 H2 H3. cbn [a2b_base64].
  rewrite !b2a_not_pad, !a2b_b2a by assumption. reflexivity.
Qed.

(** lists three elements at a time *)
Lemma list_ind3 (A : Type) (P : list A -> Prop) :
  P [] -> (forall a, P [a]) -> (forall a b, P [a; b]) ->
  (forall a b c l, P l -> P (a :: b :: c :: l)) ->
  forall l, P l.
Proof.
  intros H0 H1 H2 H3.
  fix IH 1. intros [|a [|b [|c l]]].
  - exact H0.
  - apply H1.
  - apply H2.
  - apply H3, IH.
Qed.

Theorem b64decode_b64encode (bs : list byte) :
  b64decode (codes (b64encode bs)) = Ok bs.
Proof.
  unfold b64decode. induction bs as [|a|a b|a b c l IH] using list_ind3.
  - reflexivity.
  - pose proof (b2z_range a) as Ha. cbn [b64encode codes list_ascii_of_string map].
    rewrite sextet2_last. fold (sextet1 (b2z a)).
    change (code pad) with 61.
    rewrite decode_pair_padded by (apply sextet1_range || apply sextet2_range; lia).
    rewrite join1 by lia. now rewrite z2b_b2z.
  - pose proof (b2z_range a) as Ha. pose proof (b2z_range b) as Hb.
    cbn [b64encode codes list_ascii_of_string map].
    rewrite sextet3_last. fold (sextet1 (b2z a)). fold (sextet2 (b2z a) (b2z b)).
    change (code pad) with 61.
    rewrite decode_triple_padded
      by (apply sextet1_range || apply sextet2_range || apply sextet3_range; lia).
    rewrite join1 by lia. rewrite join2 with (c := 0) by lia.
    now rewrite !z2b_b2z.
  - pose proof (b2z_range a) as Ha. pose proof (b2z_range b) as Hb.
    pose proof (b2z_range c) as Hc.
    cbn [b64encode codes list_ascii_of_string map].
    fold (sextet1 (b2z a)). fold (sextet2 (b2z a) (b2z b)).
    fold (sextet3 (b2z b) (b2z c)). fold (sextet4 (b2z c)).
    rewrite decode_quad
      by (apply sextet1_range || apply sextet2_range || apply sextet3_range
          || apply sextet4_range; lia).
    fold (codes (b64encode l)). rewrite IH. cbn [bind].
    rewrite join1, join2, join3 by lia. now rewrite !z2b_b2z.
Qed.

Lemma encode_ascii_b64encode (bs : list byte) :
  encode_ascii (b64encode bs) = Ok (codes (b64encode bs)).
Proof.
  induction bs as [|a|a b|a b c l IH] using list_ind3.
  - reflexivity.
  - pose proof (b2z_range a) as Ha. cbn [b64encode encode_ascii].
    rewrite sextet2_last. fold (sextet1 (b2z a)).
    rewrite !b2a_ascii by (apply sextet1_range || apply sextet2_range; lia).
    reflexivity.
  - pose proof (b2z_range a) as Ha. pose proof (b2z_range b) as Hb.
    cbn [b64encode encode_ascii].
    rewrite sextet3_last. fold (sextet1 (b2z a)). fold (sextet2 (b2z a) (b2z b)).
    rewrite !b2a_ascii
      by (apply sextet1_range || apply sextet2_range || apply sextet3_range; lia).
    reflexivity.
  - pose proof (b2z_range a) as Ha. pose proof (b2z_range b) as Hb.
    pose proof (b2z_range c) as Hc.
    cbn [b64encode encode_ascii].
    fold (sextet1 (b2z a)). fold (sextet2 (b2z a) (b2z b)).
    fold (sextet3 (b2z b) (b2z c)). fold (sextet4 (b2z c)).
    rewrite !b2a_ascii
      by (apply sextet1_range || apply sextet2_range || apply sextet3_range
          || apply sextet4_range; lia).
    rewrite IH. reflexivity.
Qed.

End Base64Facts.

(* ------------------------------------------------------------------ *)
(** ** numpy buffers *)
(* ------------------------------------------------------------------ *)

Module NumpyFacts.
Import BytesFacts.

Lemma b2z_z2b_mod (z : Z) : b2z (z2b z) = z mod 256.
Proof.
  assert (E : z2b z = z2b (z mod 256)).
  { unfold z2b. now rewrite Z.mod_mod by lia. }
  rewrite E. apply b2z_z2b. apply Z.mod_pos_bound. lia.
Qed.

Lemma length_le_bytes (n : nat) (z : Z) : List.length (le_bytes n z) = n.
Proof. revert z. induction n as [|n IH]; intros z; cbn; [reflexivity | now rewrite IH]. Qed.

Lemma le_value_le_bytes (n : nat) (z : Z) :
  le_value (le_bytes n z) = z mod 256 ^ Z.of_nat n.
Proof.
  revert z. induction n as [|n IH]; intros z.
  - cbn. now rewrite Z.mod_1_r.
  - cbn [le_bytes le_value]. rewrite IH, b2z_z2b_mod.
    rewrite Nat2Z.inj_succ, Z.pow_succ_r by lia.
    rewrite Z.rem_mul_r by lia. reflexivity.
Qed.

Lemma le_value_le_bytes_small (n : nat) (z : Z) :
  0 <= z < 256 ^ Z.of_nat n -> le_value (le_bytes n z) = z.
Proof. intros H. rewrite le_value_le_bytes. now apply Z.mod_small. Qed.

Lemma firstn_le_bytes_app (n : nat) (z : Z) (rest : list byte) :
  firstn n (le_bytes n z ++ rest) = le_bytes n z.
Proof.
  rewrite firstn_app, length_le_bytes, Nat.sub_diag. cbn [firstn].
  rewrite app_nil_r. apply firstn_all2. now rewrite length_le_bytes.
Qed.

Lemma skipn_le_bytes_app (n : nat) (z : Z) (rest : list byte) :
  skipn n (le_bytes n z ++ rest) = rest.
Proof.
  rewrite skipn_app, length_le_bytes, Nat.sub_diag. cbn [skipn].
  rewrite skipn_all2 by now rewrite length_le_bytes. reflexivity.
Qed.

Lemma length_tobytes (n : nat) (elems : list Z) :
  List.length (flat_map (le_bytes n) elems) = (n * List.length elems)%nat.
Proof.
  induction elems as [|z l IH]; cbn [flat_map List.length]; [lia|].
  rewrite length_app, length_le_bytes, IH. lia.
Qed.

Lemma chunks_tobytes (n fuel : nat) (elems : list Z) :
  (0 < n)%nat -> (List.length elems <= fuel)%nat ->
  chunks fuel n (flat_map (le_bytes n) elems) = map (le_bytes n) elems.
Proof.
  intros Hn. revert fuel. induction elems as [|z l IH]; intros fuel Hf.
  - destruct fuel; reflexivity.
  - destruct fuel as [|fuel]; [cbn in Hf; lia|].
    cbn [flat_map map]. 
    destruct (le_bytes n z ++ flat_map (le_bytes n) l) as [|b t] eqn:E.
    + exfalso. apply (f_equal (@List.length byte)) in E.
      rewrite length_app, length_le_bytes in E. cbn in E. lia.
    + cbn [chunks]. rewrite <- E.
      rewrite firstn_le_bytes_app, skipn_le_bytes_app.
      f_equal. apply IH. cbn in Hf. lia.
Qed.

(** an array read back from its little-endian image *)
Lemma frombuffer_tobytes (dt : dtype) (elems : list Z) :
  Forall (fun z => 0 <= z < 256 ^ Z.of_nat (itemsize dt)) elems ->
  frombuffer LittleEndian (tobytes_le dt elems) dt = Ok (VArray dt elems).
Proof.
  intros Hall. unfold frombuffer, tobytes_le.
  assert (Hn : (0 < itemsize dt)%nat) by (destruct dt; cbn; lia).
  rewrite length_tobytes.
  rewrite Nat.mul_comm, Nat.Div0.mod_mul. cbn [Nat.eqb].
  rewrite chunks_tobytes; [| exact Hn | nia].
  f_equal. f_equal. rewrite map_map.
  induction Hall as [|z l Hz _ IH]; [reflexivity|].
  cbn [map]. rewrite IH. f_equal.
  cbn [word_value]. now apply le_value_le_bytes_small.
Qed.

End NumpyFacts.

(* ------------------------------------------------------------------ *)
(** ** The decoder *)
(* ------------------------------------------------------------------ *)

Module DecoderClaims.
Import BytesFacts Base64Facts NumpyFacts.

Lemma decode_encoded (R : Runtime) (buf : list byte) (dt : dtype) :
  _decode_base64_data_array (VStr (b64encode buf)) dt false
  = frombuffer native_order buf dt.
Proof.
  unfold _decode_base64_data_array. cbn [py_encode_ascii].
  rewrite encode_ascii_b64encode. cbn [bind].
  rewrite b64decode_b64encode. reflexivity.
Qed.

Lemma decode_encoded_compressed (R : Runtime) (z buf : list byte) (dt : dtype) :
  zlib_decompress z = Ok buf ->
  _decode_base64_data_array (VStr (b64encode z)) dt true
  = frombuffer native_order buf dt.
Proof.
  intros Hz. unfold _decode_base64_data_array. cbn [py_encode_ascii].
  rewrite encode_ascii_b64encode. cbn [bind].
  rewrite b64decode_b64encode. cbn [bind]. rewrite Hz. reflexivity.
Qed.

(** C4 (as amended).  On a machine whose native byte order is
    little-endian (numpy's type codes 'f' and 'd' are native), an array of 32-bit or 64-bit
    patterns, written as the little-endian bytes of its elements,
    compressed or not by a compressor that zlib inverts on these bytes, and
    base64-encoded, is decoded to the same array, bit for bit; and any
    buffer of whole items is read as consecutive little-endian items of the
    declared width. *)
Theorem decode_roundtrip (R : Runtime) (compress : list byte -> list byte)
    (dt : dtype) (elems : list Z) (compressed : bool) :
  native_order = LittleEndian ->
  Forall (fun z => 0 <= z < 256 ^ Z.of_nat (itemsize dt)) elems ->
  (compressed = true ->
   zlib_decompress (compress (tobytes_le dt elems)) = Ok (tobytes_le dt elems)) ->
  _decode_base64_data_array
    (VStr (b64encode (if compressed then compress (tobytes_le dt elems)
                      else tobytes_le dt elems)))
    dt compressed
  = Ok (VArray dt elems)
  /\ forall buf : list byte,
       Nat.modulo (List.length buf) (itemsize dt) = 0%nat ->
       _decode_base64_data_array (VStr (b64encode buf)) dt false
       = Ok (VArray dt (map le_value (chunks (List.length buf) (itemsize dt) buf))).
Proof.
  intros Hle Hrange Hz. split.
  - destruct compressed.
    + rewrite (decode_encoded_compressed R _ dt (Hz eq_refl)).
      rewrite Hle. now apply frombuffer_tobytes.
    + rewrite decode_encoded, Hle. now apply frombuffer_tobytes.
  - intros buf Hbuf. rewrite decode_encoded, Hle. unfold frombuffer.
    rewrite Hbuf. reflexivity.
Qed.

(** C4 at the array [1.0; 2.0] of 32-bit floats, compressed: the payload
    is the one that zlib at level 0 and base64 produce for it *)
Lemma decode_roundtrip_witness :
  @_decode_base64_data_array little_endian_host
    (VStr "eAEBCAD3/wAAgD8AAABABIMBAA==") F32 true
  = Ok (VArray F32 [1065353216; 1073741824]).
Proof.
  refine (proj1 (@decode_roundtrip little_endian_host Stored.compress0 F32
                   [1065353216; 1073741824] true eq_refl _ _)).
  - repeat constructor; cbn; lia.
  - intros _. vm_compute. reflexivity.
Defined.

(** C4, the claim as stated fails on a big-endian machine.  The payload
    is the base64 text of the little-endian bytes of the 32-bit float 1.0;
    there it decodes to another bit pattern, that of a number near 4.6e-41:
    the decoder follows the machine, not the file format. *)
Example big_endian_host_reads_other_values :
  @_decode_base64_data_array big_endian_host (VStr "AACAPw==") F32 false
  = Ok (VArray F32 [32831])
  /\ @_decode_base64_data_array little_endian_host (VStr "AACAPw==") F32 false
     = Ok (VArray F32 [1065353216]).
Proof. split; reflexivity. Qed.

End DecoderClaims.

(* ------------------------------------------------------------------ *)
(** ** Dictionaries *)
(* ------------------------------------------------------------------ *)

Module DictFacts.

Lemma dget_ddel_ne (k k' : string) (d : dict) :
  k <> k' -> dget k (ddel k' d) = dget k d.
Proof.
  intros Hne. unfold dget, ddel, Dict.del.
  induction d as [|[k0 v0] d IH]; [reflexivity|].
  cbn [filter fst Dict.get].
  destruct (String.eqb k' k0) eqn:E'; cbn [negb].
  - apply String.eqb_eq in E'. subst k0.
    apply String.eqb_neq in Hne. now rewrite Hne.
  - cbn [Dict.get]. now rewrite IH.
Qed.

Lemma dget_ddel_eq (k : string) (d : dict) : dget k (ddel k d) = None.
Proof.
  unfold dget, ddel, Dict.del.
  induction d as [|[k0 v0] d IH]; [reflexivity|].
  cbn [filter fst]. destruct (String.eqb k k0) eqn:E; cbn [negb]; [exact IH|].
  cbn [Dict.get]. now rewrite E.
Qed.

Lemma dget_dset_eq (k : string) (v : value) (d : dict) :
  dget k (dset k v d) = Some v.
Proof.
  unfold dget, dset.
  induction d as [|[k0 v0] d IH]; cbn [Dict.set Dict.get].
  - now rewrite String.eqb_refl.
  - destruct (String.eqb k k0) eqn:E; cbn [Dict.get].
    + now rewrite String.eqb_refl.
    + now rewrite E.
Qed.

Lemma dget_dset_ne (k k' : string) (v : value) (d : dict) :
  k <> k' -> dget k (dset k' v d) = dget k d.
Proof.
  intros Hne. unfold dget, dset. apply String.eqb_neq in Hne.
  induction d as [|[k0 v0] d IH]; cbn [Dict.set Dict.get].
  - now rewrite Hne.
  - destruct (String.eqb k' k0) eqn:E; cbn [Dict.get].
    + apply String.eqb_eq in E. subst k0. now rewrite Hne.
    + now rewrite IH.
Qed.

Lemma dhas_dget (k : string) (d : dict) :
  dhas k d = match dget k d with Some _ => true | None => false end.
Proof. reflexivity. Qed.

Lemma dhas_dset (k k' : string) (v : value) (d : dict) :
  dhas k d = true -> dhas k (dset k' v d) = true.
Proof.
  rewrite !dhas_dget. intros H.
  destruct (string_dec k k') as [->|Hne].
  - now rewrite dget_dset_eq.
  - now rewrite dget_dset_ne.
Qed.

Lemma dhas_dupdate (k : string) (d d2 : dict) :
  dhas k d = true -> dhas k (dupdate d d2) = true.
Proof.
  unfold dupdate, Dict.update. revert d.
  induction d2 as [|[k2 v2] d2 IH]; intros d H; cbn [fold_left]; [exact H|].
  apply IH. cbn [fst snd]. now apply (dhas_dset k k2 v2).
Qed.

Lemma dhas_ddel_ne (k k' : string) (d : dict) :
  k <> k' -> dhas k (ddel k' d) = dhas k d.
Proof. intros H. rewrite !dhas_dget. now rewrite dget_ddel_ne. Qed.

End DictFacts.

(* ------------------------------------------------------------------ *)
(** ** The normaliser *)
(* ------------------------------------------------------------------ *)

Module NormalizerFacts.
Import DictFacts.

Lemma array_key_stops (pre post : dict) (k : string) (v : value) :
  Forall passed pre -> placeholder (k, v) ->
  array_key (pre ++ (k, v) :: post) = Ok (Some k).
Proof.
  intros Hpre [Hk Hv]. cbn [fst snd] in Hk, Hv.
  induction Hpre as [|[k0 v0] pre [H0|H0] _ IH]; cbn [app array_key].
  - now rewrite Hk, Hv.
  - cbn [fst] in H0. now rewrite H0.
  - cbn [snd] in H0. rewrite H0. cbn [bind negb].
    destruct (ends_with " array" k0); exact IH.
Qed.

Lemma array_key_none (info : dict) :
  Forall passed info -> array_key info = Ok None.
Proof.
  intros H. induction H as [|[k0 v0] l [H0|H0] _ IH]; cbn [array_key].
  - reflexivity.
  - cbn [fst] in H0. now rewrite H0.
  - cbn [snd] in H0. rewrite H0. cbn [bind negb].
    destruct (ends_with " array" k0); exact IH.
Qed.

Lemma array_name_stops (pre post : list value) (s : string) :
  Forall plain_name pre -> ends_with " array" s = true ->
  array_name (pre ++ VStr s :: post) = Ok (Some s).
Proof.
  intros Hpre Hs.
  induction Hpre as [|v pre [s0 [-> H0]] _ IH]; cbn [app array_name].
  - now rewrite Hs.
  - now rewrite H0.
Qed.

Lemma array_name_none (knames : list value) :
  Forall plain_name knames -> array_name knames = Ok None.
Proof.
  intros H. induction H as [|v l [s0 [-> H0]] _ IH]; cbn [array_name].
  - reflexivity.
  - now rewrite H0.
Qed.

Lemma array_key_some (info : dict) (k : string) :
  array_key info = Ok (Some k) -> ends_with " array" k = true.
Proof.
  induction info as [|[k0 v0] l IH]; cbn [array_key]; [discriminate|].
  destruct (ends_with " array" k0) eqn:E; [|exact IH].
  destruct (truthy v0) as [[|]|]; cbn [bind negb]; [exact IH| |discriminate].
  intros [= <-]. exact E.
Qed.

Lemma array_name_some (knames : list value) (s : string) :
  array_name knames = Ok (Some s) -> ends_with " array" s = true.
Proof.
  induction knames as [|v l IH]; cbn [array_name]; [discriminate|].
  destruct v; try discriminate.
  destruct (ends_with " array" s0) eqn:E; [|exact IH].
  intros [= <-]. exact E.
Qed.

(** the two outcomes of [place_array] *)
Lemma place_array_cases (info out : dict) (array : value) :
  place_array info array = Ok out ->
  (exists k, out = [(k, array)] /\ ends_with " array" k = true)
  \/ out = dset "binary" array info.
Proof.
  unfold place_array.
  destruct (array_key info) as [[k|]|] eqn:Ek; cbn [bind]; [| |discriminate].
  - intros [= <-]. left. exists k. split; [reflexivity|].
    now apply array_key_some with (info := info).
  - destruct (dget "name" info) as [[| | | |knames| |]|];
      try (intros [= <-]; now right).
    destruct (array_name knames) as [[s|]|] eqn:En; cbn [bind];
      [| |discriminate].
    + intros [= <-]. left. exists s. split; [reflexivity|].
      now apply array_name_some with (knames := knames).
    + intros [= <-]. now right.
Qed.

Lemma array_key_is_no_tag (k : string) :
  ends_with " array" k = true ->
  k <> "binary" /\ k <> "binaryDataArray" /\ k <> "ms level".
Proof.
  intros H. repeat split; intros ->; vm_compute in H; discriminate.
Qed.

Lemma truthy_builtin (v : value) (e : exn) :
  truthy v = Raise e -> builtin e = true.
Proof.
  destruct v as [| | | | | |dt [|x [|y l]]]; cbn; try discriminate.
  now intros [= <-].
Qed.

Lemma py_contains_builtin (t : string) (c : value) (e : exn) :
  py_contains t c = Raise e -> builtin e = true.
Proof. destruct c; cbn; try discriminate; now intros [= <-]. Qed.

Lemma py_remove_builtin (t : string) (c : value) (e : exn) :
  py_remove t c = Raise e -> builtin e = true.
Proof.
  destruct c; cbn; try (now intros [= <-]).
  destruct (existsb (is_str t) l); [discriminate | now intros [= <-]].
Qed.

Lemma determine_compression_builtin (info : dict) (e : exn) :
  determine_compression info = Raise e -> builtin e = true.
Proof.
  unfold determine_compression.
  destruct (dhas "zlib compression" info); [discriminate|].
  destruct (dget "name" info) as [nm|] eqn:En.
  - destruct (py_contains "zlib compression" nm) as [[|]|e1] eqn:Ec; cbn [bind].
    + destruct (py_remove "zlib compression" nm) as [nm'|e2] eqn:Er; cbn [bind];
        [discriminate|].
      intros [= <-]. now apply py_remove_builtin in Er.
    + destruct (dget "name" (ddel "no compression" info)) as [nm2|];
        [|cbn; discriminate].
      destruct (py_remove "no compression" nm2) as [nm'|e2] eqn:Er; cbn [bind].
      * destruct (truthy nm') as [[|]|e3] eqn:Et; cbn; try discriminate.
        apply truthy_builtin in Et.
        destruct e3; cbn; try discriminate; now intros [= <-].
      * apply py_remove_builtin in Er.
        destruct e2; cbn; try discriminate; now intros [= <-].
    + intros [= <-]. now apply py_contains_builtin in Ec.
  - cbn [bind].
    destruct (dget "name" (ddel "no compression" info)) as [nm2|];
      [|cbn; discriminate].
    destruct (py_remove "no compression" nm2) as [nm'|e2] eqn:Er; cbn [bind].
    + destruct (truthy nm') as [[|]|e3] eqn:Et; cbn; try discriminate.
      apply truthy_builtin in Et.
      destruct e3; cbn; try discriminate; now intros [= <-].
    + apply py_remove_builtin in Er.
      destruct e2; cbn; try discriminate; now intros [= <-].
Qed.

Lemma determine_dtype_untyped (info : dict) :
  untyped info ->
  (exists e, determine_dtype info = Raise e /\ builtin e = true)
  \/ determine_dtype info = Ok (None, info).
Proof.
  intros (H32 & H64 & Hname). unfold determine_dtype.
  unfold types. cbn [type_from_keys]. rewrite H32, H64.
  destruct (dget "name" info) as [nm|] eqn:En; [|now right].
  cbn [type_from_name].
  destruct nm as [|s|z|b|l|d|dt xs]; cbn [py_contains bind].
  - left. exists TypeError. split; reflexivity.
  - destruct (occurs_in "32-bit float" s); cbn [py_remove bind].
    + left. exists AttributeError. split; reflexivity.
    + destruct (occurs_in "64-bit float" s); cbn [py_remove bind].
      * left. exists AttributeError. split; reflexivity.
      * now right.
  - left. exists TypeError. split; reflexivity.
  - left. exists TypeError. split; reflexivity.
  - destruct (Hname l eq_refl) as [-> ->]. now right.
  - destruct (Dict.has String.eqb "32-bit float" d); cbn [py_remove bind].
    + left. exists AttributeError. split; reflexivity.
    + destruct (Dict.has String.eqb "64-bit float" d); cbn [py_remove bind].
      * left. exists AttributeError. split; reflexivity.
      * now right.
  - now right.
Qed.

Lemma decode_step_unbound (R : Runtime) (info info1 : dict) :
  determine_dtype info = Ok (None, info1) ->
  exists e, decode_step info = Raise e /\ builtin e = true.
Proof.
  intros H. unfold decode_step. rewrite H. cbn [bind].
  destruct (determine_compression info1) as [[c info2]|e] eqn:Ec; cbn [bind].
  - destruct (dget "binary" info2) as [b|]; [|exists KeyError; split; reflexivity].
    unfold decode_binary.
    destruct (truthy b) as [[|]|e] eqn:Et; cbn [bind read_local].
    + exists UnboundLocalError. split; reflexivity.
    + exists UnboundLocalError. split; reflexivity.
    + exists e. split; [reflexivity|]. now apply truthy_builtin in Et.
  - exists e. split; [reflexivity|]. now apply determine_compression_builtin in Ec.
Qed.

Lemma update_pairs_has (k : string) (l : list value) (info out : dict) :
  dhas k info = true -> update_pairs info l = Ok out -> dhas k out = true.
Proof.
  revert info. induction l as [|v l IH]; intros info Hk; cbn [update_pairs].
  - now intros [= <-].
  - destruct v as [|[|a [|b [|? ?]]]| | |[|[| | | | | |] [|w [|? ?]]]
                   |[|[k1 ?] [|[k2 ?] [|? ?]]]|dt [|? [|? [|? ?]]]];
      try discriminate; apply IH; now apply dhas_dset.
Qed.

Lemma py_update_has (k : string) (v : value) (info out : dict) :
  dhas k info = true -> py_update info v = Ok out -> dhas k out = true.
Proof.
  intros Hk. destruct v as [|s| | |l|d|dt [|x xs]];
    cbn [py_update py_iter bind]; try discriminate.
  - now apply update_pairs_has.
  - now apply update_pairs_has.
  - intros [= <-]. now apply dhas_dupdate.
  - now intros [= <-].
Qed.

Lemma update_all_has (k : string) (items : list value) (info out : dict) :
  dhas k info = true -> update_all info items = Ok out -> dhas k out = true.
Proof.
  revert info. induction items as [|v l IH]; intros info Hk; cbn [update_all].
  - now intros [= <-].
  - destruct (py_update info v) as [info'|] eqn:E; cbn [bind]; [|discriminate].
    apply IH. now apply py_update_has with (v := v) (info := info).
Qed.

Lemma flatten_arrays_has (k : string) (info out : dict) :
  k <> "binaryDataArray" ->
  dhas k info = true -> flatten_arrays info = Ok out -> dhas k out = true.
Proof.
  intros Hne Hk. unfold flatten_arrays.
  destruct (dget "binaryDataArray" info) as [arrays|]; [|now intros [= <-]].
  destruct (py_iter arrays) as [items|]; cbn [bind]; [|discriminate].
  apply update_all_has. now rewrite dhas_ddel_ne.
Qed.

Lemma coerce_ints_has (k : string) (ks : list string) (info out : dict) :
  dhas k info = true -> coerce_ints ks info = Ok out -> dhas k out = true.
Proof.
  revert info. induction ks as [|k0 ks IH]; intros info Hk; cbn [coerce_ints].
  - now intros [= <-].
  - destruct (dget k0 info) as [v|]; [|now apply IH].
    destruct (py_int v) as [i|]; cbn [bind]; [|discriminate].
    apply IH. now apply dhas_dset.
Qed.

(** a single array entry is left alone by everything after the decoding *)
Lemma normalize_single_array (R : Runtime) (k : string) (array : value) :
  ends_with " array" k = true ->
  dhas "binary" [(k, array)] = false
  /\ flatten_arrays [(k, array)] = Ok [(k, array)]
  /\ coerce_ints intkeys [(k, array)] = Ok [(k, array)]
  /\ normalize [(k, array)] = Ok [(k, array)].
Proof.
  intros Hk. destruct (array_key_is_no_tag k Hk) as (H1 & H2 & H3).
  assert (E1 : String.eqb "binary" k = false)
    by (apply String.eqb_neq; congruence).
  assert (E2 : String.eqb "binaryDataArray" k = false)
    by (apply String.eqb_neq; congruence).
  assert (E3 : String.eqb "ms level" k = false)
    by (apply String.eqb_neq; congruence).
  assert (A : dhas "binary" [(k, array)] = false)
    by (unfold dhas, Dict.has; cbn [Dict.get]; now rewrite E1).
  assert (B : flatten_arrays [(k, array)] = Ok [(k, array)])
    by (unfold flatten_arrays, dget; cbn [Dict.get]; now rewrite E2).
  assert (C : coerce_ints intkeys [(k, array)] = Ok [(k, array)])
    by (unfold intkeys; cbn [coerce_ints]; unfold dget; cbn [Dict.get];
        now rewrite E3).
  repeat split; try assumption.
  unfold normalize. rewrite A. cbn [bind]. rewrite B. cbn [bind]. exact C.
Qed.

Lemma decode_step_places (R : Runtime) (info out : dict) :
  decode_step info = Ok out ->
  exists info' array, place_array info' array = Ok out.
Proof.
  unfold decode_step.
  destruct (determine_dtype info) as [[dt i1]|]; cbn [bind]; [|discriminate].
  destruct (determine_compression i1) as [[c i2]|]; cbn [bind]; [|discriminate].
  destruct (dget "binary" i2) as [b|]; [|discriminate].
  destruct (decode_binary b dt c) as [array|]; cbn [bind]; [|discriminate].
  intros H. now exists (ddel "binary" i2), array.
Qed.

End NormalizerFacts.

Module NormalizerClaims.
Import DictFacts NormalizerFacts.

(** C3 (as amended).  A mapping with a "binary" key that names no element
    type, neither as a key nor as an entry of its "name" list, is never
    normalised: the normaliser raises, and what it raises is an exception
    of Python or of its libraries, never one of a class of the module's
    own such as a SchemaError. *)
Theorem untyped_binary_raises (R : Runtime) (info : dict) :
  dhas "binary" info = true -> untyped info ->
  exists e, normalize info = Raise e /\ builtin e = true.
Proof.
  intros Hbin Hun. unfold normalize. rewrite Hbin.
  destruct (determine_dtype_untyped Hun) as [(e & He & Hb)|Hnone].
  - exists e. split; [|exact Hb].
    unfold decode_step. rewrite He. reflexivity.
  - destruct (decode_step_unbound R info Hnone) as (e & He & Hb).
    exists e. split; [|exact Hb]. rewrite He. reflexivity.
Qed.

(** C3, the amended statement at a mapping with a payload, a name list
    and no type *)
Lemma untyped_binary_raises_witness :
  exists e,
    @normalize little_endian_host
      [("binary", VStr "AACAPw=="); ("name", VList [VStr "m/z array"])]
    = Raise e /\ builtin e = true.
Proof.
  apply (@untyped_binary_raises little_endian_host).
  - reflexivity.
  - split; [reflexivity | split; [reflexivity|]].
    intros names [= <-]. split; reflexivity.
Defined.

(** C3, the claim as stated fails: the mapping below has a payload and
    no type tag, and the normaliser raises UnboundLocalError for the local
    [dtype] that was never assigned, not a SchemaError. *)
Lemma untyped_binary_not_schema_error :
  let info := [("binary", VStr "AACAPw=="); ("no compression", VStr "");
               ("m/z array", VStr "")] in
  dhas "binary" info = true
  /\ dhas "32-bit float" info = false /\ dhas "64-bit float" info = false
  /\ dget "name" info = None
  /\ @normalize little_endian_host info = Raise UnboundLocalError
  /\ @normalize little_endian_host info <> Raise (UserError "SchemaError").
Proof. cbv zeta. repeat split; try reflexivity. discriminate. Qed.

(** C5 (as amended).  When a mapping with a "binary" key has been
    normalised, either the result is the single entry of a key ending in
    " array" -- then it has no "binary" key and a second application
    returns it unchanged -- or the array went to the last-resort key and
    the result still has a "binary" key. *)
Theorem renormalize_noop_or_binary (R : Runtime) (info out : dict) :
  dhas "binary" info = true -> normalize info = Ok out ->
  (exists k array,
      out = [(k, array)] /\ ends_with " array" k = true
      /\ dhas "binary" out = false /\ normalize out = Ok out)
  \/ dhas "binary" out = true.
Proof.
  intros Hbin. unfold normalize at 1. rewrite Hbin.
  destruct (decode_step info) as [mid|] eqn:Ed; cbn [bind]; [|discriminate].
  destruct (decode_step_places R info Ed) as (info' & array & Hp).
  destruct (place_array_cases info' array Hp) as [(k & Hout & Hk)|Hout];
    subst mid.
  - destruct (normalize_single_array R k array Hk) as (A & B & C & D).
    rewrite B. cbn [bind]. rewrite C. intros [= <-]. left.
    exists k, array. repeat split; assumption.
  - destruct (flatten_arrays (dset "binary" array info')) as [m2|] eqn:Ef;
      cbn [bind]; [|discriminate].
    intros Hc. right.
    apply coerce_ints_has with (ks := intkeys) (info := m2); [|exact Hc].
    apply flatten_arrays_has with (info := dset "binary" array info');
      [discriminate | | exact Ef].
    unfold dhas, Dict.has. fold (dget "binary" (dset "binary" array info')).
    now rewrite dget_dset_eq.
Qed.

(** C5, the amended statement at a mapping with an empty "m/z array"
    key: the result is that single entry and normalising it again changes
    nothing *)
Lemma renormalize_noop_or_binary_witness :
  (exists k array,
      [("m/z array", VArray F32 [1065353216])] = [(k, array)]
      /\ ends_with " array" k = true
      /\ dhas "binary" [("m/z array", VArray F32 [1065353216])] = false
      /\ @normalize little_endian_host [("m/z array", VArray F32 [1065353216])]
         = Ok [("m/z array", VArray F32 [1065353216])])
  \/ dhas "binary" [("m/z array", VArray F32 [1065353216])] = true.
Proof.
  apply (@renormalize_noop_or_binary little_endian_host
           [("binary", VStr "AACAPw=="); ("32-bit float", VStr "");
            ("no compression", VStr ""); ("m/z array", VStr "")]).
  - reflexivity.
  - reflexivity.
Defined.

(** C5, the claim as stated fails on the last-resort path: the mapping
    below is normalised to one that has a "binary" key, and the second
    application is no no-op, it raises. *)
Lemma fallback_keeps_binary :
  let info := [("binary", VStr ""); ("32-bit float", VStr "")] in
  let out := [("binary", VArray F32 [])] in
  @normalize little_endian_host info = Ok out
  /\ dhas "binary" out = true
  /\ @normalize little_endian_host out = Raise UnboundLocalError.
Proof. cbv zeta. repeat split; reflexivity. Qed.

(** C6 (as amended).  Where the decoded array goes.  If some key of the
    mapping ends in " array" and has a false value, the mapping becomes the
    single entry of the first such key in iteration order, however many
    there are.  Otherwise, if "name" is a list with an entry ending in
    " array", it becomes the single entry of the first such name.
    Otherwise the array is stored in the mapping under "binary". *)
Theorem place_array_spec (info : dict) (array : value) :
  (forall pre k v post,
      info = pre ++ (k, v) :: post -> Forall passed pre -> placeholder (k, v) ->
      place_array info array = Ok [(k, array)])
  /\ (forall knames pre s post,
      Forall passed info -> dget "name" info = Some (VList knames) ->
      knames = pre ++ VStr s :: post -> Forall plain_name pre ->
      ends_with " array" s = true ->
      place_array info array = Ok [(s, array)])
  /\ (Forall passed info ->
      (forall knames, dget "name" info = Some (VList knames) ->
                      Forall plain_name knames) ->
      place_array info array = Ok (dset "binary" array info)).
Proof.
  repeat split.
  - intros pre k v post -> Hpre Hkv. unfold place_array.
    rewrite array_key_stops by assumption. reflexivity.
  - intros knames pre s post Hall Hn -> Hpre Hs. unfold place_array.
    rewrite array_key_none by assumption. cbn [bind]. rewrite Hn.
    rewrite array_name_stops by assumption. reflexivity.
  - intros Hall Hn. unfold place_array.
    rewrite array_key_none by assumption. cbn [bind].
    destruct (dget "name" info) as [[| | | |knames| |]|]; try reflexivity.
    rewrite array_name_none by (now apply Hn). reflexivity.
Qed.

(** the three ways of placing an array, on mappings as they are at that
    point *)
Example placement_examples :
  place_array [("encodedLength", VStr "8"); ("m/z array", VStr "")]
    (VArray F32 [1]) = Ok [("m/z array", VArray F32 [1])]
  /\ place_array [("encodedLength", VStr "8");
                  ("name", VList [VStr "intensity array"])]
       (VArray F32 [1]) = Ok [("intensity array", VArray F32 [1])]
  /\ place_array [("encodedLength", VStr "8")] (VArray F32 [1])
     = Ok [("encodedLength", VStr "8"); ("binary", VArray F32 [1])].
Proof. repeat split. Qed.

(** C6, the claim as stated fails: the mapping below has two keys that
    end in " array" with empty values, so not exactly one, and a name list
    with an entry ending in " array"; the result is the entry of the first
    key, not of the name. *)
Lemma two_placeholders_first_wins :
  let info := [("binary", VStr ""); ("32-bit float", VStr "");
               ("m/z array", VStr ""); ("intensity array", VStr "");
               ("name", VList [VStr "no compression"; VStr "time array"])] in
  @normalize little_endian_host info = Ok [("m/z array", VArray F32 [])]
  /\ @normalize little_endian_host info <> Ok [("time array", VArray F32 [])].
Proof. cbv zeta. split; [reflexivity | discriminate]. Qed.

(** C9.  For each of the two element types and either compression state,
    an empty payload decodes to the empty array of that type without an
    error, whatever zlib would do: in the decoding step of the normaliser,
    and so in the normalisation of a binary data array with all its tags. *)
Theorem empty_payload_decodes (R : Runtime) (dt : dtype) (compressed : bool) :
  decode_binary (VStr "") (Some dt) compressed = Ok (VArray dt [])
  /\ normalize [("binary", VStr ""); (type_tag dt, VStr "");
                (compression_tag compressed, VStr ""); ("m/z array", VStr "")]
     = Ok [("m/z array", VArray dt [])].
Proof. destruct dt, compressed; split; reflexivity. Qed.

End NormalizerClaims.

(* ------------------------------------------------------------------ *)
(** ** The trailer index *)
(* ------------------------------------------------------------------ *)

Module TrailerFacts.

Section OnPlatform.
Context {P : Platform}.

Lemma seek_limit_positive : 0 < seek_limit.
Proof. apply seek_limit_fits. Qed.

(** a seek to the start of an open stream is never refused *)
Lemma seek_file_start (f : file) :
  closed f = false -> seek_file f 0 0 = Ok (with_pos f 0).
Proof.
  intros Hc. unfold seek_file. rewrite Hc.
  pose proof seek_limit_positive as Hl.
  destruct (opened_as f).
  - replace (0 =? 2) with false by reflexivity.
    replace (0 <? 0) with false by reflexivity.
    now replace (0 <? seek_limit) with true by (symmetry; apply Z.ltb_lt; lia).
  - replace ((0 <? - 2 ^ 63) || (2 ^ 63 <=? 0)) with false by reflexivity.
    replace (0 =? 2) with false by reflexivity. cbv zeta.
    replace (0 <? 0) with false by reflexivity.
    now replace (seek_limit <=? 0) with false by (symmetry; apply Z.leb_gt; lia).
Qed.

(** a seek on a text stream to a position that the file system takes *)
Lemma seek_file_text (f : file) (o : Z) :
  closed f = false -> opened_as f = TextMode -> 0 <= o < seek_limit ->
  seek_file f o 0 = Ok (with_pos f o).
Proof.
  intros Hc Hm Ho. unfold seek_file. rewrite Hc, Hm.
  replace (0 =? 2) with false by reflexivity.
  replace (o <? 0) with false by (symmetry; apply Z.ltb_ge; lia).
  now replace (o <? seek_limit) with true by (symmetry; apply Z.ltb_lt; lia).
Qed.

Lemma read_from_start_to_open (obj : source) (log : list op) :
  to_open obj ->
  exists f, read_from_start obj log = (Ok f, log ++ opening obj)
            /\ closed f = false /\ opened_as f = TextMode
            /\ data f = bytes_of obj /\ pos f = 0
            /\ forall f', alias obj f' = obj.
Proof.
  destruct obj as [nm bytes|f0|nm e]; cbn [to_open]; intros H.
  - exists (opened_text nm bytes). repeat split.
  - destruct H as (Hc & bytes & Hd).
    exists (with_pos (opened_text (name f0) bytes) 0).
    unfold read_from_start, alias, bytes_of. rewrite Hc, Hd.
    unfold open_file, seek, iobind, emit, ret, lift. cbn [bind].
    rewrite seek_file_start by reflexivity.
    rewrite <- app_assoc. repeat split.
  - destruct H.
Qed.



(** a visit of a text stream: the offset is one that the file system
    takes, and the codec gives the bytes from there on back as they are *)
Lemma visit_step (obj : source) (o : Z) (rest : list Z) (index_list : index_t)
    (log : list op) :
  to_open obj -> 1024 <= o < seek_limit ->
  decode (drop (Z.to_nat o) (bytes_of obj))
  = Ok (drop (Z.to_nat o) (bytes_of obj)) ->
  index_loop obj (o :: rest) index_list log
  = index_loop obj rest (visit obj index_list o)
      (log ++ opening obj ++ [Seek o 0; ReadLines]).
Proof.
  intros Hobj Ho Hdec. cbn [index_loop].
  replace (o <? 1024) with false by (symmetry; apply Z.ltb_ge; lia).
  destruct (@read_from_start_to_open obj log Hobj)
    as (f & Hf & Hc & Hm & Hd & Hp & Hal).
  unfold iobind at 1. rewrite Hf.
  unfold seek, readlines, lines_file, iobind, emit, lift.
  rewrite seek_file_text by (try assumption; lia).
  cbn [closed opened_as with_pos]. rewrite Hc, Hm.
  unfold remaining. cbn [pos data with_pos]. rewrite Hd, Hdec. cbn [bind].
  cbn [scan_stream]. rewrite Hal. unfold visit.
  rewrite <- !app_assoc. reflexivity.
Qed.



(** a seek that succeeds leaves an open stream *)
Lemma seek_file_open (f f' : file) (offset whence : Z) :
  seek_file f offset whence = Ok f' -> closed f' = false.
Proof.
  unfold seek_file. destruct (closed f) eqn:Hc; [discriminate|].
  destruct (opened_as f) eqn:Hm.
  - destruct (whence =? 2).
    + destruct (offset =? 0); [|discriminate]. now intros [= <-].
    + destruct (offset <? 0); [discriminate|].
      destruct (offset <? seek_limit); [now intros [= <-]|].
      destruct (offset <? 2 ^ 64); [discriminate|].
      destruct (cookie_seek f offset); cbn [bind]; [|discriminate].
      now intros [= <-].
  - destruct ((offset <? - 2 ^ 63) || (2 ^ 63 <=? offset)); [discriminate|].
    cbv zeta.
    destruct (((if whence =? 2 then size f + offset else offset) <? 0)
              || (seek_limit <=? (if whence =? 2 then size f + offset else offset)));
      [discriminate|].
    now intros [= <-].
Qed.

(** what [read_from_start] does, source by source *)
Lemma read_from_start_cases (obj : source) (log : list op) :
  match obj with
  | Path nm bytes =>
      read_from_start obj log = (Ok (opened_text nm bytes), log ++ [Open nm])
  | NoFile nm e => read_from_start obj log = (Raise e, log ++ [Open nm])
  | FileObj f0 =>
      if closed f0 then
        match on_disk f0 with
        | Ok bytes =>
            read_from_start obj log
            = (Ok (opened_text (name f0) bytes),
               log ++ [Open (name f0); Seek 0 0])
        | Raise e =>
            read_from_start obj log = (Raise e, log ++ [Open (name f0)])
        end
      else read_from_start obj log = (Ok (with_pos f0 0), log ++ [Seek 0 0])
  end.
Proof.
  destruct obj as [nm bytes|f0|nm e]; try reflexivity.
  unfold read_from_start. destruct (closed f0) eqn:Hc.
  - unfold open_file, seek, iobind, emit, ret, lift.
    destruct (on_disk f0) as [bytes|e]; cbn [bind]; [|reflexivity].
    rewrite seek_file_start by reflexivity. now rewrite <- app_assoc.
  - unfold seek, iobind, emit, ret, lift.
    now rewrite seek_file_start by exact Hc.
Qed.

(** a text stream refuses the seek to 1024 bytes before its end *)
Lemma seek_end_text (f : file) :
  closed f = false -> opened_as f = TextMode ->
  seek_file f (-1024) 2 = Raise IOError.
Proof. intros Hc Hm. unfold seek_file. now rewrite Hc, Hm. Qed.

(** a binary stream takes it if the file has that many bytes *)
Lemma seek_end_binary (f : file) :
  closed f = false -> opened_as f = BinaryMode ->
  seek_file f (-1024) 2
  = if (size f <? 1024) || (seek_limit <=? size f - 1024) then Raise IOError
    else Ok (with_pos f (size f - 1024)).
Proof.
  intros Hc Hm. unfold seek_file. rewrite Hc, Hm.
  replace ((-1024 <? - 2 ^ 63) || (2 ^ 63 <=? -1024)) with false by reflexivity.
  replace (2 =? 2) with true by reflexivity. cbv zeta.
  replace (size f + -1024) with (size f - 1024) by lia.
  replace (size f - 1024 <? 0) with (size f <? 1024); [reflexivity|].
  destruct (Z.ltb_spec (size f) 1024), (Z.ltb_spec (size f - 1024) 0);
    try reflexivity; lia.
Qed.


(** an open binary stream of fewer than 1024 bytes: the seek from the end
    is refused *)
Lemma find_index_list_offset_short (f0 : file) (log : list op) :
  closed f0 = false -> opened_as f0 = BinaryMode -> size f0 < 1024 ->
  find_index_list_offset (FileObj f0) log
  = (Raise IOError, log ++ [Seek 0 0; Seek (-1024) 2]).
Proof.
  intros Hc Hm Hlen. unfold find_index_list_offset.
  pose proof (read_from_start_cases (FileObj f0) log) as Hstart.
  cbn beta iota in Hstart. rewrite Hc in Hstart.
  unfold iobind at 1. rewrite Hstart.
  unfold seek, iobind, emit, lift.
  rewrite seek_end_binary by assumption.
  change (size (with_pos f0 0)) with (size f0).
  replace (size f0 <? 1024) with true by (symmetry; apply Z.ltb_lt; lia).
  cbn [orb]. now rewrite <- app_assoc.
Qed.

(** an open binary stream of at least 1024 bytes: the window is read, and
    the pattern refuses it *)
Lemma find_index_list_offset_binary (f0 : file) (log : list op) :
  closed f0 = false -> opened_as f0 = BinaryMode ->
  1024 <= size f0 -> size f0 - 1024 < seek_limit ->
  find_index_list_offset (FileObj f0) log
  = (Raise TypeError, log ++ [Seek 0 0; Seek (-1024) 2; Read 1024]).
Proof.
  intros Hc Hm Hlen Hlim. unfold find_index_list_offset.
  pose proof (read_from_start_cases (FileObj f0) log) as Hstart.
  cbn beta iota in Hstart. rewrite Hc in Hstart.
  unfold iobind at 1. rewrite Hstart.
  unfold seek, iobind, emit, lift.
  rewrite seek_end_binary by assumption.
  change (size (with_pos f0 0)) with (size f0).
  replace (size f0 <? 1024) with false by (symmetry; apply Z.ltb_ge; lia).
  replace (seek_limit <=? size f0 - 1024) with false
    by (symmetry; apply Z.leb_gt; lia).
  cbn [orb]. unfold read, read_file, iobind, emit, lift.
  cbn [closed opened_as with_pos]. rewrite Hc, Hm.
  cbn [re_findall_index_list_offset]. now rewrite <- !app_assoc.
Qed.

(** [find_index_list_offset], source by source: the error it ends with
    and the file operations up to there *)
Lemma find_index_list_offset_outcome (obj : source) (log : list op) :
  find_index_list_offset obj log
  = match obj with
    | Path nm _ => (Raise IOError, log ++ [Open nm; Seek (-1024) 2])
    | NoFile nm e => (Raise e, log ++ [Open nm])
    | FileObj f =>
        if closed f then
          match on_disk f with
          | Ok _ =>
              (Raise IOError,
               log ++ [Open (name f); Seek 0 0; Seek (-1024) 2])
          | Raise e => (Raise e, log ++ [Open (name f)])
          end
        else
          match opened_as f with
          | TextMode => (Raise IOError, log ++ [Seek 0 0; Seek (-1024) 2])
          | BinaryMode =>
              if (size f <? 1024) || (seek_limit <=? size f - 1024)
              then (Raise IOError, log ++ [Seek 0 0; Seek (-1024) 2])
              else (Raise TypeError,
                    log ++ [Seek 0 0; Seek (-1024) 2; Read 1024])
          end
  end.
Proof.
  pose proof (read_from_start_cases obj log) as Hstart.
  destruct obj as [nm bytes|f0|nm e].
  - unfold find_index_list_offset, iobind at 1. rewrite Hstart.
    unfold seek, iobind, emit, lift.
    rewrite seek_end_text by reflexivity. now rewrite <- app_assoc.
  - destruct (closed f0) eqn:Hc.
    + destruct (on_disk f0) as [bytes|e].
      * unfold find_index_list_offset, iobind at 1. rewrite Hstart.
        unfold seek, iobind, emit, lift.
        rewrite seek_end_text by reflexivity. now rewrite <- app_assoc.
      * unfold find_index_list_offset, iobind at 1. now rewrite Hstart.
    + destruct (opened_as f0) eqn:Hm.
      * unfold find_index_list_offset, iobind at 1. rewrite Hstart.
        unfold seek, iobind, emit, lift.
        rewrite seek_end_text by assumption. now rewrite <- app_assoc.
      * destruct (Z.ltb_spec (size f0) 1024) as [Hlt|Hge]; cbn [orb].
        -- now apply find_index_list_offset_short.
        -- destruct (Z.leb_spec seek_limit (size f0 - 1024)) as [Hbig|Hfit].
           ++ unfold find_index_list_offset, iobind at 1. rewrite Hstart.
              unfold seek, iobind, emit, lift.
              rewrite seek_end_binary by assumption.
              change (size (with_pos f0 0)) with (size f0).
              replace (seek_limit <=? size f0 - 1024) with true
                by (symmetry; apply Z.leb_le; lia).
              rewrite orb_true_r. now rewrite <- app_assoc.
           ++ now apply find_index_list_offset_binary.
  - unfold find_index_list_offset, iobind at 1. now rewrite Hstart.
Qed.



End OnPlatform.

End TrailerFacts.

(* ------------------------------------------------------------------ *)
(** ** The indexed reader *)
(* ------------------------------------------------------------------ *)

Module ReaderFacts.







Section Scan.
Context {X : XMLBase}.

(** the flag [found] decides which elements are cleared, never which
    element is returned *)
Lemma scan_events_found (events : list (event * Element)) (elem_id : string)
    (f1 f2 : bool) :
  fst (scan_events events elem_id f1) = fst (scan_events events elem_id f2).
Proof.
  revert f1 f2. induction events as [|[[|] elem] rest IH]; intros f1 f2;
    cbn [scan_events].
  - reflexivity.
  - apply IH.
  - destruct (has_id elem elem_id); [reflexivity|].
    specialize (IH f1 f2).
    destruct (scan_events rest elem_id f1), (scan_events rest elem_id f2).
    exact IH.
Qed.

(** the scan returns the element of the first end event that carries the
    id, whatever was parsed before it and whatever follows *)
Lemma scan_events_hit (before after : list (event * Element))
    (elem : Element) (elem_id : string) (found : bool) :
  Forall (passes_by elem_id) before -> has_id elem elem_id = true ->
  fst (scan_events (before ++ (end_, elem) :: after) elem_id found) = Some elem.
Proof.
  intros Hb Hid. revert found.
  induction Hb as [|[[|] e] rest Hev _ IH]; intros found;
    cbn [app scan_events].
  - now rewrite Hid.
  - apply IH.
  - cbn [passes_by] in Hev. rewrite Hev.
    specialize (IH found).
    destruct (scan_events (rest ++ (end_, elem) :: after) elem_id found).
    exact IH.
Qed.

(** an element is cleared only if it ended without the id *)
Lemma scan_events_cleared (events : list (event * Element)) (elem_id : string)
    (found : bool) (elem : Element) :
  In elem (snd (scan_events events elem_id found)) ->
  has_id elem elem_id = false.
Proof.
  revert found. induction events as [|[[|] e] rest IH]; intros found;
    cbn [scan_events].
  - intros [].
  - apply IH.
  - destruct (has_id e elem_id) eqn:E; [intros []|].
    specialize (IH found).
    destruct (scan_events rest elem_id found) as [r cleared].
    cbn [snd] in *. destruct found; [exact IH|].
    intros [<-|Hin]; [exact E | now apply IH].
Qed.

End Scan.

End ReaderFacts.

Module ReaderClaims.
Import TrailerFacts ReaderFacts.

Section Generic.
Context {X : XMLBase} {R : Runtime} {I : XMLInherited} {P : Platform}.



(** C10.  [get_by_id] hands the call to the base class whenever the
    indexed path raises KeyError, wherever it is raised: at the lookup of
    the category or of the id, and just as well after the seek, in the
    forward scan or in the conversion of the element found.  Any other
    exception of the indexed path reaches the caller, and a record it
    returns is returned. *)
Theorem keyerror_anywhere_falls_back (self : IndexedMzML) (elem_id : string) :
  (indexed_get_by_id self elem_id = Raise KeyError ->
   get_by_id self elem_id = super_get_by_id (_source self) elem_id)
  /\ (forall index offset src,
        spectrum_index self = Ok index ->
        getitem String.eqb index elem_id = Ok offset ->
        seek_file (_source self) offset 0 = Ok src ->
        (_find_by_id_no_reset src elem_id = Raise KeyError ->
         get_by_id self elem_id = super_get_by_id (_source self) elem_id)
        /\ (forall elem,
              _find_by_id_no_reset src elem_id = Ok elem ->
              _get_info_smart elem (Some true) = Raise KeyError ->
              get_by_id self elem_id = super_get_by_id (_source self) elem_id))
  /\ (forall e, indexed_get_by_id self elem_id = Raise e ->
                exn_eqb e KeyError = false ->
                get_by_id self elem_id = Raise e)
  /\ (forall d, indexed_get_by_id self elem_id = Ok d ->
                get_by_id self elem_id = Ok d).
Proof.
  assert (Hfall : indexed_get_by_id self elem_id = Raise KeyError ->
                  get_by_id self elem_id = super_get_by_id (_source self) elem_id).
  { intros H. unfold get_by_id. now rewrite H. }
  split; [exact Hfall|]. split; [|split].
  - intros index offset src Hi Ho Hs. split.
    + intros Hscan. apply Hfall. unfold indexed_get_by_id.
      rewrite Hi. cbn [bind]. rewrite Ho. cbn [bind]. rewrite Hs. cbn [bind].
      now rewrite Hscan.
    + intros elem Hscan Hinfo. apply Hfall. unfold indexed_get_by_id.
      rewrite Hi. cbn [bind]. rewrite Ho. cbn [bind]. rewrite Hs. cbn [bind].
      rewrite Hscan. cbn [bind]. exact Hinfo.
  - intros e He Hne. unfold get_by_id. rewrite He. cbn [try_except existsb].
    now rewrite Hne.
  - intros d Hd. unfold get_by_id. now rewrite Hd.
Qed.


(** What the generator does when a lookup raises: any exception but
    KeyError ends the iteration after the records yielded so far; a
    KeyError is caught by the same handler as a missing category, and the
    base class's scan over all spectra follows the records yielded so
    far. *)
Lemma iteration_when_a_lookup_raises (self : IndexedMzML) (index : offsets_t)
    (ds : list dict) (e : exn) :
  spectrum_index self = Ok index ->
  yield_items self (sorted_by_offset index) = (ds, Some e) ->
  __iter__ self
  = if exn_eqb e KeyError
    then (ds ++ fst (iterfind (_source self) "spectrum"),
          snd (iterfind (_source self) "spectrum"))
    else (ds, Some e).
Proof.
  intros Hi Hy. unfold __iter__. rewrite Hi, Hy.
  destruct e; cbn [exn_eqb]; try reflexivity.
  now destruct (iterfind (_source self) "spectrum").
Qed.

(** the constructor up to the index: what [find_index_list_offset] does
    on the file object that the base class keeps *)
Lemma init_stops_at_the_trailer (args : source) (src src' : file)
    (e : exn) (log : list op) :
  xml_init args = Ok src -> reset src = Ok src' ->
  find_index_list_offset (FileObj src') [] = (Raise e, log) ->
  run (__init__ args) = (Raise e, log).
Proof.
  intros Hinit Hreset Hoff. unfold run, __init__, _build_index, find_index_list.
  unfold iobind, lift. rewrite Hinit, Hreset. cbn [_source].
  now rewrite Hoff.
Qed.

(** a binary stream of fewer than 1024 bytes: the reader is not
    constructed *)
Lemma short_file_init_raises (args : source) (src src' : file) :
  xml_init args = Ok src -> reset src = Ok src' ->
  closed src' = false -> opened_as src' = BinaryMode -> size src' < 1024 ->
  run (__init__ args) = (Raise IOError, [Seek 0 0; Seek (-1024) 2]).
Proof.
  intros Hinit Hreset Hc Hm Hlen.
  apply (init_stops_at_the_trailer args Hinit Hreset).
  now rewrite find_index_list_offset_short.
Qed.

(** a binary stream of at least 1024 bytes, with or without a trailer:
    the last 1024 bytes are read and the text pattern refuses them; the
    reader is not constructed either, and the stream is left open *)
Lemma long_file_init_raises (args : source) (src src' : file) :
  xml_init args = Ok src -> reset src = Ok src' ->
  closed src' = false -> opened_as src' = BinaryMode ->
  1024 <= size src' -> size src' - 1024 < seek_limit ->
  run (__init__ args)
  = (Raise TypeError, [Seek 0 0; Seek (-1024) 2; Read 1024]).
Proof.
  intros Hinit Hreset Hc Hm Hlen Hlim.
  apply (init_stops_at_the_trailer args Hinit Hreset).
  now rewrite find_index_list_offset_binary.
Qed.

(** without a "spectrum" category every lookup is the base class's *)
Lemma no_category_falls_back (self : IndexedMzML) (elem_id : string) :
  spectrum_index self = Raise KeyError ->
  get_by_id self elem_id = super_get_by_id (_source self) elem_id.
Proof.
  intros H. unfold get_by_id, indexed_get_by_id. now rewrite H.
Qed.

End Generic.

End ReaderClaims.

(* ------------------------------------------------------------------ *)
(** ** The reader on concrete files *)
(* ------------------------------------------------------------------ *)

Module OnFiles.
Import TrailerFacts ReaderFacts ReaderClaims Fixture.

#[local] Existing Instance MiniXML.base.
#[local] Existing Instance little_endian_host.
#[local] Existing Instance MiniXML.inherited.
#[local] Existing Instance latin1_platform.

(** the file with the right offsets: its size and where its parts
    start *)
Example good_file_layout :
  String.length good = 1508%nat
  /\ offset_a = 1127%nat /\ offset_b = 1207%nat /\ offset_index = 1311%nat.
Proof. vm_compute. repeat split. Qed.

(** the trailer of that file names the offset of its index, and the loop
    of [find_index_list], given that offset and the path, reads the index
    that [good_reader] holds *)
Example good_file_index_read :
  findall_index_list_offset (drop (1508 - 1024) good) = [1311]
  /\ run (index_loop (Path "good.mzML" good) [1311] [])
     = (Ok (match _offset_index good_reader with Some i => i | None => [] end,
            Path "good.mzML" good),
        [Open "good.mzML"; Seek 1311 0; ReadLines]).
Proof. vm_compute. split; reflexivity. Qed.

(** the constructor on that file: the last 1024 bytes are read from the
    binary stream of the base class and the pattern refuses them *)
Example good_file_not_constructed :
  run (__init__ (Path "good.mzML" good))
  = (Raise TypeError, [Seek 0 0; Seek (-1024) 2; Read 1024]).
Proof. vm_compute. reflexivity. Qed.


(** both lookups return the record of the spectrum *)
Example good_file_lookup :
  get_by_id good_reader "scan=1" = Ok record1
  /\ linear_get_by_id (_source good_reader) "scan=1" = Ok record1.
Proof. vm_compute. split; reflexivity. Qed.


(** the same with an offset that is that of another spectrum: the parser
    meets a second spectrum after the one it took for the root *)
Example indexed_lookup_crossed_offset :
  let self := reader_of "crossed.mzML" crossed [("scan=1", 1127); ("scan=2", 1127)] in
  fst (run (index_loop (Path "crossed.mzML" crossed) [1311] []))
  = Ok (match _offset_index self with Some i => i | None => [] end,
        Path "crossed.mzML" crossed)
  /\ get_by_id self "scan=1" = Raise XMLSyntaxError
  /\ get_by_id self "scan=2" = Ok record2
  /\ linear_get_by_id (_source self) "scan=1" = Ok record1.
Proof. vm_compute. repeat split. Qed.

(** a KeyError raised after the seek, by the conversion of the element
    found, is answered by the base class *)
Example keyerror_after_seek_falls_back :
  @_find_by_id_no_reset MiniXML.missing_entry
    (with_pos (opened "good.mzML" good) 1207) "scan=1" = Ok (Some scan1)
  /\ @indexed_get_by_id MiniXML.missing_entry little_endian_host
       latin1_platform good_reader "scan=1" = Raise KeyError
  /\ @get_by_id MiniXML.missing_entry little_endian_host MiniXML.marked
       latin1_platform good_reader "scan=1"
     = Ok [("found by", VStr "linear scan")].
Proof. vm_compute. repeat split. Qed.

(** the order of iteration is that of the offsets, not of the ids and
    not of the table; equal offsets keep the order of the table *)
Example iteration_follows_offsets :
  __iter__ good_reader = ([record2; record1], None)
  /\ sorted_by_offset spectrum_table = [("scan=2", 1127); ("scan=1", 1207)]
  /\ sorted_by_offset [("a", 3); ("b", 1); ("c", 3); ("d", 1)]
     = [("b", 1); ("d", 1); ("a", 3); ("c", 3)].
Proof. vm_compute. repeat split. Qed.

(** C2, the code at a file of 13 bytes: the seek to 1024 bytes before
    the end is refused and the constructor raises, after two file
    operations. *)
Theorem tiny_file_construction_raises :
  run (__init__ (Path "tiny.mzML" "<mzML></mzML>"))
  = (Raise IOError, [Seek 0 0; Seek (-1024) 2]).
Proof.
  apply short_file_init_raises
    with (src := opened "tiny.mzML" "<mzML></mzML>")
         (src' := opened "tiny.mzML" "<mzML></mzML>").
  - reflexivity.
  - reflexivity.
  - reflexivity.
  - reflexivity.
  - vm_compute. reflexivity.
Qed.


(** what the loop does on these two offsets: only the second is
    visited *)
Example low_offset_is_passed_over :
  run (index_loop (Path "good.mzML" good) [100; 1311] [])
  = (Ok ([(Some "spectrum", spectrum_table)], Path "good.mzML" good),
     [Open "good.mzML"; Seek 1311 0; ReadLines]).
Proof. vm_compute. reflexivity. Qed.


(** a trailer that points below 1024: nothing is visited, the index
    stays empty *)
Example low_trailer_offset_is_skipped :
  let obj := Path "low.mzML" (mzml offset_b offset_a 100) in
  findall_index_list_offset
    (drop (1507 - 1024) (mzml offset_b offset_a 100)) = [100]
  /\ run (index_loop obj [100] []) = (Ok ([], obj), []).
Proof. vm_compute. repeat split. Qed.

End OnFiles.

(* ------------------------------------------------------------------ *)
(** ** The normaliser, path by path *)
(* ------------------------------------------------------------------ *)

Module NormalizerPaths.
Import DictFacts NormalizerFacts.

Lemma array_key_ddel (k : string) (info : dict) :
  ends_with " array" k = false -> array_key (ddel k info) = array_key info.
Proof.
  intros Hk. unfold ddel, Dict.del.
  induction info as [|[k0 v0] info IH]; [reflexivity|].
  cbn [filter fst]. destruct (String.eqb k k0) eqn:E; cbn [negb array_key].
  - apply String.eqb_eq in E. subst k0. now rewrite Hk.
  - now rewrite IH.
Qed.

Lemma array_key_dset (k : string) (v : value) (info : dict) :
  ends_with " array" k = false -> array_key (dset k v info) = array_key info.
Proof.
  intros Hk. unfold dset.
  induction info as [|[k0 v0] info IH]; cbn [Dict.set array_key].
  - now rewrite Hk.
  - destruct (String.eqb k k0) eqn:E; cbn [array_key].
    + apply String.eqb_eq in E. subst k0. now rewrite Hk.
    + now rewrite IH.
Qed.

Lemma py_int_is_int (v w : value) : py_int v = Ok w -> exists z, w = VInt z.
Proof.
  destruct v as [|s|z|b| | |[|] [|x [|y l]]]; cbn [py_int]; try discriminate.
  - destruct (int_of_string s); cbn [bind]; [|discriminate].
    intros [= <-]. eauto.
  - intros [= <-]. eauto.
  - destruct (float_trunc 11 52 b); cbn [bind]; [|discriminate].
    intros [= <-]. eauto.
  - destruct (float_trunc 8 23 x); cbn [bind]; [|discriminate].
    intros [= <-]. eauto.
  - destruct (float_trunc 11 52 x); cbn [bind]; [|discriminate].
    intros [= <-]. eauto.
Qed.

Lemma type_tag_no_array (dt : dtype) : ends_with " array" (type_tag dt) = false.
Proof. now destruct dt. Qed.

Lemma determine_dtype_by_key (info : dict) (dt : dtype) :
  dhas (type_tag dt) info = true ->
  (dt = F64 -> dhas "32-bit float" info = false) ->
  determine_dtype info = Ok (Some dt, ddel (type_tag dt) info).
Proof.
  intros Hk Hfirst. unfold determine_dtype, types. cbn [type_from_keys].
  destruct dt; cbn [type_tag] in *.
  - now rewrite Hk.
  - now rewrite (Hfirst eq_refl), Hk.
Qed.

(** the compression step on a mapping without a name list *)
Lemma determine_compression_by_key (info : dict) :
  dget "name" info = None ->
  determine_compression info
  = Ok (dhas "zlib compression" info,
        if dhas "zlib compression" info then ddel "zlib compression" info
        else ddel "no compression" info).
Proof.
  intros Hn. unfold determine_compression.
  destruct (dhas "zlib compression" info); [reflexivity|].
  rewrite Hn. cbn [bind].
  rewrite dget_ddel_ne by discriminate. rewrite Hn. reflexivity.
Qed.

(** X1.  A binary data array whose facts are all keys of the mapping: the
    payload under "binary", the element type as a key ("32-bit float"
    taking precedence when both are there), compression by the presence of
    the key "zlib compression", no name list, and some key ending in
    " array" with a false value.  It is normalised to the single entry of
    the first such key with the array that the payload decodes to under
    that type and compression; every other key is dropped. *)
Theorem normalize_tagged_by_keys (R : Runtime) (info : dict) (dt : dtype)
    (payload array : value) (k : string) :
  dget "binary" info = Some payload ->
  dhas (type_tag dt) info = true ->
  (dt = F64 -> dhas "32-bit float" info = false) ->
  dget "name" info = None ->
  decode_binary payload (Some dt) (dhas "zlib compression" info) = Ok array ->
  array_key info = Ok (Some k) ->
  normalize info = Ok [(k, array)].
Proof.
  intros Hb Ht Hfirst Hn Hd Hk.
  assert (Hends : ends_with " array" k = true) by (eapply array_key_some; eauto).
  unfold normalize. rewrite dhas_dget, Hb. unfold decode_step.
  rewrite (@determine_dtype_by_key info dt Ht Hfirst). cbn [bind].
  assert (Hnt : type_tag dt <> "name" /\ type_tag dt <> "binary"
                /\ type_tag dt <> "zlib compression")
    by (destruct dt; repeat split; discriminate).
  destruct Hnt as (N1 & N2 & N3).
  rewrite determine_compression_by_key
    by (rewrite dget_ddel_ne by congruence; exact Hn).
  cbn [bind]. rewrite dhas_ddel_ne by congruence.
  assert (Hbin : forall x, x <> "binary" ->
            dget "binary" (ddel x (ddel (type_tag dt) info)) = Some payload).
  { intros x Hx. rewrite !dget_ddel_ne by congruence. exact Hb. }
  assert (Hkey : forall x, ends_with " array" x = false ->
            array_key (ddel "binary" (ddel x (ddel (type_tag dt) info)))
            = Ok (Some k)).
  { intros x Hx. rewrite !array_key_ddel; try assumption; try reflexivity.
    apply type_tag_no_array. }
  destruct (dhas "zlib compression" info).
  - rewrite Hbin by discriminate. rewrite Hd. cbn [bind].
    unfold place_array. rewrite Hkey by reflexivity. cbn [bind].
    destruct (normalize_single_array R k array Hends) as (_ & B & C & _).
    rewrite B. cbn [bind]. exact C.
  - rewrite Hbin by discriminate. rewrite Hd. cbn [bind].
    unfold place_array. rewrite Hkey by reflexivity. cbn [bind].
    destruct (normalize_single_array R k array Hends) as (_ & B & C & _).
    rewrite B. cbn [bind]. exact C.
Qed.

(** X1 at a mapping as a writer of mzML with valued parameters gives it:
    the payload is the array [1.0; 2.0] of 32-bit floats, compressed *)
Lemma normalize_tagged_by_keys_witness :
  @normalize little_endian_host
    [("encodedLength", VStr "28"); ("32-bit float", VStr "");
     ("zlib compression", VStr ""); ("m/z array", VStr "");
     ("binary", VStr "eAEBCAD3/wAAgD8AAABABIMBAA==")]
  = Ok [("m/z array", VArray F32 [1065353216; 1073741824])].
Proof.
  apply (@normalize_tagged_by_keys little_endian_host _ F32
           (VStr "eAEBCAD3/wAAgD8AAABABIMBAA==")).
  - reflexivity.
  - reflexivity.
  - discriminate.
  - reflexivity.
  - vm_compute. reflexivity.
  - reflexivity.
Defined.

Lemma dhas_dset_ne (k k' : string) (v : value) (d : dict) :
  k <> k' -> dhas k (dset k' v d) = dhas k d.
Proof. intros H. now rewrite !dhas_dget, dget_dset_ne. Qed.

Lemma existsb_remove_first_ne (t t' : string) (l : list value) :
  t <> t' ->
  existsb (is_str t) (remove_first t' l) = existsb (is_str t) l.
Proof.
  intros Hne. induction l as [|v l IH]; cbn [remove_first existsb]; [reflexivity|].
  destruct (is_str t' v) eqn:E.
  - destruct v; cbn [is_str] in *; try discriminate.
    apply String.eqb_eq in E. subst s.
    destruct (String.eqb_spec t' t); [congruence|reflexivity].
  - cbn [existsb]. now rewrite IH.
Qed.

Lemma array_name_remove_first (t : string) (l : list value) :
  ends_with " array" t = false ->
  array_name (remove_first t l) = array_name l.
Proof.
  intros Ht. induction l as [|v l IH]; cbn [remove_first]; [reflexivity|].
  destruct (is_str t v) eqn:E.
  - destruct v; cbn [is_str] in E; try discriminate.
    apply String.eqb_eq in E. subst s. cbn [array_name]. now rewrite Ht.
  - cbn [array_name]. destruct v; try reflexivity.
    destruct (ends_with " array" s); [reflexivity|exact IH].
Qed.

(** the type step on a mapping whose name list carries the type *)
Lemma determine_dtype_by_name (info : dict) (dt : dtype) (l : list value) :
  dhas "32-bit float" info = false -> dhas "64-bit float" info = false ->
  dget "name" info = Some (VList l) ->
  existsb (is_str (type_tag dt)) l = true ->
  (dt = F64 -> existsb (is_str "32-bit float") l = false) ->
  determine_dtype info
  = Ok (Some dt, dset "name" (VList (remove_first (type_tag dt) l)) info).
Proof.
  intros H32 H64 Hn Ht Hfirst. unfold determine_dtype, types.
  cbn [type_from_keys]. rewrite H32, H64, Hn.
  cbn [type_from_name py_contains bind].
  destruct dt; cbn [type_tag] in *.
  - rewrite Ht. cbn [py_remove]. now rewrite Ht.
  - rewrite (Hfirst eq_refl), Ht. cbn [py_remove]. now rewrite Ht.
Qed.

(** X2.  A binary data array whose facts are all entries of its name
    list: the payload is under "binary", no type or compression tag is a
    key, and the list under "name" holds the type tag ("32-bit float" taking
    precedence), the compression tag ("zlib compression" taking precedence)
    and an entry ending in " array"; no key ends in " array" with a false
    value.  It is normalised to the single entry of the first list entry
    ending in " array", with the array that the payload decodes to. *)
Theorem normalize_tagged_by_names (R : Runtime) (info : dict) (dt : dtype)
    (compressed : bool) (payload array : value) (l : list value) (s : string) :
  dget "binary" info = Some payload ->
  dhas "32-bit float" info = false -> dhas "64-bit float" info = false ->
  dhas "zlib compression" info = false ->
  dget "name" info = Some (VList l) ->
  existsb (is_str (type_tag dt)) l = true ->
  (dt = F64 -> existsb (is_str "32-bit float") l = false) ->
  existsb (is_str (compression_tag compressed)) l = true ->
  (compressed = false -> existsb (is_str "zlib compression") l = false) ->
  decode_binary payload (Some dt) compressed = Ok array ->
  array_key info = Ok None ->
  array_name l = Ok (Some s) ->
  normalize info = Ok [(s, array)].
Proof.
  intros Hb H32 H64 Hz Hn Ht Hfirst Hc Hzfirst Hd Hk Hs.
  assert (Hends : ends_with " array" s = true) by (eapply array_name_some; eauto).
  unfold normalize. rewrite dhas_dget, Hb. unfold decode_step.
  rewrite (@determine_dtype_by_name info dt l H32 H64 Hn Ht Hfirst). cbn [bind].
  set (l1 := remove_first (type_tag dt) l).
  set (info1 := dset "name" (VList l1) info).
  assert (Hn1 : dget "name" info1 = Some (VList l1)) by apply dget_dset_eq.
  assert (Hz1 : dhas "zlib compression" info1 = false)
    by (unfold info1; rewrite dhas_dset_ne by discriminate; exact Hz).
  assert (Htag : forall t, t <> type_tag dt ->
            existsb (is_str t) l1 = existsb (is_str t) l)
    by (intros t Hne; now apply existsb_remove_first_ne).
  assert (Hs1 : array_name l1 = Ok (Some s))
    by (unfold l1; rewrite array_name_remove_first
          by apply type_tag_no_array; exact Hs).
  assert (Hfin : forall l2 info2,
            array_name l2 = Ok (Some s) ->
            dget "name" info2 = Some (VList l2) ->
            dget "binary" info2 = Some payload ->
            array_key (ddel "binary" info2) = Ok None ->
            info0 <- match dget "binary" info2 with
                     | Some b =>
                         array0 <- decode_binary b (Some dt) compressed ;;
                         place_array (ddel "binary" info2) array0
                     | None => Raise KeyError
                     end ;;
            info3 <- flatten_arrays info0 ;; coerce_ints intkeys info3
            = Ok [(s, array)]).
  { intros l2 info2 Hl2 Hn2 Hb2 Hk2. rewrite Hb2, Hd. cbn [bind].
    unfold place_array. rewrite Hk2. cbn [bind].
    rewrite dget_ddel_ne by discriminate. rewrite Hn2, Hl2. cbn [bind].
    destruct (normalize_single_array R s array Hends) as (_ & B & C & _).
    rewrite B. cbn [bind]. exact C. }
  unfold determine_compression. rewrite Hz1, Hn1. cbn [py_contains bind].
  destruct compressed; cbn [compression_tag] in Hc.
  - rewrite Htag by (destruct dt; discriminate). rewrite Hc.
    cbn [py_remove]. rewrite Htag by (destruct dt; discriminate). rewrite Hc.
    cbn [bind].
    apply Hfin with (l2 := remove_first "zlib compression" l1).
    + rewrite array_name_remove_first by reflexivity. exact Hs1.
    + apply dget_dset_eq.
    + unfold info1. rewrite !dget_dset_ne by discriminate. exact Hb.
    + unfold info1. rewrite array_key_ddel by reflexivity.
      rewrite !array_key_dset by reflexivity. exact Hk.
  - rewrite Htag by (destruct dt; discriminate).
    rewrite (Hzfirst eq_refl).
    rewrite dget_ddel_ne by discriminate. rewrite Hn1.
    cbn [py_remove]. rewrite Htag by (destruct dt; discriminate). rewrite Hc.
    cbn [bind truthy].
    assert (Hs2 : array_name (remove_first "no compression" l1) = Ok (Some s))
      by (rewrite array_name_remove_first by reflexivity; exact Hs1).
    destruct (remove_first "no compression" l1) as [|v2 l2] eqn:E2;
      [discriminate|].
    cbn [negb try_except bind].
    apply Hfin with (l2 := v2 :: l2).
    + exact Hs2.
    + apply dget_dset_eq.
    + unfold info1. rewrite dget_dset_ne by discriminate.
      rewrite dget_ddel_ne by discriminate.
      rewrite dget_dset_ne by discriminate. exact Hb.
    + unfold info1. rewrite array_key_ddel by reflexivity.
      rewrite array_key_dset by reflexivity.
      rewrite array_key_ddel by reflexivity.
      rewrite array_key_dset by reflexivity. exact Hk.
Qed.

(** X2 at a mapping built from parameters without values: the payload is
    the array [1.0] of 64-bit floats, not compressed *)
Lemma normalize_tagged_by_names_witness :
  @normalize little_endian_host
    [("encodedLength", VStr "12");
     ("name", VList [VStr "64-bit float"; VStr "no compression";
                     VStr "intensity array"]);
     ("binary", VStr "AAAAAAAA8D8=")]
  = Ok [("intensity array", VArray F64 [4607182418800017408])].
Proof.
  apply (@normalize_tagged_by_names little_endian_host _ F64 false
           (VStr "AAAAAAAA8D8=") _
           [VStr "64-bit float"; VStr "no compression";
            VStr "intensity array"]).
  - reflexivity.
  - reflexivity.
  - reflexivity.
  - reflexivity.
  - reflexivity.
  - reflexivity.
  - reflexivity.
  - reflexivity.
  - reflexivity.
  - vm_compute. reflexivity.
  - reflexivity.
  - reflexivity.
Defined.

(** what the type step leaves of a name list and of the compression
    key *)
Lemma determine_dtype_keeps (info info1 : dict) (odt : option dtype) :
  determine_dtype info = Ok (odt, info1) ->
  dhas "zlib compression" info1 = dhas "zlib compression" info
  /\ dget "binary" info1 = dget "binary" info
  /\ (dget "name" info1 = dget "name" info
      \/ exists t l, (t = "32-bit float" \/ t = "64-bit float")
            /\ dget "name" info = Some (VList l)
            /\ dget "name" info1 = Some (VList (remove_first t l))).
Proof.
  unfold determine_dtype, types. cbn [type_from_keys].
  destruct (dhas "32-bit float" info).
  { intros [= <- <-]. rewrite dhas_ddel_ne, !dget_ddel_ne by discriminate.
    repeat split. now left. }
  destruct (dhas "64-bit float" info).
  { intros [= <- <-]. rewrite dhas_ddel_ne, !dget_ddel_ne by discriminate.
    repeat split. now left. }
  destruct (dget "name" info) as [name|] eqn:Hn.
  2:{ intros [= <- <-]. rewrite Hn. repeat split. now left. }
  cbn [type_from_name].
  assert (Hstep : forall t rest,
            (t = "32-bit float" \/ t = "64-bit float") ->
            (rest = Ok (odt, info1) ->
             dhas "zlib compression" info1 = dhas "zlib compression" info
             /\ dget "binary" info1 = dget "binary" info
             /\ (dget "name" info1 = Some name
                 \/ exists t l, (t = "32-bit float" \/ t = "64-bit float")
                      /\ Some name = Some (VList l)
                      /\ dget "name" info1 = Some (VList (remove_first t l)))) ->
            forall code,
            (found <- py_contains t name ;;
             if found then
               name' <- py_remove t name ;;
               Ok (Some code, dset "name" name' info)
             else rest) = Ok (odt, info1) ->
            dhas "zlib compression" info1 = dhas "zlib compression" info
            /\ dget "binary" info1 = dget "binary" info
            /\ (dget "name" info1 = Some name
                \/ exists t l, (t = "32-bit float" \/ t = "64-bit float")
                     /\ Some name = Some (VList l)
                     /\ dget "name" info1 = Some (VList (remove_first t l)))).
  { intros t rest Ht Hrest code.
    destruct (py_contains t name) as [[|]|]; cbn [bind]; try discriminate.
    - destruct name; cbn [py_remove]; try discriminate.
      destruct (existsb (is_str t) l); cbn [bind]; [|discriminate].
      intros [= <- <-].
      rewrite dhas_dset_ne by discriminate.
      rewrite dget_dset_ne by discriminate. rewrite dget_dset_eq.
      repeat split. right. exists t, l. now repeat split.
    - exact Hrest. }
  apply Hstep; [now left|].
  apply Hstep; [now right|].
  intros [= <- <-]. rewrite Hn. repeat split. now left.
Qed.

(** X3.  A binary data array whose "name" is a list that mentions neither
    "zlib compression" nor "no compression", in a mapping without the key
    "zlib compression": the normaliser raises ValueError, from the removal
    of "no compression" from the list, which only KeyError and TypeError
    are caught for.  A key "no compression" in the mapping changes
    nothing, nor does the element type or the payload. *)
Theorem name_list_without_compression_raises (R : Runtime) (info : dict)
    (l : list value) :
  dhas "binary" info = true ->
  dhas "zlib compression" info = false ->
  dget "name" info = Some (VList l) ->
  existsb (is_str "zlib compression") l = false ->
  existsb (is_str "no compression") l = false ->
  normalize info = Raise ValueError.
Proof.
  intros Hb Hz Hn Hlz Hln. unfold normalize. rewrite Hb. unfold decode_step.
  destruct (determine_dtype info) as [[odt info1]|e] eqn:Ed.
  2:{ exfalso. revert Ed. unfold determine_dtype, types. cbn [type_from_keys].
      destruct (dhas "32-bit float" info); [discriminate|].
      destruct (dhas "64-bit float" info); [discriminate|].
      rewrite Hn. cbn [type_from_name py_contains bind py_remove].
      destruct (existsb (is_str "32-bit float") l); [discriminate|].
      destruct (existsb (is_str "64-bit float") l); discriminate. }
  cbn [bind].
  destruct (determine_dtype_keeps _ Ed) as (Hz1 & _ & Hn1).
  assert (Hl1 : exists l1, dget "name" info1 = Some (VList l1)
                  /\ existsb (is_str "zlib compression") l1 = false
                  /\ existsb (is_str "no compression") l1 = false).
  { destruct Hn1 as [Hn1|(t & l0 & Ht & Hl0 & Hn1)].
    - exists l. rewrite Hn1. now repeat split.
    - rewrite Hn in Hl0. injection Hl0 as <-.
      exists (remove_first t l). split; [exact Hn1|].
      rewrite !existsb_remove_first_ne
        by (destruct Ht; subst t; discriminate).
      now split. }
  destruct Hl1 as (l1 & Hn1' & Hlz1 & Hln1).
  unfold determine_compression. rewrite Hz1, Hz, Hn1'.
  cbn [py_contains bind]. rewrite Hlz1.
  rewrite dget_ddel_ne by discriminate. rewrite Hn1'.
  cbn [py_remove]. rewrite Hln1. reflexivity.
Qed.

(** X3 at a mapping that has the key "no compression" and a name list
    of two array names *)
Lemma name_list_without_compression_raises_witness :
  @normalize little_endian_host
    [("32-bit float", VStr ""); ("no compression", VStr "");
     ("name", VList [VStr "m/z array"; VStr "intensity array"]);
     ("binary", VStr "AACAPw==")]
  = Raise ValueError.
Proof.
  apply (@name_list_without_compression_raises little_endian_host _
           [VStr "m/z array"; VStr "intensity array"]); reflexivity.
Defined.

(** X4.  In every record that the normaliser returns, "ms level" is an
    integer if it is there at all, whatever it was before: text, a float
    (truncated) or an integer. *)
Theorem ms_level_is_an_integer (R : Runtime) (info out : dict) (v : value) :
  normalize info = Ok out -> dget "ms level" out = Some v ->
  exists z, v = VInt z.
Proof.
  unfold normalize.
  destruct (if dhas "binary" info then decode_step info else Ok info)
    as [i1|]; cbn [bind]; [|discriminate].
  destruct (flatten_arrays i1) as [i2|]; cbn [bind]; [|discriminate].
  unfold intkeys. cbn [coerce_ints].
  destruct (dget "ms level" i2) as [w|] eqn:E.
  - destruct (py_int w) as [i|] eqn:Ei; cbn [bind]; [|discriminate].
    intros [= <-]. rewrite dget_dset_eq. intros [= <-].
    eapply py_int_is_int; eauto.
  - intros [= <-]. congruence.
Qed.

(** X4 at a record whose level is the float 2.0 *)
Lemma ms_level_is_an_integer_witness :
  @normalize little_endian_host
    [("id", VStr "scan=1"); ("ms level", VFloat 4611686018427387904)]
  = Ok [("id", VStr "scan=1"); ("ms level", VInt 2)]
  /\ exists z, VInt 2 = VInt z.
Proof.
  split; [reflexivity|].
  apply (@ms_level_is_an_integer little_endian_host
           [("id", VStr "scan=1"); ("ms level", VFloat 4611686018427387904)]
           [("id", VStr "scan=1"); ("ms level", VInt 2)] (VInt 2)).
  - reflexivity.
  - reflexivity.
Defined.

Lemma dget_app (k : string) (d1 d2 : dict) :
  dget k (d1 ++ d2)
  = match dget k d1 with Some v => Some v | None => dget k d2 end.
Proof.
  unfold dget. induction d1 as [|[k1 v1] d1 IH]; cbn [app Dict.get];
    [reflexivity|].
  destruct (String.eqb k k1); [reflexivity|exact IH].
Qed.

Lemma dget_dset (k k' : string) (v : value) (d : dict) :
  dget k (dset k' v d) = if String.eqb k k' then Some v else dget k d.
Proof.
  destruct (String.eqb_spec k k') as [->|Hne].
  - apply dget_dset_eq.
  - now apply dget_dset_ne.
Qed.

(** [d.update(d2)] read key by key: the last binding of [d2] wins, then
    that of [d] *)
Lemma dget_dupdate (k : string) (d d2 : dict) :
  dget k (dupdate d d2)
  = match dget k (rev d2) with Some v => Some v | None => dget k d end.
Proof.
  unfold dupdate, Dict.update. revert d.
  induction d2 as [|[k2 v2] d2 IH]; intros d; cbn [fold_left rev];
    [reflexivity|].
  rewrite IH. rewrite dget_app. cbn [fst snd].
  destruct (dget k (rev d2)); [reflexivity|].
  fold dset. rewrite dget_dset. unfold dget at 2. cbn [Dict.get].
  destruct (String.eqb k k2); reflexivity.
Qed.

Lemma update_all_dicts (ds : list dict) (info : dict) :
  update_all info (map VDict ds) = Ok (fold_left dupdate ds info).
Proof.
  revert info. induction ds as [|d ds IH]; intros info;
    cbn [map update_all fold_left py_update bind]; [reflexivity|apply IH].
Qed.

Lemma dget_fold_dupdate (k : string) (ds : list dict) (info : dict) :
  dget k (fold_left dupdate ds info)
  = match dget k (rev (List.concat ds)) with
    | Some v => Some v
    | None => dget k info
    end.
Proof.
  revert info. induction ds as [|d ds IH]; intros info;
    cbn [fold_left List.concat]; [reflexivity|].
  rewrite IH, rev_app_distr, dget_app, dget_dupdate.
  destruct (dget k (rev (List.concat ds))); reflexivity.
Qed.

(** X5.  The merge of the binary data arrays of a spectrum: when
    "binaryDataArray" holds a list of mappings, the normaliser returns the
    mapping without that key, updated with each of the mappings in turn.  A
    key is then read from the last of the mappings that has it and only
    otherwise from the spectrum itself, so that arrays of the same name
    replace one another and an array replaces a parameter of the spectrum
    of that name; the only later change is the conversion of "ms level". *)
Theorem arrays_merged_last_wins (R : Runtime) (ds : list dict) (info : dict) :
  dhas "binary" info = false ->
  dget "binaryDataArray" info = Some (VList (map VDict ds)) ->
  exists merged,
    normalize info = coerce_ints intkeys merged
    /\ forall k,
         dget k merged
         = match dget k (rev (List.concat ds)) with
           | Some v => Some v
           | None => if String.eqb k "binaryDataArray" then None
                     else dget k info
           end.
Proof.
  intros Hb H. unfold normalize. rewrite Hb. cbn [bind].
  unfold flatten_arrays. rewrite H. cbn [py_iter bind].
  rewrite update_all_dicts. cbn [bind]. eexists. split; [reflexivity|].
  intros k. rewrite dget_fold_dupdate.
  destruct (dget k (rev (List.concat ds))); [reflexivity|].
  destruct (String.eqb_spec k "binaryDataArray") as [->|Hne].
  - apply dget_ddel_eq.
  - now apply dget_ddel_ne.
Qed.

(** X5 at a spectrum with two arrays of the same name *)
Lemma arrays_merged_last_wins_witness :
  exists merged,
    @normalize little_endian_host
      [("id", VStr "scan=1");
       ("binaryDataArray",
        VList (map VDict [[("m/z array", VArray F32 [1])];
                          [("m/z array", VArray F32 [2])]]))]
    = coerce_ints intkeys merged
    /\ forall k,
         dget k merged
         = match dget k (rev (List.concat [[("m/z array", VArray F32 [1])];
                                      [("m/z array", VArray F32 [2])]])) with
           | Some v => Some v
           | None => if String.eqb k "binaryDataArray" then None
                     else dget k [("id", VStr "scan=1");
                            ("binaryDataArray",
                             VList (map VDict [[("m/z array", VArray F32 [1])];
                                               [("m/z array", VArray F32 [2])]]))]
           end.
Proof.
  apply (@arrays_merged_last_wins little_endian_host
           [[("m/z array", VArray F32 [1])]; [("m/z array", VArray F32 [2])]]).
  - reflexivity.
  - reflexivity.
Defined.

Lemma determine_compression_untagged (info info2 : dict) (c : bool) :
  dhas "zlib compression" info = false ->
  (forall name, dget "name" info = Some name ->
     py_contains "zlib compression" name = Ok true -> False) ->
  determine_compression info = Ok (c, info2) -> c = false.
Proof.
  intros Hz Hn. unfold determine_compression. rewrite Hz.
  destruct (dget "name" info) as [name|] eqn:E.
  - destruct (py_contains "zlib compression" name) as [[|]|] eqn:Ec;
      cbn [bind]; try discriminate.
    + exfalso. now apply (Hn name).
    + match goal with
      | |- context [try_except ?b ?c ?h] => destruct (try_except b c h)
      end; cbn [bind]; [now intros [= <- _]|discriminate].
  - cbn [bind].
    match goal with
    | |- context [try_except ?b ?c ?h] => destruct (try_except b c h)
    end; cbn [bind]; [now intros [= <- _]|discriminate].
Qed.

Lemma decode_binary_uncompressed (R1 R2 : Runtime) (b : value)
    (odt : option dtype) :
  @native_order R1 = @native_order R2 ->
  @decode_binary R1 b odt false = @decode_binary R2 b odt false.
Proof.
  intros H. unfold decode_binary, _decode_base64_data_array. now rewrite H.
Qed.

(** X6.  zlib has no part in the normalisation of a mapping that is not
    tagged as compressed: when "zlib compression" is neither a key nor an
    entry of what is under "name", the result, a record or an exception, is
    the same under any two zlib implementations, on machines of the same
    byte order. *)
Theorem untagged_mapping_never_inflated (R1 R2 : Runtime) (info : dict) :
  @native_order R1 = @native_order R2 ->
  dhas "zlib compression" info = false ->
  (forall name, dget "name" info = Some name ->
     py_contains "zlib compression" name = Ok true -> False) ->
  @normalize R1 info = @normalize R2 info.
Proof.
  intros Ho Hz Hn. unfold normalize.
  destruct (dhas "binary" info); [|reflexivity].
  assert (Hstep : @decode_step R1 info = @decode_step R2 info);
    [|now rewrite Hstep].
  unfold decode_step.
  destruct (determine_dtype info) as [[odt info1]|e] eqn:Ed; [|reflexivity].
  cbn [bind].
  destruct (determine_dtype_keeps _ Ed) as (Hz1 & _ & Hn1).
  destruct (determine_compression info1) as [[c info2]|e] eqn:Ec;
    [|reflexivity].
  cbn [bind].
  assert (c = false) as ->.
  { apply (@determine_compression_untagged info1 info2 c); [congruence| |exact Ec].
    intros name1 Hname1 Hin.
    destruct Hn1 as [Hn1|(t & l & Ht & Hl & Hn1)].
    - apply (Hn name1); [congruence|exact Hin].
    - apply (Hn (VList l)); [exact Hl|].
      rewrite Hn1 in Hname1. injection Hname1 as <-.
      cbn [py_contains] in *.
      rewrite existsb_remove_first_ne in Hin
        by (destruct Ht; subst t; discriminate).
      exact Hin. }
  destruct (dget "binary" info2); [|reflexivity].
  now rewrite (@decode_binary_uncompressed R1 R2 v odt Ho).
Qed.

(** X6 at an uncompressed array, with a zlib that reads stored blocks and
    with one that refuses everything *)
Lemma untagged_mapping_never_inflated_witness :
  @normalize little_endian_host
    [("32-bit float", VStr ""); ("no compression", VStr "");
     ("m/z array", VStr ""); ("binary", VStr "AACAPw==")]
  = @normalize without_zlib
      [("32-bit float", VStr ""); ("no compression", VStr "");
       ("m/z array", VStr ""); ("binary", VStr "AACAPw==")].
Proof.
  apply (@untagged_mapping_never_inflated little_endian_host without_zlib).
  - reflexivity.
  - reflexivity.
  - intros name H. discriminate H.
Defined.

Lemma keys_dset_present (k : string) (v : value) (d : dict) :
  dhas k d = true -> map fst (dset k v d) = map fst d.
Proof.
  unfold dhas, Dict.has, dset, dget.
  induction d as [|[k1 v1] d IH]; cbn [Dict.get Dict.set map fst];
    [discriminate|].
  destruct (String.eqb_spec k k1) as [->|Hne]; [reflexivity|].
  intros H. cbn [map fst]. f_equal. now apply IH.
Qed.

Lemma dset_dset (k : string) (v w : value) (d : dict) :
  dset k v (dset k w d) = dset k v d.
Proof.
  unfold dset. induction d as [|[k1 v1] d IH]; cbn [Dict.set].
  - now rewrite String.eqb_refl.
  - destruct (String.eqb k k1) eqn:E; cbn [Dict.set].
    + now rewrite String.eqb_refl.
    + now rewrite E, IH.
Qed.

(** X7.  A record without binary data (no key "binary", no key
    "binaryDataArray"): the normaliser returns it with the same keys in the
    same order and the same values, "ms level" apart, which has become an
    integer; a second normalisation changes nothing. *)
Theorem scalar_record_kept (R : Runtime) (info out : dict) :
  dhas "binary" info = false -> dhas "binaryDataArray" info = false ->
  normalize info = Ok out ->
  map fst out = map fst info
  /\ (forall k, k <> "ms level" -> dget k out = dget k info)
  /\ normalize out = Ok out.
Proof.
  intros Hb Ha. unfold normalize at 1. rewrite Hb. cbn [bind].
  unfold flatten_arrays at 1. rewrite dhas_dget in Ha.
  destruct (dget "binaryDataArray" info) eqn:Ea; [discriminate|].
  cbn [bind]. unfold intkeys. cbn [coerce_ints].
  destruct (dget "ms level" info) as [w|] eqn:Em.
  - destruct (py_int w) as [i|] eqn:Ei; cbn [bind]; [|discriminate].
    intros [= <-].
    destruct (py_int_is_int _ Ei) as (z & ->).
    split; [|split].
    + apply keys_dset_present. now rewrite dhas_dget, Em.
    + intros k Hk. now apply dget_dset_ne.
    + unfold normalize. rewrite dhas_dset_ne by discriminate.
      rewrite Hb. cbn [bind].
      unfold flatten_arrays. rewrite dget_dset_ne by discriminate.
      rewrite Ea. cbn [bind]. unfold intkeys. cbn [coerce_ints].
      rewrite dget_dset_eq. cbn [py_int bind]. now rewrite dset_dset.
  - intros [= <-]. split; [reflexivity|]. split; [reflexivity|].
    unfold normalize. rewrite Hb. cbn [bind]. unfold flatten_arrays.
    rewrite Ea. cbn [bind]. unfold intkeys. cbn [coerce_ints].
    now rewrite Em.
Qed.

(** X7 at a record whose level is written with blanks around it *)
Lemma scalar_record_kept_witness :
  map fst [("id", VStr "scan=1"); ("ms level", VInt 2)]
  = map fst [("id", VStr "scan=1"); ("ms level", VStr " 2 ")]
  /\ (forall k, k <> "ms level" ->
        dget k [("id", VStr "scan=1"); ("ms level", VInt 2)]
        = dget k [("id", VStr "scan=1"); ("ms level", VStr " 2 ")])
  /\ @normalize little_endian_host [("id", VStr "scan=1"); ("ms level", VInt 2)]
     = Ok [("id", VStr "scan=1"); ("ms level", VInt 2)].
Proof.
  apply (@scalar_record_kept little_endian_host
           [("id", VStr "scan=1"); ("ms level", VStr " 2 ")]).
  - reflexivity.
  - reflexivity.
  - reflexivity.
Defined.

End NormalizerPaths.

(* ------------------------------------------------------------------ *)
(** ** The decoder and its buffer *)
(* ------------------------------------------------------------------ *)

Module DecoderBuffers.
Import BytesFacts NumpyFacts.

Lemma le_value_range (c : list byte) :
  0 <= le_value c < 256 ^ Z.of_nat (List.length c).
Proof.
  induction c as [|b c IH]; cbn [le_value List.length].
  - cbn. lia.
  - pose proof (b2z_range b). rewrite Nat2Z.inj_succ, Z.pow_succ_r by lia. lia.
Qed.

Lemma word_value_range (order : byteorder) (c : list byte) :
  0 <= word_value order c < 256 ^ Z.of_nat (List.length c).
Proof.
  destruct order; cbn [word_value].
  - apply le_value_range.
  - rewrite <- length_rev. apply le_value_range.
Qed.

Lemma z2b_add_mul (b : byte) (v : Z) : z2b (b2z b + 256 * v) = b.
Proof.
  pose proof (b2z_range b) as Hb.
  assert (E : z2b (b2z b + 256 * v) = z2b (b2z b)).
  { unfold z2b.
    replace ((b2z b + 256 * v) mod 256) with (b2z b mod 256); [reflexivity|].
    replace (b2z b + 256 * v) with (b2z b + v * 256) by lia.
    now rewrite Z.mod_add by lia. }
  rewrite E. apply z2b_b2z.
Qed.

Lemma le_bytes_le_value (c : list byte) :
  le_bytes (List.length c) (le_value c) = c.
Proof.
  induction c as [|b c IH]; cbn [le_value List.length le_bytes]; [reflexivity|].
  rewrite z2b_add_mul. f_equal.
  pose proof (b2z_range b) as Hb.
  replace ((b2z b + 256 * le_value c) / 256) with (le_value c); [exact IH|].
  replace (b2z b + 256 * le_value c) with (b2z b + le_value c * 256) by lia.
  rewrite Z.div_add by lia. rewrite (Z.div_small (b2z b)) by lia. lia.
Qed.

(** a buffer of [q] items of [n] bytes falls into [q] groups of [n] bytes
    that make up the buffer *)
Lemma chunks_exact (n : nat) (q fuel : nat) (bs : list byte) :
  (0 < n)%nat -> List.length bs = (q * n)%nat -> (List.length bs <= fuel)%nat ->
  Forall (fun c => List.length c = n) (chunks fuel n bs)
  /\ List.length (chunks fuel n bs) = q
  /\ List.concat (chunks fuel n bs) = bs.
Proof.
  intros Hn. revert fuel bs. induction q as [|q IH]; intros fuel bs Hlen Hfuel.
  - destruct bs; [|discriminate]. destruct fuel; cbn; repeat split; constructor.
  - destruct bs as [|b bs']; [cbn in Hlen; lia|].
    destruct fuel as [|fuel]; [cbn in Hfuel; lia|].
    cbn [chunks]. cbn [Nat.mul] in Hlen.
    assert (Hfuel' : (q * n <= fuel)%nat)
      by (cbn [List.length] in Hlen, Hfuel; lia).
    set (l := b :: bs') in *.
    assert (Hf : List.length (firstn n l) = n)
      by (rewrite length_firstn; lia).
    assert (Hs : List.length (skipn n l) = (q * n)%nat)
      by (rewrite length_skipn; lia).
    destruct (IH fuel (skipn n l) Hs) as (A & B & C).
    { rewrite Hs. exact Hfuel'. }
    repeat split.
    + constructor; assumption.
    + cbn [List.length]. now rewrite B.
    + cbn [List.concat]. rewrite C. apply firstn_skipn.
Qed.

Lemma tobytes_of_values (n : nat) (cs : list (list byte)) :
  Forall (fun c => List.length c = n) cs ->
  flat_map (le_bytes n) (map le_value cs) = List.concat cs.
Proof.
  induction 1 as [|c cs Hc _ IH]; cbn [map flat_map List.concat]; [reflexivity|].
  rewrite IH. f_equal. rewrite <- Hc at 1. apply le_bytes_le_value.
Qed.

(** X8.  What the decoder makes of the bytes that base64 and, for a
    compressed payload, zlib deliver.  If their number is a multiple of the
    item size (4 for 'f', 8 for 'd'), the result is an array of the
    requested type with one element for each group of that many bytes,
    each element a bit pattern of the type's width, and on a little-endian
    machine the byte image of that array is the buffer again: nothing is
    dropped, padded or reordered.  Otherwise ValueError is raised. *)
Theorem decoded_array_is_the_buffer (R : Runtime) (source : value)
    (dt : dtype) (is_compressed : bool) (cs : list Z) (raw buf : list byte) :
  py_encode_ascii source = Ok cs ->
  b64decode cs = Ok raw ->
  (if is_compressed then zlib_decompress raw else Ok raw) = Ok buf ->
  (Nat.modulo (List.length buf) (itemsize dt) = 0%nat ->
   exists elems,
     _decode_base64_data_array source dt is_compressed = Ok (VArray dt elems)
     /\ (List.length elems * itemsize dt)%nat = List.length buf
     /\ Forall (fun x => 0 <= x < 256 ^ Z.of_nat (itemsize dt)) elems
     /\ (native_order = LittleEndian -> tobytes_le dt elems = buf))
  /\ (Nat.modulo (List.length buf) (itemsize dt) <> 0%nat ->
      _decode_base64_data_array source dt is_compressed = Raise ValueError).
Proof.
  intros Hs Hb Hz. unfold _decode_base64_data_array.
  rewrite Hs. cbn [bind]. rewrite Hb. cbn [bind]. rewrite Hz. cbn [bind].
  unfold frombuffer.
  assert (Hn : (0 < itemsize dt)%nat) by (destruct dt; cbn; lia).
  split.
  - intros Hm. rewrite Hm. cbn [Nat.eqb].
    assert (Hq : List.length buf
                 = (List.length buf / itemsize dt * itemsize dt)%nat).
    { pose proof (Nat.div_mod_eq (List.length buf) (itemsize dt)). lia. }
    destruct (@chunks_exact (itemsize dt) _ (List.length buf) buf Hn Hq
                (Nat.le_refl _)) as (A & B & C).
    eexists. split; [reflexivity|]. split; [|split].
    + rewrite length_map, B. lia.
    + apply Forall_map. eapply Forall_impl; [|exact A].
      intros c Hc. cbn beta. rewrite <- Hc. apply word_value_range.
    + intros Ho. rewrite Ho. unfold tobytes_le. cbn [word_value].
      change (map (fun bs => le_value bs)) with (map le_value).
      rewrite tobytes_of_values by exact A. exact C.
  - intros Hm. apply Nat.eqb_neq in Hm. now rewrite Hm.
Qed.

(** X8 at the eight bytes of the 32-bit floats 1.0 and 2.0 *)
Lemma decoded_array_is_the_buffer_witness :
  (Nat.modulo 8 (itemsize F32) = 0%nat ->
   exists elems,
     @_decode_base64_data_array little_endian_host
       (VStr "AACAPwAAAEA=") F32 false = Ok (VArray F32 elems)
     /\ (List.length elems * itemsize F32)%nat = 8%nat
     /\ Forall (fun x => 0 <= x < 256 ^ Z.of_nat (itemsize F32)) elems
     /\ (@native_order little_endian_host = LittleEndian ->
         tobytes_le F32 elems = [x00; x00; x80; x3f; x00; x00; x00; x40]))
  /\ (Nat.modulo 8 (itemsize F32) <> 0%nat ->
      @_decode_base64_data_array little_endian_host
        (VStr "AACAPwAAAEA=") F32 false = Raise ValueError).
Proof.
  apply (@decoded_array_is_the_buffer little_endian_host
           (VStr "AACAPwAAAEA=") F32 false
           (codes "AACAPwAAAEA=")
           [x00; x00; x80; x3f; x00; x00; x00; x40]
           [x00; x00; x80; x3f; x00; x00; x00; x40]).
  - reflexivity.
  - vm_compute. reflexivity.
  - reflexivity.
Defined.

Lemma encode_ascii_error (s : string) (e : exn) :
  encode_ascii s = Raise e -> e = UnicodeEncodeError.
Proof.
  induction s as [|c s IH]; cbn [encode_ascii]; [discriminate|].
  destruct (code c <? 128); [|now intros [= <-]].
  destruct (encode_ascii s); cbn [bind]; [discriminate|].
  intros [= <-]. now apply IH.
Qed.

Lemma encode_ascii_app (s1 s2 : string) :
  encode_ascii (s1 ++ s2)
  = (l1 <- encode_ascii s1 ;; l2 <- encode_ascii s2 ;; Ok (l1 ++ l2)).
Proof.
  induction s1 as [|c s1 IH]; cbn [String.append encode_ascii bind].
  - now destruct (encode_ascii s2).
  - destruct (code c <? 128); [|reflexivity].
    rewrite IH. destruct (encode_ascii s1); cbn [bind]; [|reflexivity].
    now destruct (encode_ascii s2).
Qed.

(** a character outside the alphabet is passed over wherever it stands *)
Lemma a2b_base64_skip (ch : Z) (l1 l2 : list Z) (quad_pos leftchar pads : Z) :
  a2b ch = None -> ch <> 61 ->
  a2b_base64 (l1 ++ ch :: l2) quad_pos leftchar pads
  = a2b_base64 (l1 ++ l2) quad_pos leftchar pads.
Proof.
  intros Ha Hp. revert quad_pos leftchar pads.
  induction l1 as [|c l1 IH]; intros quad_pos leftchar pads;
    cbn [app a2b_base64].
  - apply Z.eqb_neq in Hp. now rewrite Hp, Ha.
  - destruct (c =? 61).
    + destruct ((2 <=? quad_pos) && (4 <=? quad_pos + (pads + 1)));
        [reflexivity|apply IH].
    + destruct (a2b c); [|apply IH].
      destruct (quad_pos =? 0); [apply IH|].
      destruct (quad_pos =? 1); [now rewrite IH|].
      destruct (quad_pos =? 2); now rewrite IH.
Qed.

(** X9.  The decoder does not see the characters of a payload that are
    ASCII but belong neither to the base64 alphabet nor to its padding
    (line ends, blanks, ...): with or without such a character, anywhere in
    the text, the result is the same, array or exception. *)
Theorem payload_layout_is_ignored (R : Runtime) (s1 s2 : string) (ch : ascii)
    (dt : dtype) (is_compressed : bool) :
  code ch < 128 -> a2b (code ch) = None -> code ch <> 61 ->
  _decode_base64_data_array (VStr (s1 ++ String ch s2)) dt is_compressed
  = _decode_base64_data_array (VStr (s1 ++ s2)) dt is_compressed.
Proof.
  intros Hascii Ha Hp. unfold _decode_base64_data_array.
  cbn [py_encode_ascii]. rewrite !encode_ascii_app.
  destruct (encode_ascii s1) as [l1|e1]; cbn [bind]; [|reflexivity].
  cbn [encode_ascii]. apply Z.ltb_lt in Hascii. rewrite Hascii.
  destruct (encode_ascii s2) as [l2|e2]; cbn [bind]; [|reflexivity].
  unfold b64decode. now rewrite a2b_base64_skip.
Qed.

(** X9 at the same payload broken into two lines *)
Lemma payload_layout_is_ignored_witness :
  @_decode_base64_data_array little_endian_host
    (VStr ("AACAPw" ++ String (ascii_of_nat 10) "AAAEA=")) F32 false
  = @_decode_base64_data_array little_endian_host
      (VStr ("AACAPw" ++ "AAAEA=")) F32 false.
Proof.
  apply (@payload_layout_is_ignored little_endian_host "AACAPw" "AAAEA="
           (ascii_of_nat 10) F32 false).
  - vm_compute. reflexivity.
  - reflexivity.
  - vm_compute. discriminate.
Defined.

End DecoderBuffers.

(* ------------------------------------------------------------------ *)
(** ** The forward scan and the generator *)
(* ------------------------------------------------------------------ *)

Module ReaderScans.
Import TrailerFacts ReaderFacts.

Section Generic.
Context {X : XMLBase} {R : Runtime} {I : XMLInherited} {P : Platform}.

Lemma scan_events_none (events : list (event * Element)) (elem_id : string)
    (found : bool) :
  Forall (passes_by elem_id) events ->
  fst (scan_events events elem_id found) = None.
Proof.
  intros H. revert found.
  induction H as [|[[|] e] rest Hev _ IH]; intros found; cbn [scan_events].
  - reflexivity.
  - apply IH.
  - cbn [passes_by] in Hev. rewrite Hev. specialize (IH found).
    destruct (scan_events rest elem_id found). exact IH.
Qed.

Lemma scan_events_nothing_cleared (events : list (event * Element))
    (elem_id : string) :
  snd (scan_events events elem_id true) = [].
Proof.
  induction events as [|[[|] e] rest IH]; cbn [scan_events orb].
  - reflexivity.
  - exact IH.
  - destruct (has_id e elem_id); [reflexivity|].
    destruct (scan_events rest elem_id true). exact IH.
Qed.

(** X10.  The forward scan returns the element of the first end event
    that carries the id.  What the parser would deliver after it is never
    asked for: events that follow, and a failure of the parser further on
    in the file, do not change the result. *)
Theorem scan_stops_at_first_hit (src : file) (elem_id : string)
    (before after : list (event * Element)) (elem : Element)
    (failure : option exn) :
  closed src = false ->
  iterparse (remaining src) = (before ++ (end_, elem) :: after, failure) ->
  Forall (passes_by elem_id) before ->
  has_id elem elem_id = true ->
  _find_by_id_no_reset src elem_id = Ok (Some elem).
Proof.
  intros Hc Hp Hb Hid. unfold _find_by_id_no_reset. rewrite Hc, Hp.
  now rewrite (@scan_events_hit _ before after elem elem_id false Hb Hid).
Qed.

(** X11.  An entry of the index whose offset leads to no element with
    its id.  The lookup takes the indexed path all the same: if the parser
    fails on the rest of the file, its error is the outcome (the base class
    being asked only if that error is a KeyError); if the parser reaches
    the end, the scan returns None without raising and it is the conversion
    of None that decides. *)
Theorem lookup_without_hit (self : IndexedMzML) (elem_id : string)
    (index : offsets_t) (offset : Z) (src : file)
    (events : list (event * Element)) (failure : option exn) :
  spectrum_index self = Ok index ->
  Dict.get String.eqb elem_id index = Some offset ->
  seek_file (_source self) offset 0 = Ok src ->
  iterparse (remaining src) = (events, failure) ->
  Forall (passes_by elem_id) events ->
  _find_by_id_no_reset src elem_id
  = match failure with Some e => Raise e | None => Ok None end
  /\ indexed_get_by_id self elem_id
     = match failure with
       | Some e => Raise e
       | None => _get_info_smart None (Some true)
       end.
Proof.
  intros Hi Ho Hs Hp Hev.
  assert (Hc : closed src = false) by exact (seek_file_open _ _ _ Hs).
  assert (Hfind : _find_by_id_no_reset src elem_id
                  = match failure with Some e => Raise e | None => Ok None end).
  { unfold _find_by_id_no_reset. rewrite Hc, Hp.
    rewrite (@scan_events_none events elem_id false Hev). now destruct failure. }
  split; [exact Hfind|].
  unfold indexed_get_by_id. rewrite Hi. cbn [bind].
  unfold getitem. rewrite Ho. cbn [bind]. rewrite Hs. cbn [bind].
  rewrite Hfind. now destruct failure.
Qed.

(** X12.  Which elements the forward scan clears.  Up to the start tag
    of the element looked for, every element that ends is cleared; from that
    start tag on nothing is, so that the element returned keeps its
    children and nothing that ends inside it is emptied. *)
Theorem clearing_stops_at_the_target (before after : list (event * Element))
    (elem : Element) (elem_id : string) :
  Forall (fun ev => has_id (snd ev) elem_id = false) before ->
  has_id elem elem_id = true ->
  snd (scan_events (before ++ (start, elem) :: after) elem_id false)
  = map snd (filter (fun ev => match fst ev with end_ => true | start => false end)
               before).
Proof.
  intros Hb Hid.
  induction Hb as [|[[|] e] rest Hev _ IH]; cbn [app scan_events filter map fst snd].
  - rewrite Hid. cbn [orb]. apply scan_events_nothing_cleared.
  - cbn [snd] in Hev. rewrite Hev. cbn [orb]. exact IH.
  - cbn [snd] in Hev. rewrite Hev.
    destruct (scan_events (rest ++ (start, elem) :: after) elem_id false)
      as [r cleared]. cbn [snd map] in *. now rewrite IH.
Qed.

Lemma yield_items_prefix (self : IndexedMzML) (l1 l2 : list (string * Z))
    (scan_id : string) (o : Z) (ds : list dict) (e : exn) :
  lookups self l1 = Ok ds -> get_by_id self scan_id = Raise e ->
  yield_items self (l1 ++ (scan_id, o) :: l2) = (ds, Some e).
Proof.
  intros Hl He. revert ds Hl.
  induction l1 as [|[id1 o1] l1 IH]; intros ds; cbn [app lookups yield_items].
  - intros [= <-]. now rewrite He.
  - destruct (get_by_id self id1) as [d|]; cbn [bind]; [|discriminate].
    destruct (lookups self l1) as [ds'|]; cbn [bind]; [|discriminate].
    intros [= <-]. now rewrite (IH ds' eq_refl).
Qed.

(** X13.  Iteration in which a lookup raises.  The records of the
    entries before it, in the order of the offsets, have been yielded.  Any
    exception but KeyError then ends the iteration.  A KeyError is caught
    by the handler meant for a missing category: what the base class's scan
    for spectrum elements yields follows the records yielded so far, and
    the scan is not told which spectra these were. *)
Theorem iteration_interrupted (self : IndexedMzML) (index : offsets_t)
    (l1 l2 : list (string * Z)) (scan_id : string) (o : Z) (ds : list dict)
    (e : exn) :
  spectrum_index self = Ok index ->
  sorted_by_offset index = l1 ++ (scan_id, o) :: l2 ->
  lookups self l1 = Ok ds ->
  get_by_id self scan_id = Raise e ->
  __iter__ self
  = if exn_eqb e KeyError
    then (ds ++ fst (iterfind (_source self) "spectrum"),
          snd (iterfind (_source self) "spectrum"))
    else (ds, Some e).
Proof.
  intros Hi Hs Hl He. unfold __iter__. rewrite Hi, Hs.
  rewrite (@yield_items_prefix self l1 l2 scan_id o ds e Hl He).
  destruct e; cbn [exn_eqb]; try reflexivity.
  now destruct (iterfind (_source self) "spectrum").
Qed.

(** X14.  A reader whose source is closed: for every id of the
    "spectrum" category the lookup raises ValueError, from the seek on the
    closed file; the error is no KeyError, so the base class is not asked.
    Ids outside the category still go to the base class. *)
Theorem lookup_on_closed_source (self : IndexedMzML) (elem_id : string)
    (index : offsets_t) :
  closed (_source self) = true ->
  spectrum_index self = Ok index ->
  get_by_id self elem_id
  = match Dict.get String.eqb elem_id index with
    | Some _ => Raise ValueError
    | None => super_get_by_id (_source self) elem_id
    end.
Proof.
  intros Hc Hi. unfold get_by_id, indexed_get_by_id, getitem.
  rewrite Hi. cbn [bind].
  destruct (Dict.get String.eqb elem_id index) as [offset|]; cbn [bind].
  - unfold seek_file. rewrite Hc. reflexivity.
  - reflexivity.
Qed.

End Generic.

End ReaderScans.

(* ------------------------------------------------------------------ *)
(** ** The files of the constructor *)
(* ------------------------------------------------------------------ *)

Module Construction.
Import Layout TrailerFacts.

Section Generic.
Context {X : XMLBase} {R : Runtime} {I : XMLInherited} {P : Platform}.

(** [_build_index] ends where [find_index_list_offset] does *)
Lemma build_index_stops_at_the_trailer (self : IndexedMzML) (e : exn)
    (log : list op) :
  find_index_list_offset (FileObj (_source self)) [] = (Raise e, log) ->
  run (_build_index self) = (Raise e, log).
Proof.
  intros Hoff. unfold run, _build_index, find_index_list, iobind.
  now rewrite Hoff.
Qed.

(** X15.  What [_build_index] does to the file of the reader.  It never
    returns, and nothing is closed.  An open binary stream is rewound and
    sought to 1024 bytes before its end; a stream of fewer bytes refuses
    that, and of a longer one the last 1024 bytes are read and refused by
    the text pattern.  An open text stream refuses the seek from the end.
    A closed file object is opened again by name, as a text stream, which
    refuses the seek as well; when the file cannot be opened, the error of
    [open] is the outcome. *)
Theorem build_index_never_returns (self : IndexedMzML) :
  let f := _source self in
  run (_build_index self)
  = (if closed f then
       match on_disk f with
       | Ok _ => (Raise IOError, [Open (name f); Seek 0 0; Seek (-1024) 2])
       | Raise e => (Raise e, [Open (name f)])
       end
     else
       match opened_as f with
       | TextMode => (Raise IOError, [Seek 0 0; Seek (-1024) 2])
       | BinaryMode =>
           if (size f <? 1024) || (seek_limit <=? size f - 1024)
           then (Raise IOError, [Seek 0 0; Seek (-1024) 2])
           else (Raise TypeError, [Seek 0 0; Seek (-1024) 2; Read 1024])
       end)
  /\ filter is_close (snd (run (_build_index self))) = []
  /\ (forall r, fst (run (_build_index self)) <> Ok r).
Proof.
  intros f.
  pose proof (find_index_list_offset_outcome (FileObj (_source self)) [])
    as Hout.
  fold f in Hout. cbn [app] in Hout. revert Hout.
  destruct (closed f); [destruct (on_disk f)|
    destruct (opened_as f);
      [|destruct ((size f <? 1024) || (seek_limit <=? size f - 1024))]];
    intros Hout; rewrite (build_index_stops_at_the_trailer self Hout);
    (split; [reflexivity|]); (split; [reflexivity|]);
    intros r; discriminate.
Qed.

(** X16.  The constructor never returns a reader.  When the base class's
    constructor and the first [reset] have returned, [_build_index] is
    called on the file object they left and raises; its error is that of
    the constructor.  The second [reset] is not reached and nothing is
    closed: an error of the base class apart, the file operations are
    those of [_build_index]. *)
Theorem constructor_never_completes (args : source) :
  exists e log,
    run (__init__ args) = (Raise e, log)
    /\ filter is_close log = []
    /\ run (__init__ args)
       = match bind (xml_init args) reset with
         | Ok src =>
             (Raise e,
              snd (run (_build_index {| _source := src;
                                        _offset_index := None |})))
         | Raise e' => (Raise e', [])
         end.
Proof.
  unfold run at 1 3, __init__. unfold iobind at 1 2 5 6. unfold lift at 1 2 4 5.
  destruct (xml_init args) as [src|e0]; cbn [bind].
  2:{ exists e0, []. repeat split. }
  destruct (reset src) as [src'|e0].
  2:{ exists e0, []. repeat split. }
  pose proof (find_index_list_offset_outcome (FileObj src') []) as Hout.
  cbn [app] in Hout.
  assert (Hrun : exists e log,
            find_index_list_offset (FileObj src') [] = (Raise e, log)
            /\ filter is_close log = []).
  { rewrite Hout. destruct (closed src').
    - destruct (on_disk src'); eexists; eexists; split; reflexivity.
    - destruct (opened_as src').
      + eexists; eexists; split; reflexivity.
      + destruct ((size src' <? 1024) || (seek_limit <=? size src' - 1024));
          eexists; eexists; split; reflexivity. }
  destruct Hrun as (e & log & Hoff & Hclose).
  pose proof (@build_index_stops_at_the_trailer
                {| _source := src'; _offset_index := None |} e log Hoff)
    as Hbuild.
  unfold run in Hbuild. exists e, log.
  unfold iobind. unfold run. rewrite Hbuild. repeat split. exact Hclose.
Qed.

End Generic.

End Construction.

(* ------------------------------------------------------------------ *)
(** ** The index list in its usual layout *)
(* ------------------------------------------------------------------ *)

Module LayoutFacts.
Import Layout.

Local Open Scope string_scope.

Lemma append_assoc (a b c : string) : (a ++ b) ++ c = a ++ (b ++ c).
Proof. induction a as [|x a IH]; cbn; [reflexivity|now rewrite IH]. Qed.

Lemma strip_prefix_append (p s : string) : strip_prefix p (p ++ s) = Some s.
Proof.
  induction p as [|a p IH]; cbn [String.append strip_prefix].
  - now destruct s.
  - now rewrite Ascii.eqb_refl.
Qed.

Lemma strip_prefix_inv (p s r : string) :
  strip_prefix p s = Some r -> s = p ++ r.
Proof.
  revert s. induction p as [|a p IH]; intros s; cbn [strip_prefix String.append].
  - destruct s; now intros [= <-].
  - destruct s as [|b s]; [discriminate|].
    destruct (Ascii.eqb_spec a b) as [->|]; [|discriminate].
    intros H. now rewrite (IH _ H).
Qed.

Lemma span_append (ok : ascii -> bool) (a b : string) :
  all_chars ok a = true ->
  span ok (a ++ b) = (a ++ fst (span ok b), snd (span ok b)).
Proof.
  induction a as [|c a IH]; cbn [all_chars String.append span].
  - intros _. now destruct (span ok b).
  - intros H. apply andb_prop in H as [Hc Ha]. rewrite Hc, (IH Ha). reflexivity.
Qed.

Lemma span_inv (ok : ascii -> bool) (s : string) :
  s = fst (span ok s) ++ snd (span ok s).
Proof.
  induction s as [|c s IH]; cbn [span]; [reflexivity|].
  destruct (ok c); [|reflexivity].
  destruct (span ok s) as [run rest]. cbn [fst snd String.append] in *.
  now rewrite <- IH.
Qed.

Lemma quotes_append (a b : string) : quotes (a ++ b) = (quotes a + quotes b)%nat.
Proof.
  induction a as [|c a IH]; cbn [String.append quotes]; [reflexivity|].
  rewrite IH. lia.
Qed.

Lemma quotes_none (ok : ascii -> bool) (s : string) :
  ok dquote = false -> all_chars ok s = true -> quotes s = 0%nat.
Proof.
  intros Hq. induction s as [|c s IH]; cbn [all_chars quotes]; [reflexivity|].
  intros H. apply andb_prop in H as [Hc Hs]. rewrite (IH Hs).
  destruct (Ascii.eqb_spec c dquote) as [->|]; [congruence|reflexivity].
Qed.

Lemma all_chars_impl (ok ok' : ascii -> bool) (s : string) :
  (forall c, ok c = true -> ok' c = true) ->
  all_chars ok s = true -> all_chars ok' s = true.
Proof.
  intros Himp. induction s as [|c s IH]; cbn [all_chars]; [reflexivity|].
  intros H. apply andb_prop in H as [Hc Hs]. now rewrite (Himp _ Hc), IH.
Qed.

(** decimal numerals *)

Lemma digits_of_uint (d : Decimal.uint) (acc : Z) :
  0 <= acc ->
  digits_value acc (NilEmpty.string_of_uint d)
  = Some (Z.of_nat (Nat.of_uint_acc d (Z.to_nat acc))).
Proof.
  revert acc.
  induction d as [|d IH|d IH|d IH|d IH|d IH|d IH|d IH|d IH|d IH|d IH];
    intros acc Hacc;
    cbn [NilEmpty.string_of_uint digits_value Nat.of_uint_acc];
    try (rewrite Z2Nat.id by exact Hacc; reflexivity);
    change (is_digit _) with true; cbv iota;
    match goal with
    | |- context [digit_val ?c] =>
        let v := eval vm_compute in (digit_val c) in
        change (digit_val c) with v
    end;
    rewrite IH by lia; do 3 f_equal;
    rewrite Nat.tail_mul_spec; lia.
Qed.

Lemma int_of_decimal (n : nat) : int_of_digits (Fixture.decimal n) = Z.of_nat n.
Proof.
  unfold int_of_digits, Fixture.decimal.
  rewrite digits_of_uint by lia. cbn [Z.to_nat].
  change (Nat.of_uint_acc (Nat.to_uint n) 0) with (Nat.of_uint (Nat.to_uint n)).
  now rewrite Unsigned.of_to.
Qed.

Lemma digits_of_uint_all (d : Decimal.uint) :
  all_chars is_digit (NilEmpty.string_of_uint d) = true.
Proof.
  induction d; cbn [NilEmpty.string_of_uint all_chars]; try reflexivity;
    change (is_digit _) with true; exact IHd.
Qed.

Lemma decimal_digits (n : nat) : all_chars is_digit (Fixture.decimal n) = true.
Proof. apply digits_of_uint_all. Qed.

Lemma decimal_nonempty (n : nat) : nonempty (Fixture.decimal n) = true.
Proof.
  unfold Fixture.decimal.
  destruct (Nat.to_uint n) eqn:E; try reflexivity.
  exfalso. pose proof (Unsigned.of_to n) as H. rewrite E in H.
  cbn in H. subst n. discriminate E.
Qed.

(** the three patterns on the lines of the layout *)

Lemma prefix_inv (p s : string) : prefix p s = true -> exists r, s = p ++ r.
Proof.
  revert s. induction p as [|a p IH]; intros s.
  - intros _. now exists s.
  - destruct s as [|b s]; cbn [prefix String.append]; [discriminate|].
    destruct (Ascii.ascii_dec a b) as [->|]; [|discriminate].
    intros H. destruct (IH _ H) as (r & ->). now exists r.
Qed.

Lemma greedy_before_inv (stop r g : string) :
  greedy_before stop r = Some g -> exists t, r = g ++ stop ++ t.
Proof.
  revert g. induction r as [|c r IH]; intros g; cbn [greedy_before];
    [discriminate|].
  destruct (greedy_before stop r) as [p|].
  - intros [= <-]. destruct (IH p eq_refl) as (t & ->). now exists t.
  - destruct (prefix stop r) eqn:E; [|discriminate].
    intros [= <-]. destruct (prefix_inv _ _ E) as (t & ->). now exists t.
Qed.

Lemma prefix_append (p s : string) : prefix p (p ++ s) = true.
Proof.
  induction p as [|a p IH]; cbn [String.append prefix].
  - now destruct s.
  - destruct (Ascii.ascii_dec a a); [exact IH|congruence].
Qed.

(** the greedy group takes the whole name *)
Lemma greedy_before_name (nm : string) :
  nonempty nm = true -> greedy_before quote_gt (nm ++ quote_gt) = Some nm.
Proof.
  induction nm as [|c nm IH]; [discriminate|]. intros _.
  cbn [String.append greedy_before].
  destruct nm as [|c' nm].
  - reflexivity.
  - now rewrite (IH eq_refl).
Qed.

Lemma match_index_name_here (nm : string) :
  index_name_ok nm = true ->
  match_index_name (name_open ++ (nm ++ (quote_gt ++ eol))) = Some nm.
Proof.
  intros H. apply andb_prop in H as [Hne Hall].
  unfold match_index_name. fold name_open. rewrite strip_prefix_append.
  rewrite (span_append (fun c => negb (re_space c)) nm (quote_gt ++ eol) Hall).
  change (fst (span (fun c => negb (re_space c)) (quote_gt ++ eol)))
    with quote_gt.
  cbn [snd]. now apply greedy_before_name.
Qed.

Lemma search_index_name_blank (s : string) :
  search_index_name (String " " s) = search_index_name s.
Proof. reflexivity. Qed.

Lemma search_offset_blank (s : string) :
  search_offset (String " " s) = search_offset s.
Proof. reflexivity. Qed.

Lemma search_index_name_indent (n : nat) (s : string) :
  search_index_name (Fixture.spaces n ++ s) = search_index_name s.
Proof.
  induction n as [|n IH]; [reflexivity|].
  cbn [Fixture.spaces String.append]. now rewrite search_index_name_blank.
Qed.

Lemma search_offset_indent (n : nat) (s : string) :
  search_offset (Fixture.spaces n ++ s) = search_offset s.
Proof.
  induction n as [|n IH]; [reflexivity|].
  cbn [Fixture.spaces String.append]. now rewrite search_offset_blank.
Qed.

Lemma search_index_name_here (s g : string) :
  match_index_name s = Some g -> search_index_name s = Some g.
Proof. intros H. destruct s; cbn [search_index_name]; now rewrite H. Qed.

Lemma search_offset_here (s : string) (g : string * Z) :
  match_offset s = Some g -> search_offset s = Some g.
Proof. intros H. destruct s; cbn [search_offset]; now rewrite H. Qed.

(** a match of the name pattern or of the offset pattern spans two
    quotes *)
Lemma match_index_name_quotes (s g : string) :
  match_index_name s = Some g -> (2 <= quotes s)%nat.
Proof.
  unfold match_index_name. fold name_open.
  destruct (strip_prefix name_open s) as [s1|] eqn:E; [|discriminate].
  apply strip_prefix_inv in E. subst s.
  pose proof (span_inv (fun c => negb (re_space c)) s1) as Hs.
  destruct (span (fun c => negb (re_space c)) s1) as [run rest].
  cbn [fst snd] in Hs. intros Hg.
  destruct (greedy_before_inv _ _ Hg) as (t & ->). subst s1.
  rewrite !quotes_append.
  change (quotes name_open) with 1%nat. change (quotes quote_gt) with 1%nat.
  lia.
Qed.

Lemma search_index_name_quotes (s g : string) :
  search_index_name s = Some g -> (2 <= quotes s)%nat.
Proof.
  induction s as [|c s IH]; cbn [search_index_name].
  - destruct (match_index_name "") eqn:E; [|discriminate].
    intros _. now apply match_index_name_quotes in E.
  - destruct (match_index_name (String c s)) eqn:E.
    + intros _. now apply match_index_name_quotes in E.
    + intros H. apply IH in H. cbn [quotes]. lia.
Qed.

Lemma match_offset_quotes (s : string) (g : string * Z) :
  match_offset s = Some g -> (2 <= quotes s)%nat.
Proof.
  unfold match_offset. fold offset_open.
  destruct (strip_prefix offset_open s) as [s1|] eqn:E; [|discriminate].
  apply strip_prefix_inv in E. subst s.
  pose proof (span_inv not_quote s1) as Hs.
  destruct (span not_quote s1) as [id_ref s2]. cbn [fst snd] in Hs.
  destruct id_ref as [|c id_ref]; [discriminate|].
  destruct (strip_prefix quote_gt s2) as [s3|] eqn:E2; [|discriminate].
  apply strip_prefix_inv in E2. subst s2 s1. intros _.
  rewrite !quotes_append.
  change (quotes offset_open) with 1%nat. change (quotes quote_gt) with 1%nat.
  lia.
Qed.

Lemma search_offset_quotes (s : string) (g : string * Z) :
  search_offset s = Some g -> (2 <= quotes s)%nat.
Proof.
  induction s as [|c s IH]; cbn [search_offset].
  - destruct (match_offset "") eqn:E; [|discriminate].
    intros _. now apply match_offset_quotes in E.
  - destruct (match_offset (String c s)) eqn:E.
    + intros _. now apply match_offset_quotes in E.
    + intros H. apply IH in H. cbn [quotes]. lia.
Qed.

Lemma search_index_name_few_quotes (s : string) :
  (quotes s < 2)%nat -> search_index_name s = None.
Proof.
  intros H. destruct (search_index_name s) eqn:E; [|reflexivity].
  apply search_index_name_quotes in E. lia.
Qed.

Lemma search_offset_few_quotes (s : string) :
  (quotes s < 2)%nat -> search_offset s = None.
Proof.
  intros H. destruct (search_offset s) eqn:E; [|reflexivity].
  apply search_offset_quotes in E. lia.
Qed.

Lemma quotes_id (id : string) : all_chars id_char id = true -> quotes id = 0%nat.
Proof.
  apply quotes_none. reflexivity.
Qed.

Lemma quotes_decimal (n : nat) : quotes (Fixture.decimal n) = 0%nat.
Proof.
  apply (quotes_none is_digit); [reflexivity|apply decimal_digits].
Qed.

Lemma quotes_spaces (n : nat) : quotes (Fixture.spaces n) = 0%nat.
Proof. induction n as [|n IH]; [reflexivity|exact IH]. Qed.

(** the line of an index name *)
Lemma name_line_matches (indent : nat) (nm : string) :
  index_name_ok nm = true ->
  search_index_name (name_line indent nm) = Some nm.
Proof.
  intros H. unfold name_line. rewrite search_index_name_indent.
  apply search_index_name_here. fold name_open.
  now apply match_index_name_here.
Qed.

(** the line of an entry *)
Lemma offset_line_no_name (indent : nat) (entry : string * nat) :
  id_ok (fst entry) = true ->
  search_index_name (offset_line indent entry) = None.
Proof.
  intros H. apply andb_prop in H as [_ Hall].
  unfold offset_line. rewrite search_index_name_indent.
  change (search_index_name
            (("<offset idRef=" ++ String dquote "")
             ++ (fst entry
                 ++ (quote_gt
                     ++ (Fixture.decimal (snd entry) ++ ("</offset>" ++ eol))))))
    with (search_index_name
            (fst entry
             ++ (quote_gt
                 ++ (Fixture.decimal (snd entry) ++ ("</offset>" ++ eol))))).
  apply search_index_name_few_quotes.
  rewrite !quotes_append, quotes_id, quotes_decimal by assumption.
  cbn. lia.
Qed.

Lemma offset_line_matches (indent : nat) (entry : string * nat) :
  id_ok (fst entry) = true ->
  search_offset (offset_line indent entry)
  = Some (fst entry, Z.of_nat (snd entry)).
Proof.
  intros H. apply andb_prop in H as [Hne Hall].
  unfold offset_line. rewrite search_offset_indent.
  apply search_offset_here. fold offset_open.
  unfold match_offset. fold offset_open. rewrite strip_prefix_append.
  assert (Hnq : all_chars not_quote (fst entry) = true).
  { revert Hall. apply all_chars_impl. intros c Hc.
    now apply andb_prop in Hc as [Hc _]. }
  rewrite (span_append not_quote (fst entry) _ Hnq).
  change (span not_quote
            (quote_gt ++ (Fixture.decimal (snd entry) ++ ("</offset>" ++ eol))))
    with (EmptyString,
          quote_gt ++ (Fixture.decimal (snd entry) ++ ("</offset>" ++ eol))).
  cbn [fst snd].
  replace (fst entry ++ "") with (fst entry)
    by (clear; induction (fst entry) as [|c s IH]; cbn; [reflexivity|now rewrite <- IH]).
  destruct (fst entry) as [|c id] eqn:Eid; [discriminate|].
  rewrite strip_prefix_append.
  rewrite (span_append is_digit (Fixture.decimal (snd entry)) _
             (decimal_digits (snd entry))).
  change (span is_digit ("</offset>" ++ eol)) with (EmptyString, "</offset>" ++ eol).
  cbn [fst snd].
  replace (Fixture.decimal (snd entry) ++ "") with (Fixture.decimal (snd entry))
    by (clear; induction (Fixture.decimal (snd entry)) as [|c s IH]; cbn;
        [reflexivity|now rewrite <- IH]).
  pose proof (decimal_nonempty (snd entry)) as Hd.
  destruct (Fixture.decimal (snd entry)) as [|d ds] eqn:Ed; [discriminate|].
  rewrite strip_prefix_append. rewrite <- Ed, int_of_decimal. reflexivity.
Qed.

(** the line that closes an index *)
Lemma end_line_inert_but_end (indent : nat) :
  search_index_name (end_line indent) = None
  /\ search_offset (end_line indent) = None
  /\ search_end (end_line indent) = true.
Proof.
  unfold end_line. repeat split.
  - apply search_index_name_few_quotes.
    rewrite quotes_append, quotes_spaces. cbn. lia.
  - apply search_offset_few_quotes.
    rewrite quotes_append, quotes_spaces. cbn. lia.
  - unfold search_end.
    induction indent as [|n IH]; [reflexivity|].
    change (Fixture.spaces (S n) ++ ("</index>" ++ eol))
      with (String " " (Fixture.spaces n ++ ("</index>" ++ eol))).
    change (occurs_in "</index>" (String " " ?s))
      with (prefix "</index>" (String " " s) || occurs_in "</index>" s).
    rewrite IH. apply orb_true_r.
Qed.

End LayoutFacts.

(* ------------------------------------------------------------------ *)
(** ** The trailer index on such a list *)
(* ------------------------------------------------------------------ *)

Module TrailerLayout.
Import Layout LayoutFacts TrailerFacts.

Section Tables.
Variables K V : Type.
Variable keqb : K -> K -> bool.
Hypothesis keqb_true : forall a b, keqb a b = true -> a = b.

Lemma set_fresh (k : K) (v : V) (d : Dict.t K V) :
  Dict.get keqb k d = None -> Dict.set keqb k v d = d ++ [(k, v)].
Proof.
  induction d as [|[k1 v1] d IH]; cbn [Dict.get Dict.set app]; [reflexivity|].
  destruct (keqb k k1); [discriminate|]. intros H. now rewrite IH.
Qed.

Lemma get_absent (k : K) (d : Dict.t K V) :
  ~ In k (map fst d) -> Dict.get keqb k d = None.
Proof.
  induction d as [|[k1 v1] d IH]; cbn [Dict.get map fst In]; [reflexivity|].
  intros H. destruct (keqb k k1) eqn:E.
  - apply keqb_true in E. subst k1. exfalso. apply H. now left.
  - apply IH. tauto.
Qed.

End Tables.

Lemma distinct_NoDup (l : list string) : distinct l = true -> NoDup l.
Proof.
  induction l as [|x l IH]; cbn [distinct]; [constructor|].
  intros H. apply andb_prop in H as [Hx Hl]. constructor; [|now apply IH].
  intros Hin. apply negb_true_iff in Hx.
  assert (existsb (String.eqb x) l = true); [|congruence].
  apply existsb_exists. exists x. split; [exact Hin|apply String.eqb_refl].
Qed.

Lemma add_entries_fresh (done entries : list (string * nat)) :
  NoDup (map fst (done ++ entries)) ->
  fold_left add_entry entries (table_of done) = table_of (done ++ entries).
Proof.
  revert done. induction entries as [|e entries IH]; intros done Hnd.
  - now rewrite app_nil_r.
  - cbn [fold_left]. unfold add_entry at 2.
    rewrite set_fresh.
    + change (table_of done ++ [(fst e, Z.of_nat (snd e))])
        with (table_of done ++ table_of [e]).
      unfold table_of at 1 2. rewrite <- map_app. fold (table_of (done ++ [e])).
      rewrite IH; rewrite <- app_assoc; [reflexivity|exact Hnd].
    + apply get_absent.
      * intros a b H. now apply String.eqb_eq.
      * unfold table_of. rewrite map_map. cbn [fst].
        rewrite map_app in Hnd. cbn [map] in Hnd.
        apply NoDup_remove_2 in Hnd. intros Hin. apply Hnd.
        apply in_or_app. now left.
Qed.

Lemma name_eqb_true (a b : option string) : name_eqb a b = true -> a = b.
Proof.
  destruct a, b; cbn [name_eqb]; try discriminate; try reflexivity.
  intros H. apply String.eqb_eq in H. now subst.
Qed.

Lemma add_blocks_fresh (done blocks : list block) :
  NoDup (map fst (done ++ blocks)) ->
  fold_left add_block blocks (index_of done) = index_of (done ++ blocks).
Proof.
  revert done. induction blocks as [|b blocks IH]; intros done Hnd.
  - now rewrite app_nil_r.
  - cbn [fold_left]. unfold add_block at 2.
    rewrite set_fresh.
    + change (index_of done ++ [(Some (fst b), table_of (snd b))])
        with (index_of done ++ index_of [b]).
      unfold index_of at 1 2. rewrite <- map_app. fold (index_of (done ++ [b])).
      rewrite IH; rewrite <- app_assoc; [reflexivity|exact Hnd].
    + apply get_absent; [exact name_eqb_true|].
      unfold index_of. rewrite map_map. cbn [fst].
      rewrite map_app in Hnd. cbn [map] in Hnd.
      apply NoDup_remove_2 in Hnd. intros Hin. apply Hnd.
      apply in_or_app. left.
      apply in_map_iff in Hin as (x & Hx & Hin). injection Hx as <-.
      now apply in_map.
Qed.

(** lines that match nothing leave the state of the loop as it is *)
Lemma scan_inert (ls rest : list string) (index_list : index_t)
    (index_offsets : offsets_t) (index_name : option string) :
  forallb inert ls = true ->
  scan_lines (ls ++ rest) index_list index_offsets index_name
  = scan_lines rest index_list index_offsets index_name.
Proof.
  induction ls as [|l ls IH]; cbn [forallb app scan_lines]; [reflexivity|].
  intros H. apply andb_prop in H as [Hl Hls]. unfold inert in Hl.
  destruct (search_index_name l); [discriminate|].
  destruct (search_offset l); [discriminate|].
  apply negb_true_iff in Hl. rewrite Hl. now apply IH.
Qed.

(** the lines of the entries fill the table *)
Lemma scan_entries (inner : nat) (entries : list (string * nat))
    (rest : list string) (index_list : index_t) (index_offsets : offsets_t)
    (index_name : option string) :
  forallb (fun entry => id_ok (fst entry)) entries = true ->
  scan_lines (map (offset_line inner) entries ++ rest) index_list
    index_offsets index_name
  = scan_lines rest index_list (fold_left add_entry entries index_offsets)
      index_name.
Proof.
  revert index_offsets.
  induction entries as [|e entries IH]; intros index_offsets;
    cbn [forallb map app scan_lines fold_left]; [reflexivity|].
  intros H. apply andb_prop in H as [He Hes].
  rewrite offset_line_no_name, offset_line_matches by exact He.
  now apply IH.
Qed.

(** the lines of one index store its table under its name *)
Lemma scan_block (indent inner : nat) (b : block) (rest : list string)
    (index_list : index_t) (index_name : option string) :
  block_ok b = true ->
  scan_lines (index_block indent inner b ++ rest) index_list [] index_name
  = scan_lines rest (add_block index_list b) [] (Some (fst b)).
Proof.
  intros H. unfold block_ok in H.
  apply andb_prop in H as [H Hd]. apply andb_prop in H as [Hn He].
  unfold index_block. cbn [app scan_lines].
  rewrite name_line_matches by exact Hn.
  rewrite <- app_assoc. rewrite scan_entries by exact He.
  cbn [app scan_lines].
  destruct (end_line_inert_but_end indent) as (A & B & C).
  rewrite A, B, C. unfold add_block.
  change (@nil (string * Z)) with (table_of []).
  rewrite add_entries_fresh by (apply distinct_NoDup; exact Hd).
  reflexivity.
Qed.

Lemma scan_blocks (indent inner : nat) (blocks : list block)
    (rest : list string) (index_list : index_t) (index_name : option string) :
  forallb block_ok blocks = true ->
  exists index_name',
    scan_lines (index_lines indent inner blocks ++ rest) index_list []
      index_name
    = scan_lines rest (fold_left add_block blocks index_list) []
        index_name'.
Proof.
  revert index_list index_name.
  induction blocks as [|b blocks IH]; intros index_list index_name;
    cbn [forallb index_lines flat_map fold_left app].
  - intros _. now exists index_name.
  - intros H. apply andb_prop in H as [Hb Hbs].
    rewrite <- app_assoc. rewrite scan_block by exact Hb.
    fold (index_lines indent inner blocks). now apply IH.
Qed.

Lemma scan_all_inert (ls : list string) (index_list : index_t)
    (index_offsets : offsets_t) (index_name : option string) :
  forallb inert ls = true ->
  scan_lines ls index_list index_offsets index_name = index_list.
Proof.
  intros H. rewrite <- (app_nil_r ls). now rewrite scan_inert.
Qed.

(** X17.  The loop of [find_index_list] over the lines of an index list
    in the usual layout: indices with distinct names that contain no white
    space, each with entries of distinct ids that contain neither quote nor
    line end, tags and entries indented by any number of blanks, before and
    after them lines that none of the three patterns matches.  The result
    is the index list itself: the names in their order, each with its ids
    and offsets in their order. *)
Theorem index_lines_round_trip (indent inner : nat) (blocks : list block)
    (head tail : list string) :
  blocks_ok blocks = true ->
  forallb inert head = true -> forallb inert tail = true ->
  scan_lines (head ++ index_lines indent inner blocks ++ tail) [] [] None
  = index_of blocks.
Proof.
  intros Hb Hh Ht. unfold blocks_ok in Hb. apply andb_prop in Hb as [Hb Hd].
  rewrite scan_inert by exact Hh.
  destruct (scan_blocks indent inner blocks tail [] None Hb) as (nm & ->).
  rewrite scan_all_inert by exact Ht.
  change (@nil (option string * offsets_t)) with (index_of []).
  rewrite add_blocks_fresh by (apply distinct_NoDup; exact Hd).
  reflexivity.
Qed.

(** from lines to text *)

Lemma split_lines_terminated (l rest : string) :
  terminated l = true ->
  split_lines (String.append l rest) = l :: split_lines rest.
Proof.
  induction l as [|c l IH]; [discriminate|].
  destruct l as [|c' l].
  - cbn [terminated String.append split_lines]. intros H. rewrite H.
    apply Ascii.eqb_eq in H. now subst c.
  - intros H. change (terminated (String c (String c' l)))
      with (not_newline c && terminated (String c' l)) in H.
    apply andb_prop in H as [Hc Hl]. unfold not_newline in Hc.
    apply negb_true_iff in Hc.
    change (String.append (String c (String c' l)) rest)
      with (String c (String.append (String c' l) rest)).
    cbn [split_lines]. rewrite Hc. now rewrite (IH Hl).
Qed.

Lemma split_lines_cat (ls : list string) (post : string) :
  forallb terminated ls = true ->
  split_lines (String.append (Fixture.cat ls) post) = ls ++ split_lines post.
Proof.
  induction ls as [|l ls IH]; cbn [forallb Fixture.cat fold_right app];
    [reflexivity|].
  intros H. apply andb_prop in H as [Hl Hls].
  fold (Fixture.cat ls). rewrite append_assoc.
  rewrite split_lines_terminated by exact Hl. now rewrite IH.
Qed.

Lemma terminated_append (a b : string) :
  all_chars not_newline a = true ->
  terminated (String.append a b) = terminated b.
Proof.
  induction a as [|c a IH]; cbn [String.append all_chars]; [reflexivity|].
  intros H. apply andb_prop in H as [Hc Ha]. specialize (IH Ha).
  destruct (String.append a b) as [|c' s] eqn:E.
  - destruct a; [|discriminate]. cbn [String.append] in E. subst b.
    cbn [terminated]. unfold not_newline in Hc.
    now apply negb_true_iff in Hc.
  - change (terminated (String c (String c' s)))
      with (not_newline c && terminated (String c' s)).
    now rewrite Hc, IH.
Qed.

Lemma spaces_no_newline (n : nat) :
  all_chars not_newline (Fixture.spaces n) = true.
Proof. induction n as [|n IH]; [reflexivity|exact IH]. Qed.

Lemma name_no_newline (nm : string) :
  all_chars not_space nm = true -> all_chars not_newline nm = true.
Proof.
  apply all_chars_impl. intros c. unfold not_space, not_newline.
  destruct (Ascii.eqb_spec c newline) as [->|]; [discriminate|reflexivity].
Qed.

Lemma id_no_newline (id : string) :
  all_chars id_char id = true -> all_chars not_newline id = true.
Proof.
  apply all_chars_impl. intros c Hc. now apply andb_prop in Hc as [_ Hc].
Qed.

Lemma decimal_no_newline (n : nat) :
  all_chars not_newline (Fixture.decimal n) = true.
Proof.
  generalize (decimal_digits n). apply all_chars_impl. intros c.
  unfold not_newline.
  destruct (Ascii.eqb_spec c newline) as [->|]; [discriminate|reflexivity].
Qed.

Lemma name_line_terminated (indent : nat) (nm : string) :
  index_name_ok nm = true -> terminated (name_line indent nm) = true.
Proof.
  intros H. apply andb_prop in H as [_ H]. unfold name_line.
  rewrite !terminated_append; try reflexivity.
  - now apply name_no_newline.
  - apply spaces_no_newline.
Qed.

Lemma offset_line_terminated (inner : nat) (entry : string * nat) :
  id_ok (fst entry) = true -> terminated (offset_line inner entry) = true.
Proof.
  intros H. apply andb_prop in H as [_ H]. unfold offset_line.
  rewrite !terminated_append; try reflexivity.
  - apply decimal_no_newline.
  - now apply id_no_newline.
  - apply spaces_no_newline.
Qed.

Lemma end_line_terminated (indent : nat) : terminated (end_line indent) = true.
Proof.
  unfold end_line. rewrite !terminated_append; try reflexivity.
  apply spaces_no_newline.
Qed.

Lemma index_lines_terminated (indent inner : nat) (blocks : list block) :
  forallb block_ok blocks = true ->
  forallb terminated (index_lines indent inner blocks) = true.
Proof.
  induction blocks as [|b blocks IH]; cbn [forallb index_lines flat_map];
    [reflexivity|].
  intros H. apply andb_prop in H as [Hb Hbs].
  rewrite forallb_app. fold (index_lines indent inner blocks).
  rewrite (IH Hbs), andb_true_r.
  unfold block_ok in Hb. apply andb_prop in Hb as [Hb _].
  apply andb_prop in Hb as [Hn He].
  unfold index_block. cbn [forallb].
  rewrite name_line_terminated by exact Hn. cbn [andb].
  rewrite forallb_app. cbn [forallb]. rewrite end_line_terminated.
  rewrite !andb_true_r.
  apply forallb_forall. intros l Hl.
  apply in_map_iff in Hl as (e & <- & Hin).
  apply offset_line_terminated.
  now apply (proj1 (forallb_forall _ _) He).
Qed.

Lemma drop_append (pre s : string) :
  drop (String.length pre) (String.append pre s) = s.
Proof. induction pre as [|c pre IH]; [reflexivity|exact IH]. Qed.

Lemma length_append (a b : string) :
  String.length (String.append a b) = (String.length a + String.length b)%nat.
Proof. induction a as [|c a IH]; cbn; [reflexivity|now rewrite IH]. Qed.

(** X18.  The loop of [find_index_list] on a file that it opens as a
    text stream, given one offset, of 1024 or more, at which an index list
    in the usual layout starts: after any opening lines that match none of
    the patterns come the lines of the indices, and nothing after them
    matches a pattern.  The file system takes the offset, and the stream
    hands the bytes from there on as they are: the codec gives them back
    and no carriage return is among them.  The loop opens the file, seeks
    the offset, reads the lines and returns that index list, names, ids
    and offsets as they are written. *)
Theorem index_loop_reads_layout {P : Platform} (obj : source)
    (pre post : string) (head : list string) (indent inner : nat)
    (blocks : list block) :
  let tail :=
    String.append (Fixture.cat head)
      (String.append (Fixture.cat (index_lines indent inner blocks)) post) in
  to_open obj ->
  bytes_of obj = String.append pre tail ->
  1024 <= Z.of_nat (String.length pre) < seek_limit ->
  decode tail = Ok tail ->
  universal tail = tail ->
  forallb terminated head = true ->
  forallb inert head = true ->
  forallb inert (split_lines post) = true ->
  blocks_ok blocks = true ->
  run (index_loop obj [Z.of_nat (String.length pre)] [])
  = (Ok (index_of blocks, obj),
     opening obj ++ [Seek (Z.of_nat (String.length pre)) 0; ReadLines]).
Proof.
  intros tail Hobj Hbytes Hpre Hdec Huni Hterm Hhead Hpost Hblocks.
  assert (Htail : drop (Z.to_nat (Z.of_nat (String.length pre))) (bytes_of obj)
                  = tail).
  { rewrite Nat2Z.id, Hbytes. apply drop_append. }
  unfold run. rewrite visit_step; try assumption.
  2:{ now rewrite Htail. }
  cbn [index_loop ret app]. f_equal. f_equal. f_equal.
  unfold visit. rewrite Htail, Huni. unfold tail.
  rewrite split_lines_cat by exact Hterm.
  unfold blocks_ok in Hblocks. apply andb_prop in Hblocks as [Hb Hd].
  rewrite split_lines_cat by (apply index_lines_terminated; exact Hb).
  rewrite scan_inert by exact Hhead.
  destruct (scan_blocks indent inner blocks (split_lines post) [] None Hb)
    as (nm & ->).
  rewrite scan_all_inert by exact Hpost.
  change (@nil (option string * offsets_t)) with (index_of []).
  rewrite add_blocks_fresh by (apply distinct_NoDup; exact Hd).
  reflexivity.
Qed.

(** X19.  The index list changes only at a line that matches the end
    pattern and neither of the other two.  Lines of which none is such a
    line leave it as it is, whatever names and entries they hold: the
    entries of an index whose closing tag is missing are dropped, and so are
    those of an index written on a single line, where the name pattern
    matches first. *)
Theorem index_kept_without_end_line (lines : list string)
    (index_list : index_t) (index_offsets : offsets_t)
    (index_name : option string) :
  Forall (fun l => search_index_name l = None -> search_offset l = None ->
                   search_end l = false) lines ->
  scan_lines lines index_list index_offsets index_name = index_list.
Proof.
  intros H. revert index_offsets index_name.
  induction H as [|l lines Hl _ IH]; intros index_offsets index_name;
    cbn [scan_lines]; [reflexivity|].
  destruct (search_index_name l); [apply IH|].
  destruct (search_offset l) as [[id_ref offset]|]; [apply IH|].
  rewrite (Hl eq_refl eq_refl). apply IH.
Qed.

(** X19 at an index written on one line, followed by an index that is
    not closed *)
Lemma index_kept_without_end_line_witness :
  scan_lines
    [Fixture.line
       "<index name='spectrum'><offset idRef='scan=1'>1207</offset></index>";
     Fixture.line "<index name='chromatogram'>";
     Fixture.line "<offset idRef='TIC'>1300</offset>"]
    [] [] None
  = [].
Proof.
  apply (@index_kept_without_end_line
           [Fixture.line
              "<index name='spectrum'><offset idRef='scan=1'>1207</offset></index>";
            Fixture.line "<index name='chromatogram'>";
            Fixture.line "<offset idRef='TIC'>1300</offset>"]).
  repeat constructor; vm_compute; intros; discriminate.
Defined.

Lemma span_all (ok : ascii -> bool) (s : string) :
  all_chars ok (fst (span ok s)) = true.
Proof.
  induction s as [|c s IH]; cbn [span]; [reflexivity|].
  destruct (ok c) eqn:E; [|reflexivity].
  destruct (span ok s) as [run rest]. cbn [fst all_chars] in *.
  now rewrite E, IH.
Qed.

Lemma digit_val_range (c : ascii) : is_digit c = true -> 0 <= digit_val c <= 9.
Proof.
  unfold is_digit, digit_val. intros H. apply andb_prop in H as [A B].
  apply Nat.leb_le in A, B. lia.
Qed.

Lemma digits_value_nonneg (s : string) (acc z : Z) :
  0 <= acc -> digits_value acc s = Some z -> 0 <= z.
Proof.
  revert acc. induction s as [|c s IH]; intros acc Hacc; cbn [digits_value].
  - now intros [= <-].
  - destruct (is_digit c) eqn:E; [|discriminate].
    apply IH. pose proof (digit_val_range c E). lia.
Qed.

Lemma int_of_digits_nonneg (ds : string) : 0 <= int_of_digits ds.
Proof.
  unfold int_of_digits. destruct (digits_value 0 ds) as [z|] eqn:E; [|lia].
  apply (@digits_value_nonneg ds 0 z); [lia|exact E].
Qed.

Lemma match_index_list_offset_inv (s : string) (z : Z) (len : nat) :
  match_index_list_offset s = Some (z, len) ->
  exists ds rest,
    s = String.append "<indexListOffset>"
          (String.append ds (String.append "</indexListOffset>" rest))
    /\ nonempty ds = true /\ all_chars is_digit ds = true
    /\ z = int_of_digits ds.
Proof.
  unfold match_index_list_offset.
  destruct (strip_prefix "<indexListOffset>" s) as [s1|] eqn:E; [|discriminate].
  apply strip_prefix_inv in E.
  pose proof (span_inv is_digit s1) as Hs.
  pose proof (span_all is_digit s1) as Hall.
  destruct (span is_digit s1) as [ds s2]. cbn [fst snd] in *.
  destruct ds as [|d ds]; [discriminate|].
  destruct (strip_prefix "</indexListOffset>" s2) as [s3|] eqn:E2;
    [|discriminate].
  apply strip_prefix_inv in E2. intros [= <- _].
  exists (String d ds), s3. subst s2 s1. now repeat split.
Qed.

Lemma findall_from_written (s : string) (skip : nat) (z : Z) :
  In z (findall_from skip s) ->
  exists a ds b,
    s = String.append a
          (String.append "<indexListOffset>"
             (String.append ds (String.append "</indexListOffset>" b)))
    /\ nonempty ds = true /\ all_chars is_digit ds = true
    /\ z = int_of_digits ds.
Proof.
  revert skip. induction s as [|c s IH]; intros skip; cbn [findall_from];
    [intros []|].
  assert (Hlater : forall k, In z (findall_from k s) ->
            exists a ds b,
              String c s
              = String.append a
                  (String.append "<indexListOffset>"
                     (String.append ds (String.append "</indexListOffset>" b)))
              /\ nonempty ds = true /\ all_chars is_digit ds = true
              /\ z = int_of_digits ds).
  { intros k Hk. destruct (IH k Hk) as (a & ds & b & -> & Hne & Hd & Hz).
    exists (String c a), ds, b. now repeat split. }
  destruct skip as [|k]; [|apply Hlater].
  destruct (match_index_list_offset (String c s)) as [[z0 len]|] eqn:E;
    [|apply Hlater].
  intros [<-|Hin]; [|now apply (Hlater (Nat.pred len))].
  destruct (@match_index_list_offset_inv (String c s) z0 len E)
    as (ds & rest & Hs & Hne & Hd & Hz).
  exists EmptyString, ds, rest. now repeat split.
Qed.

(** X20.  Every offset that [find_index_list_offset] takes from the
    trailer is written there: it is the value of a non-empty run of decimal
    digits that stands between the opening and the closing tag, and it is
    not negative, so that the seek to it is never refused for its sign. *)
Theorem trailer_offsets_are_written (text : string) (z : Z) :
  In z (findall_index_list_offset text) ->
  exists a ds b,
    text = String.append a
             (String.append "<indexListOffset>"
                (String.append ds (String.append "</indexListOffset>" b)))
    /\ nonempty ds = true /\ all_chars is_digit ds = true
    /\ z = int_of_digits ds /\ 0 <= z.
Proof.
  intros H.
  destruct (@findall_from_written text O z H)
    as (a & ds & b & Ht & Hne & Hd & Hz).
  exists a, ds, b. repeat split; try assumption.
  subst z. apply int_of_digits_nonneg.
Qed.

(** X20 at the end of an index list *)
Lemma trailer_offsets_are_written_witness :
  exists a ds b,
    "</indexList><indexListOffset>1311</indexListOffset>"
    = String.append a
        (String.append "<indexListOffset>"
           (String.append ds (String.append "</indexListOffset>" b)))
    /\ nonempty ds = true /\ all_chars is_digit ds = true
    /\ 1311 = int_of_digits ds /\ 0 <= 1311.
Proof.
  apply (@trailer_offsets_are_written
           "</indexList><indexListOffset>1311</indexListOffset>" 1311).
  vm_compute. now left.
Defined.

(** X21.  What [read_from_start] hands back.  A path is opened, and so
    is the name of a closed file object, which is itself left alone and
    whose new stream is rewound; what [open] returns is a text stream at
    the start of the file, and when [open] refuses the name, its error is
    the outcome after the one call.  An open file object is rewound and
    returned itself, in the mode in which it was opened.  Whenever a stream
    is returned it is open, stands at the start and reads the bytes of the
    argument. *)
Theorem read_from_start_contract {P : Platform} (obj : source)
    (log : list op) :
  read_from_start obj log
  = match obj with
    | Path nm bytes => (Ok (opened_text nm bytes), log ++ [Open nm])
    | NoFile nm e => (Raise e, log ++ [Open nm])
    | FileObj f0 =>
        if closed f0 then
          match on_disk f0 with
          | Ok bytes =>
              (Ok (opened_text (name f0) bytes),
               log ++ [Open (name f0); Seek 0 0])
          | Raise e => (Raise e, log ++ [Open (name f0)])
          end
        else (Ok (with_pos f0 0), log ++ [Seek 0 0])
    end
  /\ (forall f log',
        read_from_start obj log = (Ok f, log') ->
        closed f = false /\ pos f = 0 /\ data f = bytes_of obj
        /\ opened_as f
           = match obj with
             | FileObj f0 => if closed f0 then TextMode else opened_as f0
             | Path _ _ | NoFile _ _ => TextMode
             end
        /\ alias obj f
           = match obj with
             | FileObj f0 => if closed f0 then obj else FileObj f
             | Path _ _ | NoFile _ _ => obj
             end).
Proof.
  pose proof (read_from_start_cases obj log) as Hstart.
  destruct obj as [nm bytes|f0|nm e].
  - split; [exact Hstart|]. rewrite Hstart. intros f log' [= <- _].
    repeat split.
  - destruct (closed f0) eqn:Hc.
    + destruct (on_disk f0) as [bytes|e] eqn:Hd.
      * split; [exact Hstart|]. rewrite Hstart. intros f log' [= <- _].
        cbn [bytes_of alias]. rewrite Hc, Hd. repeat split.
      * split; [exact Hstart|]. rewrite Hstart. intros f log'. discriminate.
    + split; [exact Hstart|]. rewrite Hstart. intros f log' [= <- _].
      cbn [bytes_of alias]. rewrite Hc. repeat split. exact Hc.
  - split; [exact Hstart|]. rewrite Hstart. intros f log'. discriminate.
Qed.

End TrailerLayout.

(* ------------------------------------------------------------------ *)
(** ** The scan and the index on concrete files *)
(* ------------------------------------------------------------------ *)

Module LayoutOnFiles.
Import Layout Fixture.
Import ReaderScans TrailerLayout Construction.

#[local] Existing Instance MiniXML.base.
#[local] Existing Instance little_endian_host.
#[local] Existing Instance MiniXML.inherited.
#[local] Existing Instance latin1_platform.

(** X10 at the file with the right offsets: the scan from the offset of
    scan=1 returns the spectrum although the parser fails right after it,
    at the close tag of the spectrum list *)
Lemma scan_stops_at_first_hit_witness :
  _find_by_id_no_reset (with_pos (opened "good.mzML" good) 1207) "scan=1"
  = Ok (Some scan1).
Proof.
  apply (@scan_stops_at_first_hit MiniXML.base
           (with_pos (opened "good.mzML" good) 1207) "scan=1"
           [(start, MiniXML.Node "spectrum" [("index", "1"); ("id", "scan=1")]
                      EmptyString []);
            (start, MiniXML.Node "cvParam"
                      [("name", "ms level"); ("value", "2")] EmptyString []);
            (end_, MiniXML.Node "cvParam"
                     [("name", "ms level"); ("value", "2")] EmptyString [])]
           [] scan1 (Some XMLSyntaxError)).
  - reflexivity.
  - vm_compute. reflexivity.
  - repeat constructor.
  - reflexivity.
Defined.

(** X11 at the file whose index sends scan=1 beyond the end of the file *)
Lemma lookup_without_hit_witness :
  _find_by_id_no_reset (with_pos (opened "stale.mzML" stale) 5000) "scan=1"
  = Raise XMLSyntaxError
  /\ indexed_get_by_id stale_reader "scan=1" = Raise XMLSyntaxError.
Proof.
  apply (@lookup_without_hit MiniXML.base little_endian_host
           latin1_platform stale_reader "scan=1" [("scan=1", 5000); ("scan=2", 1127)] 5000
           (with_pos (opened "stale.mzML" stale) 5000) []
           (Some XMLSyntaxError)).
  - reflexivity.
  - reflexivity.
  - reflexivity.
  - vm_compute. reflexivity.
  - constructor.
Defined.

(** X12 on the events of two spectra, the second being looked for *)
Lemma clearing_stops_at_the_target_witness :
  let a := MiniXML.Node "spectrum" [("id", "scan=2")] EmptyString [] in
  let p := MiniXML.Node "cvParam" [("name", "ms level")] EmptyString [] in
  let b := MiniXML.Node "spectrum" [("id", "scan=1")] EmptyString [] in
  snd (@scan_events MiniXML.base
         ([(start, a); (end_, a)]
          ++ (start, b) :: [(start, p); (end_, p); (end_, b)])
         "scan=1" false)
  = [a].
Proof.
  intros a p b.
  apply (@clearing_stops_at_the_target MiniXML.base
           [(start, a); (end_, a)] [(start, p); (end_, p); (end_, b)]
           b "scan=1").
  - repeat constructor.
  - reflexivity.
Defined.

(** X13 at the file with the stale offset: scan=2 is yielded, the lookup
    of scan=1 ends the iteration *)
Lemma iteration_interrupted_witness :
  __iter__ stale_reader = ([record2], Some XMLSyntaxError).
Proof.
  apply (@iteration_interrupted MiniXML.base little_endian_host
           MiniXML.inherited latin1_platform stale_reader
           [("scan=1", 5000); ("scan=2", 1127)]
           [("scan=2", 1127)] [] "scan=1" 5000 [record2] XMLSyntaxError).
  - reflexivity.
  - reflexivity.
  - vm_compute. reflexivity.
  - vm_compute. reflexivity.
Defined.

(** X14 at the reader of the file with the right offsets, its source
    closed *)
Lemma lookup_on_closed_source_witness :
  let self := {| _source := close_file (opened "good.mzML" good);
                 _offset_index := Some [(Some "spectrum", spectrum_table)] |} in
  get_by_id self "scan=1"
  = match Dict.get String.eqb "scan=1" spectrum_table with
    | Some _ => Raise ValueError
    | None => super_get_by_id (_source self) "scan=1"
    end.
Proof.
  apply (@lookup_on_closed_source MiniXML.base little_endian_host
           MiniXML.inherited latin1_platform
           {| _source := close_file (opened "good.mzML" good);
              _offset_index := Some [(Some "spectrum", spectrum_table)] |}
           "scan=1" spectrum_table).
  - reflexivity.
  - reflexivity.
Defined.

(** X17 on an index list of two indices, between the tags of the list *)
Lemma index_lines_round_trip_witness :
  let blocks :=
    [("spectrum", [("scan=1", 1100%nat); ("controller=0 scan=2", 1200%nat)]);
     ("chromatogram", [("TIC", 1300%nat)])] in
  scan_lines
    ([line "<indexList count='2'>"]
     ++ index_lines 4 6 blocks
     ++ [line "  </indexList>"; line "  <indexListOffset>1400</indexListOffset>"])
    [] [] None
  = index_of blocks.
Proof.
  intros blocks.
  apply (@index_lines_round_trip 4 6 blocks).
  - reflexivity.
  - vm_compute. reflexivity.
  - vm_compute. reflexivity.
Defined.

(** X18 at the file with the right offsets *)
Lemma index_loop_reads_layout_witness :
  run (index_loop (Path "good.mzML" good)
         [Z.of_nat (String.length body)] [])
  = (Ok (index_of spectrum_blocks, Path "good.mzML" good),
     opening (Path "good.mzML" good)
     ++ [Seek (Z.of_nat (String.length body)) 0; ReadLines]).
Proof.
  apply (@index_loop_reads_layout latin1_platform
           (Path "good.mzML" good) body
           (cat [line "</indexList>";
                 "<indexListOffset>"; decimal offset_index;
                 line "</indexListOffset>"; line "</indexedmzML>"])
           [line "<indexList count='1'>"] 0 0 spectrum_blocks).
  - exact I.
  - vm_compute. reflexivity.
  - vm_compute. split; [discriminate|reflexivity].
  - reflexivity.
  - vm_compute. reflexivity.
  - vm_compute. reflexivity.
  - vm_compute. reflexivity.
  - vm_compute. reflexivity.
  - reflexivity.
Defined.

End LayoutOnFiles.
